(** * DDPG (spinup/algos/pytorch/ddpg/ddpg.py): replay buffer and control loop

    A shallow embedding of the experience-replay subsystem and of the
    training / evaluation control loop of [ddpg.py].

    Modelling conventions.
    - Python integers are [Z]; [%] is [py_mod], which raises
      [ZeroDivisionError] on a zero divisor and otherwise agrees with
      [Z.modulo] (both take the sign of the divisor).
    - Float values (rewards, returns, parameters, actions) are modelled by the
      rational they denote ([Qc], canonical rationals with Leibniz equality):
      comparisons are exact, arithmetic is exact, rounding and the special
      values NaN / inf are outside the model ([float('-inf')] is modelled
      where the source uses it, as [None] in [prev_best]).
    - A numpy array indexed by its first axis is a [list] of rows, read and
      written with stdpp's list lookup and insert; the bounds and shape checks
      numpy performs are written out in [np_setitem], [np_setrow],
      [np_getitem] and [np_iadd].
    - Exceptions are the [Raise] case of [Result]; an exception ends the run.
    - The environment, the actor-critic networks with their optimizers, and
      the logger are external collaborators: the classes [GymEnv],
      [ActorCritic] and [EpochLogger]. *)

From Stdlib Require Import ZArith QArith Qcanon List Lia Bool.
From stdpp Require Import base option list gmap strings.

Local Open Scope Z_scope.

(** ** Exceptions *)

Inductive Exn : Set :=
| IndexError
| ValueError
| ZeroDivisionError
| FileNotFoundError
| OutOfFuel.

Inductive Result (A : Type) : Type :=
| Ok (a : A)
| Raise (e : Exn).

Arguments Ok {A} a.
Arguments Raise {A} e.

#[global] Instance Result_ret : MRet Result := fun _ a => Ok a.
#[global] Instance Result_bind : MBind Result := fun _ _ f m =>
  match m with
  | Ok a => f a
  | Raise e => Raise e
  end.

Definition is_Ok {A} (r : Result A) : Prop := exists a, r = Ok a.

(** ** Python and numpy primitives *)

(** [a % b] on Python integers. *)
Definition py_mod (a b : Z) : Result Z :=
  if b =? 0 then Raise ZeroDivisionError else Ok (a mod b).

(** [a // b] on Python integers (floor division). *)
Definition py_floordiv (a b : Z) : Result Z :=
  if b =? 0 then Raise ZeroDivisionError else Ok (a / b).

(** Resolution of a numpy index against an axis of length [n]: negative
    indices count from the end, anything outside [-n, n) is an
    [IndexError]. *)
Definition np_index (n : nat) (i : Z) : Result nat :=
  let len := Z.of_nat n in
  if (0 <=? i) && (i <? len) then Ok (Z.to_nat i)
  else if (- len <=? i) && (i <? 0) then Ok (Z.to_nat (len + i))
  else Raise IndexError.

(** [arr[i] = v] *)
Definition np_setitem {A} (arr : list A) (i : Z) (v : A) : Result (list A) :=
  k ← np_index (length arr) i; Ok (<[k := v]> arr).

(** [arr[i] = v] for a two-dimensional [arr] and a one-dimensional [v]: the
    row is overwritten when [v] has the row's length, a one-element [v] is
    broadcast over the row, any other shape is a [ValueError]. *)
Definition np_setrow (arr : list (list Qc)) (i : Z) (v : list Qc) : Result (list (list Qc)) :=
  k ← np_index (length arr) i;
  match arr !! k with
  | Some row =>
      if (length v =? length row)%nat then Ok (<[k := v]> arr)
      else match v with
           | [x] => Ok (<[k := replicate (length row) x]> arr)
           | _ => Raise ValueError
           end
  | None => Raise IndexError
  end.

(** [arr[i]], also [xs[i]] on a Python list. *)
Definition np_getitem {A} (arr : list A) (i : Z) : Result A :=
  k ← np_index (length arr) i;
  match arr !! k with
  | Some v => Ok v
  | None => Raise IndexError
  end.

(** [arr[idxs]] with an integer index array: one row per index. *)
Fixpoint np_take {A} (arr : list A) (idxs : list Z) : Result (list A) :=
  match idxs with
  | [] => Ok []
  | i :: rest =>
      v ← np_getitem arr i;
      vs ← np_take arr rest;
      Ok (v :: vs)
  end.

(** [np.zeros(n)], with rows [z]; a negative dimension is a [ValueError]. *)
Definition np_zeros {A} (n : Z) (z : A) : Result (list A) :=
  if n <? 0 then Raise ValueError else Ok (replicate (Z.to_nat n) z).

(** A Python [bool] written into a float array. *)
Definition float_of_bool (b : bool) : Qc := if b then 1%Qc else 0%Qc.

(** ** Replay buffer *)

Abbreviation Vec := (list Qc) (only parsing).

(** One environment transition, as handed to [store]. *)
Record Transition := {
  t_obs : Vec;
  t_act : Vec;
  t_rew : Qc;
  t_obs2 : Vec;
  t_done : bool
}.

Record ReplayBuffer := {
  obs_buf : list Vec;
  obs2_buf : list Vec;
  act_buf : list Vec;
  rew_buf : list Qc;
  done_buf : list Qc;
  ptr : Z;
  size : Z;
  max_size : Z
}.

(** Modelled from the spec: [core.combined_shape] is not among the sources.
    By the data model (a fixed-capacity store of fixed-length vectors),
    [np.zeros(core.combined_shape(size, dim))] is an array of [size] rows of
    [dim] zeros each. *)
Definition zeros_combined_shape (sz dim : Z) : Result (list Vec) :=
  row ← np_zeros dim 0%Qc;
  np_zeros sz row.

(** [ReplayBuffer.__init__(obs_dim, act_dim, size)] *)
Definition ReplayBuffer_init (obs_dim act_dim sz : Z) : Result ReplayBuffer :=
  ob ← zeros_combined_shape sz obs_dim;
  ob2 ← zeros_combined_shape sz obs_dim;
  ab ← zeros_combined_shape sz act_dim;
  rb ← np_zeros sz 0%Qc;
  db ← np_zeros sz 0%Qc;
  Ok {| obs_buf := ob; obs2_buf := ob2; act_buf := ab; rew_buf := rb;
        done_buf := db; ptr := 0; size := 0; max_size := sz |}.

(** [ReplayBuffer.store(obs, act, rew, next_obs, done)] *)
Definition store (tr : Transition) (b : ReplayBuffer) : Result ReplayBuffer :=
  ob ← np_setrow (obs_buf b) (ptr b) (t_obs tr);
  ob2 ← np_setrow (obs2_buf b) (ptr b) (t_obs2 tr);
  ab ← np_setrow (act_buf b) (ptr b) (t_act tr);
  rb ← np_setitem (rew_buf b) (ptr b) (t_rew tr);
  db ← np_setitem (done_buf b) (ptr b) (float_of_bool (t_done tr));
  p ← py_mod (ptr b + 1) (max_size b);
  Ok {| obs_buf := ob; obs2_buf := ob2; act_buf := ab; rew_buf := rb;
        done_buf := db; ptr := p;
        size := Z.min (size b + 1) (max_size b);
        max_size := max_size b |}.

(** Successive calls to [store], oldest transition first. *)
Fixpoint store_all (trs : list Transition) (b : ReplayBuffer) : Result ReplayBuffer :=
  match trs with
  | [] => Ok b
  | tr :: rest => b' ← store tr b; store_all rest b'
  end.

(** The aligned row held at index [i] of the five arrays. *)
Record Row := {
  r_obs : Vec;
  r_obs2 : Vec;
  r_act : Vec;
  r_rew : Qc;
  r_done : Qc
}.

Definition row_of (tr : Transition) : Row :=
  {| r_obs := t_obs tr; r_obs2 := t_obs2 tr; r_act := t_act tr;
     r_rew := t_rew tr; r_done := float_of_bool (t_done tr) |}.

Definition buf_row (b : ReplayBuffer) (i : nat) : option Row :=
  o ← obs_buf b !! i;
  o2 ← obs2_buf b !! i;
  a ← act_buf b !! i;
  r ← rew_buf b !! i;
  d ← done_buf b !! i;
  Some {| r_obs := o; r_obs2 := o2; r_act := a; r_rew := r; r_done := d |}.

(** Shape of a buffer of capacity [C] for observations of [od] components
    and actions of [ad] components: the five arrays have [C] rows, of [od],
    [od] and [ad] components in the three two-dimensional ones. *)
Definition buf_wf (od ad : nat) (C : Z) (b : ReplayBuffer) : Prop :=
  max_size b = C /\
  (length (obs_buf b) = Z.to_nat C /\ Forall (fun row => length row = od) (obs_buf b)) /\
  (length (obs2_buf b) = Z.to_nat C /\ Forall (fun row => length row = od) (obs2_buf b)) /\
  (length (act_buf b) = Z.to_nat C /\ Forall (fun row => length row = ad) (act_buf b)) /\
  length (rew_buf b) = Z.to_nat C /\
  length (done_buf b) = Z.to_nat C.

(** A transition whose vectors have the buffer's dimensions. *)
Definition tr_shaped (od ad : nat) (tr : Transition) : Prop :=
  length (t_obs tr) = od /\ length (t_obs2 tr) = od /\ length (t_act tr) = ad.

(** The state of a buffer of capacity [C] in which the transitions [ts] have
    been stored, oldest first: transition number [j] of the last
    [min (length ts) C] sits in slot [j mod C]. *)
Definition ring_inv (od ad : nat) (C : Z) (ts : list Transition) (b : ReplayBuffer) : Prop :=
  let n := Z.of_nat (length ts) in
  buf_wf od ad C b /\
  ptr b = n mod C /\
  size b = Z.min n C /\
  forall j : Z, n - Z.min n C <= j < n ->
    buf_row b (Z.to_nat (j mod C)) = row_of <$> ts !! Z.to_nat j.

(** A buffer of capacity [C] in a state [store] and [sample_batch] accept. *)
Definition buf_ok (od ad : nat) (C : Z) (b : ReplayBuffer) : Prop :=
  buf_wf od ad C b /\ 0 <= ptr b < C /\ 0 <= size b <= C.

(** ** The global numpy random state

    [np.random] is an external generator.  Its state is an entropy tape (raw
    integer words, standard-normal draws) and a cursor; every call consumes
    one tape cell per number drawn. *)

Record RandomState := {
  rs_words : nat -> Z;
  rs_normals : nat -> Qc;
  rs_pos : nat
}.

Definition rs_advance (k : nat) (rs : RandomState) : RandomState :=
  {| rs_words := rs_words rs; rs_normals := rs_normals rs;
     rs_pos := (rs_pos rs + k)%nat |}.

(** [np.random.randint(low, high, size=n)], by its documented contract: [n]
    integers in [[low, high)]; [ValueError] when [n < 0], and when
    [low >= high] unless no sample is taken: with [n = 0] the result is the
    empty array, whatever the range. *)
Definition randint (low high n : Z) (rs : RandomState) : Result (list Z * RandomState) :=
  if n <? 0 then Raise ValueError
  else if (high <=? low) && negb (n =? 0) then Raise ValueError
  else
    let k := Z.to_nat n in
    Ok (map (fun j => low + rs_words rs (rs_pos rs + j)%nat mod (high - low)) (seq 0 k),
        rs_advance k rs).

(** [np.random.randn(n)]: [n] standard-normal draws. *)
Definition randn (n : Z) (rs : RandomState) : Result (Vec * RandomState) :=
  if n <? 0 then Raise ValueError
  else
    let k := Z.to_nat n in
    Ok (map (fun j => rs_normals rs (rs_pos rs + j)%nat) (seq 0 k), rs_advance k rs).

(** ** Sampling *)

Record Batch := {
  b_obs : list Vec;
  b_obs2 : list Vec;
  b_act : list Vec;
  b_rew : list Qc;
  b_done : list Qc
}.

(** The rows of the five arrays at the indices [idxs]. *)
Definition gather (b : ReplayBuffer) (idxs : list Z) : Result Batch :=
  o ← np_take (obs_buf b) idxs;
  o2 ← np_take (obs2_buf b) idxs;
  a ← np_take (act_buf b) idxs;
  r ← np_take (rew_buf b) idxs;
  d ← np_take (done_buf b) idxs;
  Ok {| b_obs := o; b_obs2 := o2; b_act := a; b_rew := r; b_done := d |}.

(** [ReplayBuffer.sample_batch(batch_size)]; the index array is returned as
    well, so that statements can refer to it. *)
Definition sample_batch_idxs (batch_size : Z) (b : ReplayBuffer) (rs : RandomState)
  : Result (list Z * Batch * RandomState) :=
  '(idxs, rs') ← randint 0 (size b) batch_size rs;
  batch ← gather b idxs;
  Ok (idxs, batch, rs').

Definition sample_batch (batch_size : Z) (b : ReplayBuffer) (rs : RandomState)
  : Result (Batch * RandomState) :=
  '(_, batch, rs') ← sample_batch_idxs batch_size b rs;
  Ok (batch, rs').

(** The [i]-th aligned row of a batch. *)
Definition batch_row (bt : Batch) (i : nat) : option Row :=
  o ← b_obs bt !! i;
  o2 ← b_obs2 bt !! i;
  a ← b_act bt !! i;
  r ← b_rew bt !! i;
  d ← b_done bt !! i;
  Some {| r_obs := o; r_obs2 := o2; r_act := a; r_rew := r; r_done := d |}.

(** ** Elementwise numpy operations on action vectors *)

Definition Qcmax (x y : Qc) : Qc := if Qclt_le_dec x y then y else x.
Definition Qcmin (x y : Qc) : Qc := if Qclt_le_dec y x then y else x.

(** [np.clip(x, lo, hi)] on one component: [minimum(maximum(x, lo), hi)]. *)
Definition clip (lo hi x : Qc) : Qc := Qcmin (Qcmax x lo) hi.

Definition np_clip (a : Vec) (lo hi : Qc) : Vec := map (clip lo hi) a.

(** [a += x] on one-dimensional arrays: elementwise when the shapes agree, a
    one-element [x] is broadcast, any other shape is a [ValueError]. *)
Definition np_iadd (a x : Vec) : Result Vec :=
  if (length x =? length a)%nat then Ok (zip_with Qcplus a x)
  else match x with
       | [x0] => Ok (map (fun ai => (ai + x0)%Qc) a)
       | _ => Raise ValueError
       end.

(** ** Polyak averaging

    One iteration of the loop body over [zip(ac.parameters(),
    ac_targ.parameters())]: [p_targ.mul_(polyak)] then
    [p_targ.add_((1 - polyak) * p)]. *)
Definition polyak_step (polyak p p_targ : Qc) : Qc :=
  (p_targ * polyak + (1 - polyak) * p)%Qc.

(** The whole loop: [zip] stops at the shorter sequence, target parameters
    beyond it are left as they are. *)
Fixpoint polyak_average (polyak : Qc) (live targ : list Qc) : list Qc :=
  match live, targ with
  | p :: live', p_targ :: targ' =>
      polyak_step polyak p p_targ :: polyak_average polyak live' targ'
  | _, _ => targ
  end.

(** ** Best-checkpoint bookkeeping

    [prev_best] starts at [float('-inf')], modelled by [None]. *)
Definition Qcltb (x y : Qc) : bool := if Qclt_le_dec x y then true else false.

(** [avg_episode_ret > prev_best] *)
Definition exceeds_best (avg : Qc) (prev_best : option Qc) : bool :=
  match prev_best with
  | None => true
  | Some p => Qcltb p avg
  end.

(** [max(prev_best, avg_episode_ret)]: Python's [max] keeps its first
    argument unless the second is strictly greater. *)
Definition max_best (prev_best : option Qc) (avg : Qc) : option Qc :=
  match prev_best with
  | None => Some avg
  | Some p => Some (if Qcltb p avg then avg else p)
  end.


(** ** Hyperparameters of [ddpg] *)

Inductive Mode := Train | Eval | OtherMode.

Record Config := {
  mode : Mode;
  steps_per_epoch : Z;
  epochs : Z;
  replay_size : Z;
  polyak : Qc;
  batch_size : Z;
  start_steps : Z;
  update_after : Z;
  update_every : Z;
  act_noise : Qc;
  num_test_episodes : Z;
  max_ep_len : Z;
  save_freq : Z;
  output_dir : string
}.

(** [for x in xs: body], with exceptions. *)
Fixpoint for_each {S X} (body : X -> S -> Result S) (xs : list X) (s : S) : Result S :=
  match xs with
  | [] => Ok s
  | x :: rest => s' ← body x s; for_each body rest s'
  end.

(** [range(n)] *)
Definition py_range (n : Z) : list Z := seqZ 0 n.

Definition is_slash (c : Ascii.ascii) : bool := Ascii.eqb c (Ascii.ascii_of_nat 47).

Definition starts_with_slash (s : string) : bool :=
  match s with
  | String c _ => is_slash c
  | EmptyString => false
  end.

Fixpoint ends_with_slash (s : string) : bool :=
  match s with
  | EmptyString => false
  | String c EmptyString => is_slash c
  | String _ rest => ends_with_slash rest
  end.

(** [s.split('/')]: the pieces between the separators, at least one. *)
Fixpoint split_slash (s : string) : list string :=
  match s with
  | EmptyString => [EmptyString]
  | String c rest =>
      if is_slash c then EmptyString :: split_slash rest
      else match split_slash rest with
           | piece :: pieces => String c piece :: pieces
           | [] => [String c EmptyString]
           end
  end.

(** [os.path.join(a, b)] (posixpath). *)
Definition path_join (a b : string) : string :=
  if starts_with_slash b then b
  else if (String.length a =? 0)%nat || ends_with_slash a then a +:+ b
  else a +:+ "/" +:+ b.


(** ** The training / evaluation program *)

(** Observable steps of a run, recorded in order in the [trace] of the
    world.  The trace is instrumentation of the model: it lets statements
    count and order the calls the program makes. *)
Inductive Event :=
| EvRandomAction (t : Z)                (* env.action_space['action'].sample() at step t *)
| EvPolicyAction (t : Z)                (* get_action(o, act_noise) at step t *)
| EvEnvStep (t : Z)                     (* env.step(a) at step t *)
| EvStore (t : Z) (tr : Transition)     (* replay_buffer.store at step t *)
| EvEpisodeEnd (t : Z)                  (* logger.store(episode_return=...), env.reset() *)
| EvSample (idxs : list Z)              (* replay_buffer.sample_batch *)
| EvUpdateBegin                         (* entry of update(data) *)
| EvQStep                               (* q_optimizer.step() *)
| EvPiStep                              (* pi_optimizer.step() *)
| EvPolyak                              (* the Polyak loop over the target parameters *)
| EvTestStep                            (* test_env.step in test_agent *)
| EvSaveState (epoch : Z)               (* logger.save_state *)
| EvEpochStats (epoch : Z) (avg : Qc)   (* the epoch's mean training return, logged *)
| EvSaveModel (epoch : Z) (key : Qc)    (* save_model(epoch, key) *)
| EvLoadCheckpoint (path : string).     (* torch.load *)

(** What one pass of the update burst records. *)
Definition update_block (idxs : list Z) : list Event :=
  [EvSample idxs; EvUpdateBegin; EvQStep; EvPiStep; EvPolyak].

(** Events of [update] and of the sampling that feeds it. *)
Definition is_update_event (e : Event) : bool :=
  match e with
  | EvSample _ | EvUpdateBegin | EvQStep | EvPiStep | EvPolyak => true
  | _ => false
  end.

Definition is_update_begin (e : Event) : bool :=
  match e with EvUpdateBegin => true | _ => false end.

Definition is_env_step (e : Event) : bool :=
  match e with EvEnvStep _ => true | _ => false end.

(** The events that record how an action was chosen. *)
Definition is_action_event (e : Event) : bool :=
  match e with EvRandomAction _ | EvPolicyAction _ => true | _ => false end.

Definition action_events (tr : list Event) : list Event :=
  List.filter is_action_event tr.

(** Events of the end of epoch handling that bear on the best checkpoint. *)
Definition is_best_event (e : Event) : bool :=
  match e with EvEpochStats _ _ | EvSaveModel _ _ => true | _ => false end.

Definition count_events (p : Event -> bool) (tr : list Event) : nat :=
  length (List.filter p tr).

(** The per-epoch mean returns of a trace, in order. *)
Fixpoint epoch_avgs (tr : list Event) : list Qc :=
  match tr with
  | [] => []
  | EvEpochStats _ avg :: rest => avg :: epoch_avgs rest
  | _ :: rest => epoch_avgs rest
  end.

(** The epochs at which [save_model] ran, in order. *)
Fixpoint saved_epochs (tr : list Event) : list Z :=
  match tr with
  | [] => []
  | EvSaveModel epoch _ :: rest => epoch :: saved_epochs rest
  | _ :: rest => saved_epochs rest
  end.

(** *** External collaborators *)

(** The environment (Gym API): [reset], [step], the action space
    ([sample], [high], [shape[0]]) and the total observation dimension. *)
Class GymEnv := {
  Env : Type;
  env_reset : Env -> Vec * Env;
  env_step : Vec -> Env -> (Vec * Qc * bool) * Env;
  action_space_sample : Env -> Vec * Env;
  action_space_high : Env -> list Qc;
  action_space_shape0 : Env -> Z;
  observation_dim : Env -> Z
}.

(** The environment hands out observations of [od] components and samples
    actions of [ad] components. *)
Definition env_shaped `{GymEnv} (od ad : nat) : Prop :=
  (forall e, length (env_reset e).1 = od) /\
  (forall a e, length (env_step a e).1.1.1 = od) /\
  (forall e, length (action_space_sample e).1 = ad).

(** The actor-critic networks and their optimizers.  The parameters are the
    flat sequence that [parameters()] enumerates; [ac_act params o] is
    [ac.act(o)].  [q_optimizer_step data live targ st] is [zero_grad],
    [compute_loss_q], [backward], [step]; [pi_optimizer_step] likewise for
    the policy loss.  Both return the live parameters after the step, the
    optimizer state and what is logged. *)
Class ActorCritic := {
  ac_act : list Qc -> Vec -> Vec;
  OptState : Type;
  LossInfo : Type;
  q_optimizer_step :
    Batch -> list Qc -> list Qc -> OptState -> list Qc * OptState * LossInfo;
  pi_optimizer_step :
    Batch -> list Qc -> OptState -> list Qc * OptState * LossInfo
}.

(** The logger: a sink, the mean of the episode returns it holds, and the
    name [f'ckpt_{epoch}_{key:.2f}.pth'] of a checkpoint file. *)
Class EpochLogger `{GymEnv} `{ActorCritic} := {
  Logger : Type;
  logger_store_losses : LossInfo -> LossInfo -> Logger -> Logger;
  logger_store_episode : Qc -> Z -> Logger -> Logger;
  logger_store_eval_episode : Qc -> Z -> Logger -> Logger;
  logger_save_state : Env -> Logger -> Logger;
  logger_episode_return_mean : Logger -> Qc;
  logger_log_epoch : Z -> Z -> Logger -> Logger;
  ckpt_file_name : Z -> Qc -> string
}.

Section Program.

Context `{EpochLogger}.

(** *** State *)

(** The bundle [save_model] writes with [torch.save]. *)
Record Checkpoint := {
  ck_epoch : Z;
  model_state_dict : list Qc;
  pi_optimizer_state_dict : OptState;
  q_optimizer_state_dict : OptState
}.

Record World := {
  env : Env;
  test_env : Env;
  rng : RandomState;
  replay_buffer : ReplayBuffer;
  ac : list Qc;                      (* live parameters *)
  ac_targ : list Qc;                 (* target parameters *)
  pi_optimizer : OptState;
  q_optimizer : OptState;
  logger : Logger;
  files : gmap string Checkpoint;    (* checkpoint files on disk *)
  trace : list Event
}.

Definition set_env (x : Env) (w : World) : World :=
  {| env := x; test_env := test_env w; rng := rng w;
     replay_buffer := replay_buffer w; ac := ac w; ac_targ := ac_targ w;
     pi_optimizer := pi_optimizer w; q_optimizer := q_optimizer w;
     logger := logger w; files := files w; trace := trace w |}.

Definition set_test_env (x : Env) (w : World) : World :=
  {| env := env w; test_env := x; rng := rng w;
     replay_buffer := replay_buffer w; ac := ac w; ac_targ := ac_targ w;
     pi_optimizer := pi_optimizer w; q_optimizer := q_optimizer w;
     logger := logger w; files := files w; trace := trace w |}.

Definition set_rng (x : RandomState) (w : World) : World :=
  {| env := env w; test_env := test_env w; rng := x;
     replay_buffer := replay_buffer w; ac := ac w; ac_targ := ac_targ w;
     pi_optimizer := pi_optimizer w; q_optimizer := q_optimizer w;
     logger := logger w; files := files w; trace := trace w |}.

Definition set_replay_buffer (x : ReplayBuffer) (w : World) : World :=
  {| env := env w; test_env := test_env w; rng := rng w;
     replay_buffer := x; ac := ac w; ac_targ := ac_targ w;
     pi_optimizer := pi_optimizer w; q_optimizer := q_optimizer w;
     logger := logger w; files := files w; trace := trace w |}.

Definition set_logger (x : Logger) (w : World) : World :=
  {| env := env w; test_env := test_env w; rng := rng w;
     replay_buffer := replay_buffer w; ac := ac w; ac_targ := ac_targ w;
     pi_optimizer := pi_optimizer w; q_optimizer := q_optimizer w;
     logger := x; files := files w; trace := trace w |}.

Definition set_files (x : gmap string Checkpoint) (w : World) : World :=
  {| env := env w; test_env := test_env w; rng := rng w;
     replay_buffer := replay_buffer w; ac := ac w; ac_targ := ac_targ w;
     pi_optimizer := pi_optimizer w; q_optimizer := q_optimizer w;
     logger := logger w; files := x; trace := trace w |}.

(** The four components the optimizers and [load_state_dict] write. *)
Definition set_learner (live targ : list Qc) (po qo : OptState) (w : World) : World :=
  {| env := env w; test_env := test_env w; rng := rng w;
     replay_buffer := replay_buffer w; ac := live; ac_targ := targ;
     pi_optimizer := po; q_optimizer := qo;
     logger := logger w; files := files w; trace := trace w |}.

Definition emit (e : Event) (w : World) : World :=
  {| env := env w; test_env := test_env w; rng := rng w;
     replay_buffer := replay_buffer w; ac := ac w; ac_targ := ac_targ w;
     pi_optimizer := pi_optimizer w; q_optimizer := q_optimizer w;
     logger := logger w; files := files w; trace := trace w ++ [e] |}.

(** *** The closures of [ddpg] *)

Section Closures.

Variable cfg : Config.
Variable act_dim : Z.
Variable act_limit : Qc.

(** [update(data)]; freezing and unfreezing the critic's parameters around
    the policy step changes no value and is part of [pi_optimizer_step]. *)
Definition update (data : Batch) (w : World) : World :=
  let w := emit EvUpdateBegin w in
  (* First run one gradient descent step for Q. *)
  let '(live1, qo, loss_q) :=
    q_optimizer_step data (ac w) (ac_targ w) (q_optimizer w) in
  let w := emit EvQStep (set_learner live1 (ac_targ w) (pi_optimizer w) qo w) in
  (* Next run one gradient descent step for pi. *)
  let '(live2, po, loss_pi) := pi_optimizer_step data (ac w) (pi_optimizer w) in
  let w := emit EvPiStep (set_learner live2 (ac_targ w) po (q_optimizer w) w) in
  (* Record things *)
  let w := set_logger (logger_store_losses loss_q loss_pi (logger w)) w in
  (* Finally, update target networks by polyak averaging. *)
  emit EvPolyak
    (set_learner (ac w) (polyak_average (polyak cfg) (ac w) (ac_targ w))
       (pi_optimizer w) (q_optimizer w) w).

(** [get_action(o, noise_scale)] *)
Definition get_action (o : Vec) (noise_scale : Qc) (w : World) : Result (Vec * World) :=
  let a := ac_act (ac w) o in
  '(noise, rs) ← randn act_dim (rng w);
  a ← np_iadd a (map (Qcmult noise_scale) noise);
  Ok (np_clip a 0%Qc act_limit, set_rng rs w).

(** One episode of [test_agent]: the [while] loop, with [fuel] bounding
    the number of iterations of the model. *)
Fixpoint test_episode (fuel : nat) (o : Vec) (d : bool) (ep_ret : Qc) (ep_len : Z)
    (w : World) : Result World :=
  if negb (d || (ep_len =? max_ep_len cfg)) then
    match fuel with
    | O => Raise OutOfFuel
    | S fuel' =>
        '(a, w) ← get_action o 0%Qc w;
        let '(o2, r, d2, e) := env_step a (test_env w) in
        let w := emit EvTestStep (set_test_env e w) in
        test_episode fuel' o2 d2 (ep_ret + r)%Qc (ep_len + 1) w
    end
  else
    Ok (set_logger (logger_store_eval_episode ep_ret ep_len (logger w)) w).

(** [test_agent()] *)
Definition test_agent (fuel : nat) (w : World) : Result World :=
  for_each
    (fun _ w =>
       let '(o, e) := env_reset (test_env w) in
       test_episode fuel o false 0%Qc 0 (set_test_env e w))
    (py_range (num_test_episodes cfg)) w.

(** [save_model(epoch, key)] *)
Definition save_model (epoch : Z) (key : Qc) (w : World) : World :=
  let savepath :=
    path_join (path_join (output_dir cfg) "checkpoints") (ckpt_file_name epoch key) in
  let bundle :=
    {| ck_epoch := epoch;
       model_state_dict := ac w;
       pi_optimizer_state_dict := pi_optimizer w;
       q_optimizer_state_dict := q_optimizer w |} in
  emit (EvSaveModel epoch key) (set_files (<[savepath := bundle]> (files w)) w).

(** The local variables of the main loop. *)
Record Locals := {
  o : Vec;
  ep_ret : Qc;
  ep_len : Z;
  prev_best : option Qc
}.

(** Action selection (lines 317-323). *)
Definition select_action (t : Z) (l : Locals) (w : World) : Result (Vec * World) :=
  if start_steps cfg <? t then
    get_action (o l) (act_noise cfg) (emit (EvPolicyAction t) w)
  else
    let '(a, e) := action_space_sample (env w) in
    Ok (a, set_env e (emit (EvRandomAction t) w)).

(** [d = False if ep_len==max_ep_len else d] *)
Definition correct_done (ep_len : Z) (d : bool) : bool :=
  if ep_len =? max_ep_len cfg then false else d.

(** Stepping the environment, storing the transition and the end of
    trajectory handling (lines 325-350). *)
Definition interact (t : Z) (a : Vec) (l : Locals) (w : World) : Result (Locals * World) :=
  let '(o2, r, d, e) := env_step a (env w) in
  let w := emit (EvEnvStep t) (set_env e w) in
  let ep_ret' := (ep_ret l + r)%Qc in
  let ep_len' := ep_len l + 1 in
  let d := correct_done ep_len' d in
  let tr := {| t_obs := o l; t_act := a; t_rew := r; t_obs2 := o2; t_done := d |} in
  buf ← store tr (replay_buffer w);
  let w := emit (EvStore t tr) (set_replay_buffer buf w) in
  if d || (ep_len' =? max_ep_len cfg) then
    let w := set_logger (logger_store_episode ep_ret' ep_len' (logger w)) w in
    let '(o0, e) := env_reset (env w) in
    Ok ({| o := o0; ep_ret := 0%Qc; ep_len := 0; prev_best := prev_best l |},
        emit (EvEpisodeEnd t) (set_env e w))
  else
    Ok ({| o := o2; ep_ret := ep_ret'; ep_len := ep_len'; prev_best := prev_best l |}, w).

(** One iteration of the update burst: sample a batch, update. *)
Definition sample_and_update (w : World) : Result World :=
  '(idxs, batch, rs) ← sample_batch_idxs (batch_size cfg) (replay_buffer w) (rng w);
  Ok (update batch (emit (EvSample idxs) (set_rng rs w))).

(** Whether step [t] is an update step:
    [t >= update_after and t % update_every == 0]. *)
Definition update_due (t : Z) : bool :=
  (update_after cfg <=? t) && (t mod update_every cfg =? 0).

(** The event that records how the action of step [t] is chosen. *)
Definition action_event (t : Z) : Event :=
  if start_steps cfg <? t then EvPolicyAction t else EvRandomAction t.

(** Update handling (lines 352-356); [and] evaluates its right operand
    only when the left one holds. *)
Definition update_handling (t : Z) (w : World) : Result World :=
  if update_after cfg <=? t then
    m ← py_mod t (update_every cfg);
    if m =? 0 then
      for_each (fun _ w => sample_and_update w) (py_range (update_every cfg)) w
    else Ok w
  else Ok w.

(** End of epoch handling (lines 358-387). *)
Definition epoch_handling (fuel : nat) (t : Z) (l : Locals) (w : World)
  : Result (Locals * World) :=
  m ← py_mod (t + 1) (steps_per_epoch cfg);
  if m =? 0 then
    epoch ← py_floordiv (t + 1) (steps_per_epoch cfg);
    (* Save model *)
    ms ← py_mod epoch (save_freq cfg);
    let w :=
      if (ms =? 0) || (epoch =? epochs cfg)
      then emit (EvSaveState epoch) (set_logger (logger_save_state (env w) (logger w)) w)
      else w in
    (* Test the performance of the deterministic version of the agent. *)
    w ← test_agent fuel w;
    let avg_episode_ret := logger_episode_return_mean (logger w) in
    (* Log info about epoch *)
    let w :=
      emit (EvEpochStats epoch avg_episode_ret)
        (set_logger (logger_log_epoch epoch t (logger w)) w) in
    let w :=
      if exceeds_best avg_episode_ret (prev_best l)
      then save_model epoch avg_episode_ret w
      else w in
    Ok ({| o := o l; ep_ret := ep_ret l; ep_len := ep_len l;
           prev_best := max_best (prev_best l) avg_episode_ret |}, w)
  else Ok (l, w).

(** The body of [for t in range(total_steps)]. *)
Definition loop_body (fuel : nat) (t : Z) (s : Locals * World) : Result (Locals * World) :=
  let '(l, w) := s in
  '(a, w) ← select_action t l w;
  '(l, w) ← interact t a l w;
  w ← update_handling t w;
  epoch_handling fuel t l w.

(** The [mode == 'train'] branch. *)
Definition train (fuel : nat) (w : World) : Result (Locals * World) :=
  let total_steps := steps_per_epoch cfg * epochs cfg in
  let '(o0, e) := env_reset (env w) in
  let l := {| o := o0; ep_ret := 0%Qc; ep_len := 0; prev_best := None |} in
  for_each (loop_body fuel) (py_range total_steps) (l, set_env e w).

End Closures.

(** *** Checkpoint loading (lines 195-204) *)

(** [torch.load(chkpt_file)] *)
Definition torch_load (path : string) (w : World) : Result Checkpoint :=
  match files w !! path with
  | Some c => Ok c
  | None => Raise FileNotFoundError
  end.

(** [os.path.join(logger_kwargs['output_dir'], 'checkpoints',
    'ckpt_1_-183.19.pth')] *)
Definition chkpt_file (cfg : Config) : string :=
  path_join (path_join (output_dir cfg) "checkpoints") "ckpt_1_-183.19.pth".

Definition load_checkpoint (cfg : Config) (w : World) : Result World :=
  checkpoint ← torch_load (chkpt_file cfg) w;
  let w := emit (EvLoadCheckpoint (chkpt_file cfg)) w in
  (* ac.load_state_dict, ac_targ.load_state_dict, then the two optimizers *)
  Ok (set_learner (model_state_dict checkpoint) (model_state_dict checkpoint)
        (pi_optimizer_state_dict checkpoint) (q_optimizer_state_dict checkpoint) w).

(** *** [ddpg] *)

(** What [ddpg] is started with: the two environments [env_fn] makes, the
    freshly constructed networks and optimizer states, the logger, the
    random state and the files on disk. *)
Record Start := {
  s_env : Env;
  s_test_env : Env;
  s_params : list Qc;
  s_pi_opt : OptState;
  s_q_opt : OptState;
  s_logger : Logger;
  s_rng : RandomState;
  s_files : gmap string Checkpoint
}.

(** [act_limit = env.action_space['action'].high[0]].
    Action limit for clamping: critically, assumes all dimensions share
    the same bound! *)
Definition act_limit_of (e : Env) : Result Qc :=
  np_getitem (action_space_high e) 0.

(** The [replay_buffer] argument before the buffer is created ([None]: the
    buffer is the [ReplayBuffer] of this file). *)
Definition no_buffer : ReplayBuffer :=
  {| obs_buf := []; obs2_buf := []; act_buf := []; rew_buf := [];
     done_buf := []; ptr := 0; size := 0; max_size := 0 |}.

(** The state once the networks and optimizers exist:
    [ac_targ = deepcopy(ac)]. *)
Definition initial_world (s : Start) : World :=
  {| env := s_env s; test_env := s_test_env s; rng := s_rng s;
     replay_buffer := no_buffer;
     ac := s_params s; ac_targ := s_params s;
     pi_optimizer := s_pi_opt s; q_optimizer := s_q_opt s;
     logger := s_logger s; files := s_files s; trace := [] |}.

(** [exp_name = output_dir.split('/')[1]] *)
Definition exp_name_of (cfg : Config) : Result string :=
  np_getitem (split_slash (output_dir cfg)) 1.

(** Lines 131-214: logging folders, networks, target copy, checkpoint load
    in eval mode, replay buffer. *)
Definition ddpg_setup (cfg : Config) (s : Start) : Result World :=
  _ ← exp_name_of cfg;
  let obs_dim := observation_dim (s_env s) in
  let act_dim := action_space_shape0 (s_env s) in
  _ ← act_limit_of (s_env s);
  let w := initial_world s in
  (* Load from checkpoint if eval *)
  w ← match mode cfg with
       | Eval => load_checkpoint cfg w
       | _ => Ok w
       end;
  (* Experience buffer *)
  buf ← ReplayBuffer_init obs_dim act_dim (replay_size cfg);
  Ok (set_replay_buffer buf w).

Definition ddpg (cfg : Config) (fuel : nat) (s : Start) : Result World :=
  w ← ddpg_setup cfg s;
  let act_dim := action_space_shape0 (s_env s) in
  act_limit ← act_limit_of (s_env s);
  match mode cfg with
  | Train => '(_, w) ← train cfg act_dim act_limit fuel w; Ok w
  | Eval => test_agent cfg act_dim act_limit fuel w
  | OtherMode => Ok w
  end.

End Program.


(** ** Small concrete inputs

    Used to run the definitions and to instantiate the theorems. *)

Definition toy_tr (k : Z) (d : bool) : Transition :=
  {| t_obs := [Q2Qc (inject_Z k)]; t_act := [0%Qc; 1%Qc]; t_rew := 1%Qc;
     t_obs2 := [Q2Qc (inject_Z (k + 1))]; t_done := d |}.

Definition toy_b0 : ReplayBuffer :=
  {| obs_buf := [[0%Qc]; [0%Qc]]; obs2_buf := [[0%Qc]; [0%Qc]];
     act_buf := [[0%Qc; 0%Qc]; [0%Qc; 0%Qc]]; rew_buf := [0%Qc; 0%Qc];
     done_buf := [0%Qc; 0%Qc]; ptr := 0; size := 0; max_size := 2 |}.

(** The random state whose next words are [idxs]. *)
Definition rs_of_words (idxs : list Z) : RandomState :=
  {| rs_words := fun j => nth j idxs 0; rs_normals := fun _ => 0%Qc; rs_pos := 0 |}.

(** A two-dimensional action space with bounds [high = [2, 1]]; every
    episode of the environment ends after one step. *)
Definition toy_env : GymEnv :=
  {| Env := nat;
     env_reset := fun e => ([0%Qc], e);
     env_step := fun _ e => (([1%Qc], 1%Qc, true), S e);
     action_space_sample := fun e => ([1%Qc; 1%Qc], e);
     action_space_high := fun _ => [Q2Qc 2; 1%Qc];
     action_space_shape0 := fun _ => 2;
     observation_dim := fun _ => 1 |}.

(** An actor that always proposes [[-3, 5]]; optimizers that shift the
    parameters by one. *)
Definition toy_ac : ActorCritic :=
  {| ac_act := fun _ _ => [Q2Qc (-3); Q2Qc 5];
     OptState := unit;
     LossInfo := unit;
     q_optimizer_step := fun _ live _ st => (map (fun p => (p + 1)%Qc) live, st, tt);
     pi_optimizer_step := fun _ live st => (map (fun p => (p + 1)%Qc) live, st, tt) |}.

(** A logger that keeps the episode returns of the current epoch. *)
Definition toy_logger : @EpochLogger toy_env toy_ac :=
  {| Logger := list Qc;
     logger_store_losses := fun _ _ l => l;
     logger_store_episode := fun ret _ l => l ++ [ret];
     logger_store_eval_episode := fun _ _ l => l;
     logger_save_state := fun _ l => l;
     logger_episode_return_mean := fun l =>
       (foldr Qcplus 0%Qc l / Q2Qc (inject_Z (Z.of_nat (length l))))%Qc;
     logger_log_epoch := fun _ _ _ => [];
     ckpt_file_name := fun _ _ => "ckpt.pth" |}.

Definition toy_world (b : ReplayBuffer) (rs : RandomState) : @World toy_env toy_ac toy_logger :=
  @Build_World toy_env toy_ac toy_logger
    0%nat 0%nat rs b [1%Qc] [0%Qc] tt tt [] ∅ [].

(** Successive [update] calls, one per batch. *)
Definition updates `{EpochLogger} (cfg : Config) (datas : list Batch) (w : World) : World :=
  fold_left (fun w data => update cfg data w) datas w.

Definition toy_cfg : Config :=
  {| mode := Train; steps_per_epoch := 2; epochs := 2; replay_size := 2;
     polyak := 1%Qc; batch_size := 2; start_steps := 1; update_after := 1;
     update_every := 2; act_noise := 1%Qc; num_test_episodes := 1;
     max_ep_len := 1; save_freq := 1; output_dir := "data/out" |}.

Definition toy_batch : Batch :=
  {| b_obs := [[0%Qc]]; b_obs2 := [[1%Qc]]; b_act := [[0%Qc; 0%Qc]];
     b_rew := [1%Qc]; b_done := [0%Qc] |}.





Definition toy_start : @Start toy_env toy_ac toy_logger :=
  @Build_Start toy_env toy_ac toy_logger
    0%nat 0%nat [1%Qc] tt tt [] (rs_of_words []) ∅.

(** The local variables at the start of an episode. *)
Definition toy_locals : Locals :=
  {| o := [0%Qc]; ep_ret := 0%Qc; ep_len := 0; prev_best := None |}.

(** A checkpoint bundle, and a disk that holds it where eval mode looks. *)
Definition toy_eval_cfg : Config :=
  {| mode := Eval; steps_per_epoch := 2; epochs := 2; replay_size := 2;
     polyak := 1%Qc; batch_size := 2; start_steps := 1; update_after := 1;
     update_every := 2; act_noise := 1%Qc; num_test_episodes := 1;
     max_ep_len := 1; save_freq := 1; output_dir := "data/out" |}.

Definition toy_checkpoint : @Checkpoint toy_ac :=
  @Build_Checkpoint toy_ac 1 [Q2Qc 7] tt tt.

Definition toy_disk_world : @World toy_env toy_ac toy_logger :=
  set_files {[ "data/out/checkpoints/ckpt_1_-183.19.pth" := toy_checkpoint ]}
    (toy_world toy_b0 (rs_of_words [])).

(** ** Further inputs and predicates *)

(** Whether numpy accepts the assignment of a one-dimensional [v] to a row
    of [d] components: the same length, or one element (broadcast). *)
Definition row_assignable (d : nat) (v : Vec) : bool :=
  (length v =? d)%nat || (length v =? 1)%nat.

(** The row that [arr[i] = v] leaves in a row of [d] components. *)
Definition np_broadcast (d : nat) (v : Vec) : Vec :=
  if (length v =? d)%nat then v else replicate d (hd 0%Qc v).

(** A transition whose observation has three components. *)
Definition wide_tr : Transition :=
  {| t_obs := [0%Qc; 0%Qc; 0%Qc]; t_act := [0%Qc; 1%Qc]; t_rew := 1%Qc;
     t_obs2 := [1%Qc]; t_done := false |}.

(** The learner: the live and the target parameters and the two optimizer
    states. *)
Definition learner `{EpochLogger} (w : World)
  : list Qc * list Qc * OptState * OptState :=
  (ac w, ac_targ w, pi_optimizer w, q_optimizer w).

(** What evaluation has no business touching: the training environment,
    the replay buffer, the learner and the checkpoint files. *)
Definition training_state `{EpochLogger} (w : World) :=
  (env w, replay_buffer w, learner w, files w).

(** The number of ['/'] in a string. *)
Fixpoint count_slashes (s : string) : nat :=
  match s with
  | EmptyString => 0
  | String c rest => (if is_slash c then 1 else 0) + count_slashes rest
  end.

(** A start whose disk holds [toy_checkpoint] where eval mode looks. *)
Definition toy_eval_start : @Start toy_env toy_ac toy_logger :=
  @Build_Start toy_env toy_ac toy_logger
    0%nat 0%nat [1%Qc] tt tt [] (rs_of_words [])
    {[ "data/out/checkpoints/ckpt_1_-183.19.pth" := toy_checkpoint ]}.

(** A configuration whose output directory has no ['/']. *)
Definition flat_dir_cfg : Config :=
  {| mode := Train; steps_per_epoch := 2; epochs := 2; replay_size := 2;
     polyak := 1%Qc; batch_size := 2; start_steps := 1; update_after := 1;
     update_every := 2; act_noise := 1%Qc; num_test_episodes := 1;
     max_ep_len := 1; save_freq := 1; output_dir := "results" |}.

Definition is_episode_end (e : Event) : bool :=
  match e with EvEpisodeEnd _ => true | _ => false end.

(** The transitions handed to [replay_buffer.store], each with the step at
    which it was stored, in order. *)
Fixpoint store_log (tr : list Event) : list (Z * Transition) :=
  match tr with
  | [] => []
  | EvStore t x :: rest => (t, x) :: store_log rest
  | _ :: rest => store_log rest
  end.

(** The epochs at which [logger.save_state] ran, in order. *)
Fixpoint state_saves (tr : list Event) : list Z :=
  match tr with
  | [] => []
  | EvSaveState epoch :: rest => epoch :: state_saves rest
  | _ :: rest => state_saves rest
  end.

(** [(epoch % save_freq == 0) or (epoch == epochs)] for a non-zero
    [save_freq]. *)
Definition state_save_due (cfg : Config) (epoch : Z) : bool :=
  (epoch mod save_freq cfg =? 0) || (epoch =? epochs cfg).

(** What the interaction part of step [t] records: how the action was
    chosen, the environment step, the store, and the end of the episode if
    it ended. *)
Definition step_events (cfg : Config) (t : Z) (tr : Transition) (ended : bool)
  : list Event :=
  [action_event cfg t; EvEnvStep t; EvStore t tr] ++
  (if ended then [EvEpisodeEnd t] else []).

(** What the end of epoch [epoch] records: the state save when it is due,
    [k] test steps, the epoch's statistics and the checkpoint when the mean
    return [avg] is the best so far. *)
Definition epoch_events (cfg : Config) (epoch : Z) (k : nat) (avg : Qc) (best : bool)
  : list Event :=
  (if state_save_due cfg epoch then [EvSaveState epoch] else []) ++
  replicate k EvTestStep ++ [EvEpochStats epoch avg] ++
  (if best then [EvSaveModel epoch avg] else []).

(** A run that never reaches [update_after]. *)
Definition warmup_cfg : Config :=
  {| mode := Train; steps_per_epoch := 2; epochs := 2; replay_size := 2;
     polyak := 1%Qc; batch_size := 2; start_steps := 1; update_after := 4;
     update_every := 2; act_noise := 1%Qc; num_test_episodes := 1;
     max_ep_len := 1; save_freq := 1; output_dir := "data/out" |}.

(** Configurations with a zero where the code divides or allocates. *)
Definition zero_update_every_cfg : Config :=
  {| mode := Train; steps_per_epoch := 2; epochs := 2; replay_size := 2;
     polyak := 1%Qc; batch_size := 2; start_steps := 1; update_after := 1;
     update_every := 0; act_noise := 1%Qc; num_test_episodes := 1;
     max_ep_len := 1; save_freq := 1; output_dir := "data/out" |}.

(** ** The loss functions (lines 220-243) *)

(** The forward passes of the networks, as functions of the parameters:
    [net_q params o a] is [q(o, a)] of the module holding [params], one
    value per row of the batch; [net_pi params o] is [pi(o)]. *)
Class Networks := {
  net_q : list Qc -> list Vec -> list Vec -> list Qc;
  net_pi : list Qc -> list Vec -> list Vec
}.

(** Outcome of a tensor expression: a tensor, or the [RuntimeError] torch
    raises when two shapes cannot be broadcast together. *)
Inductive Torch (A : Type) : Type :=
| Tensor (a : A)
| RuntimeError.

Arguments Tensor {A} a.
Arguments RuntimeError {A}.

#[global] Instance Torch_ret : MRet Torch := fun _ a => Tensor a.
#[global] Instance Torch_bind : MBind Torch := fun _ _ f m =>
  match m with
  | Tensor a => f a
  | RuntimeError => RuntimeError
  end.

(** [x op y] elementwise on one-dimensional tensors: the shapes agree, or
    one of the two has a single element, which is broadcast. *)
Definition torch_binop (f : Qc -> Qc -> Qc) (x y : list Qc) : Torch (list Qc) :=
  if (length x =? length y)%nat then Tensor (zip_with f x y)
  else match x, y with
       | [x0], _ => Tensor (map (f x0) y)
       | _, [y0] => Tensor (map (fun xi => f xi y0) x)
       | _, _ => RuntimeError
       end.

(** A zero-dimensional tensor: a finite value, or [nan]. *)
Inductive Scalar : Set :=
| Finite (x : Qc)
| NaN.

(** [x.sum()] *)
Definition torch_sum (x : list Qc) : Qc := foldr Qcplus 0%Qc x.

(** [x.mean()]; the mean of an empty tensor is [nan]. *)
Definition torch_mean (x : list Qc) : Scalar :=
  match x with
  | [] => NaN
  | _ => Finite (torch_sum x / Q2Qc (inject_Z (Z.of_nat (length x))))%Qc
  end.

Definition scalar_neg (s : Scalar) : Scalar :=
  match s with
  | Finite x => Finite (- x)%Qc
  | NaN => NaN
  end.

(** [backup = r + gamma * (1 - d) * q_pi_targ] *)
Definition bellman_backup (gamma : Qc) (data : Batch) (q_pi_targ : list Qc)
  : Torch (list Qc) :=
  let one_minus_d := map (fun di => 1 - di)%Qc (b_done data) in
  let discount := map (Qcmult gamma) one_minus_d in
  bootstrap ← torch_binop Qcmult discount q_pi_targ;
  torch_binop Qcplus (b_rew data) bootstrap.

(** [compute_loss_q(data)], for the live parameters [live] of [ac] and the
    parameters [targ] of [ac_targ]; the second component is [loss_info]. *)
Definition compute_loss_q `{Networks} (gamma : Qc) (live targ : list Qc) (data : Batch)
  : Torch (Scalar * list Qc) :=
  let q := net_q live (b_obs data) (b_act data) in
  (* Bellman backup for Q function *)
  let q_pi_targ := net_q targ (b_obs2 data) (net_pi targ (b_obs2 data)) in
  backup ← bellman_backup gamma data q_pi_targ;
  (* MSE loss against Bellman backup *)
  diff ← torch_binop Qcminus q backup;
  Tensor (torch_mean (map (fun x => x ^ 2)%Qc diff), q).

(** [compute_loss_pi(data)] *)
Definition compute_loss_pi `{Networks} (live : list Qc) (data : Batch) : Scalar :=
  let q_pi := net_q live (b_obs data) (net_pi live (b_obs data)) in
  scalar_neg (torch_mean q_pi).

(** Networks for the small inputs: the critic adds up the observation and
    the action of each row, the actor proposes [[1, 1]]. *)
Definition toy_networks : Networks :=
  {| net_q := fun _ obs act =>
       zip_with (fun o a => (foldr Qcplus 0 o + foldr Qcplus 0 a)%Qc) obs act;
     net_pi := fun _ obs => map (fun _ => [1%Qc; 1%Qc]) obs |}.

(** The steps at which an episode of the training loop ended, in order. *)
Fixpoint episode_ends (tr : list Event) : list Z :=
  match tr with
  | [] => []
  | EvEpisodeEnd t :: rest => t :: episode_ends rest
  | _ :: rest => episode_ends rest
  end.

(** * Theorems *)

(** ** Replay buffer: the ring invariant *)

Section RingInvariant.

Variables (od ad : nat) (C : Z).
Hypothesis C_pos : 0 < C.

Lemma np_index_in_range (n : nat) (i : Z) :
  0 <= i < Z.of_nat n -> np_index n i = Ok (Z.to_nat i).
Proof.
  intros [Hlo Hhi]. unfold np_index.
  apply Z.leb_le in Hlo. apply Z.ltb_lt in Hhi.
  now rewrite Hlo, Hhi.
Qed.

Lemma np_setitem_in_range {A} (arr : list A) (i : Z) (v : A) :
  0 <= i < Z.of_nat (length arr) ->
  np_setitem arr i v = Ok (<[Z.to_nat i := v]> arr).
Proof.
  intros Hi. unfold np_setitem. now rewrite np_index_in_range.
Qed.

Lemma np_setrow_in_range (d : nat) (arr : list (list Qc)) (i : Z) (v : list Qc) :
  0 <= i < Z.of_nat (length arr) ->
  Forall (fun row => length row = d) arr ->
  length v = d ->
  np_setrow arr i v = Ok (<[Z.to_nat i := v]> arr) /\
  Forall (fun row => length row = d) (<[Z.to_nat i := v]> arr).
Proof.
  intros Hi Hrows Hv. unfold np_setrow. rewrite np_index_in_range by assumption.
  cbn [mbind Result_bind].
  destruct (arr !! Z.to_nat i) as [row |] eqn:Hrow.
  - assert (Hlen : length row = d).
    { rewrite Forall_forall in Hrows. apply Hrows.
      eapply list_elem_of_lookup_2; eassumption. }
    rewrite Hlen, Hv, Nat.eqb_refl. split; [reflexivity |].
    apply Forall_insert; assumption.
  - apply lookup_ge_None in Hrow. lia.
Qed.

(** One call to [store] of a well-shaped transition on a well-shaped
    buffer. *)
Lemma store_spec (tr : Transition) (b : ReplayBuffer) :
  buf_wf od ad C b -> 0 <= ptr b < C -> tr_shaped od ad tr ->
  exists b',
    store tr b = Ok b' /\ buf_wf od ad C b' /\
    ptr b' = (ptr b + 1) mod C /\
    size b' = Z.min (size b + 1) C /\
    buf_row b' (Z.to_nat (ptr b)) = Some (row_of tr) /\
    (forall i : nat, i <> Z.to_nat (ptr b) -> buf_row b' i = buf_row b i).
Proof.
  intros (Hm & [H1 R1] & [H2 R2] & [H3 R3] & H4 & H5) Hp (S1 & S2 & S3).
  assert (Hnat : (Z.to_nat (ptr b) < Z.to_nat C)%nat) by lia.
  unfold store.
  destruct (np_setrow_in_range od (obs_buf b) (ptr b) (t_obs tr) ltac:(lia) R1 S1)
    as [-> R1'].
  destruct (np_setrow_in_range od (obs2_buf b) (ptr b) (t_obs2 tr) ltac:(lia) R2 S2)
    as [-> R2'].
  destruct (np_setrow_in_range ad (act_buf b) (ptr b) (t_act tr) ltac:(lia) R3 S3)
    as [-> R3'].
  rewrite !np_setitem_in_range by lia.
  cbn [mbind Result_bind].
  unfold py_mod. rewrite Hm.
  destruct (Z.eqb_spec C 0) as [HC0 | _]; [lia |].
  eexists; split; [reflexivity |].
  unfold buf_wf; cbn [max_size obs_buf obs2_buf act_buf rew_buf done_buf ptr size].
  rewrite !length_insert.
  split; [repeat split; assumption |].
  split; [reflexivity |]. split; [reflexivity |]. split.
  - unfold buf_row; cbn [obs_buf obs2_buf act_buf rew_buf done_buf].
    rewrite !list_lookup_insert_eq by lia. reflexivity.
  - intros i Hi. unfold buf_row; cbn [obs_buf obs2_buf act_buf rew_buf done_buf].
    rewrite !list_lookup_insert_ne by congruence. reflexivity.
Qed.

(** Two distinct positions less than [C] apart never share a slot. *)
Lemma slot_distinct (j n : Z) :
  0 < n - j < C -> j mod C <> n mod C.
Proof.
  intros Hd Heq.
  assert (Hz : (n - j) mod C = 0).
  { rewrite Zminus_mod, Heq, Z.sub_diag. apply Z.mod_0_l. lia. }
  rewrite Z.mod_small in Hz by lia. lia.
Qed.

Lemma ring_inv_store (ts : list Transition) (tr : Transition) (b : ReplayBuffer) :
  ring_inv od ad C ts b -> tr_shaped od ad tr ->
  exists b', store tr b = Ok b' /\ ring_inv od ad C (ts ++ [tr]) b'.
Proof.
  intros (Hwf & Hptr & Hsize & Hrows) Hshape.
  assert (Hp : 0 <= ptr b < C) by (rewrite Hptr; apply Z.mod_pos_bound; lia).
  destruct (store_spec tr b Hwf Hp Hshape)
    as (b' & Hst & Hwf' & Hptr' & Hsize' & Hnew & Hold).
  exists b'. split; [assumption |].
  unfold ring_inv. rewrite length_app. cbn [length].
  replace (Z.of_nat (length ts + 1)) with (Z.of_nat (length ts) + 1) by lia.
  set (n := Z.of_nat (length ts)) in *.
  split; [assumption |]. split.
  { rewrite Hptr', Hptr. rewrite Zplus_mod_idemp_l. reflexivity. }
  split.
  { rewrite Hsize', Hsize. lia. }
  intros j Hj.
  destruct (Z.eq_dec j n) as [-> | Hne].
  - rewrite <- Hptr, Hnew.
    replace (Z.to_nat n) with (length ts) by lia.
    rewrite lookup_app_r by lia. now rewrite Nat.sub_diag.
  - assert (Hslot : j mod C <> n mod C) by (apply slot_distinct; lia).
    rewrite Hold.
    + rewrite Hrows by lia.
      rewrite lookup_app_l by lia. reflexivity.
    + rewrite Hptr. intros Heq. apply Hslot.
      apply Z2Nat.inj in Heq; [assumption | |];
        apply Z.mod_pos_bound; lia.
Qed.

Lemma ring_inv_store_all (trs ts : list Transition) (b : ReplayBuffer) :
  ring_inv od ad C ts b -> Forall (tr_shaped od ad) trs ->
  exists b', store_all trs b = Ok b' /\ ring_inv od ad C (ts ++ trs) b'.
Proof.
  revert ts b. induction trs as [| tr rest IH]; intros ts b Hinv Hshapes.
  - exists b. rewrite app_nil_r. split; [reflexivity | assumption].
  - apply Forall_cons in Hshapes as [Hshape Hshapes].
    destruct (ring_inv_store ts tr b Hinv Hshape) as (b1 & Hst & Hinv1).
    destruct (IH _ _ Hinv1 Hshapes) as (b2 & Hall & Hinv2).
    exists b2. cbn [store_all]. rewrite Hst. cbn [mbind Result_bind].
    split; [assumption |]. now rewrite <- app_assoc in Hinv2.
Qed.

(** Every slot below [size] is the slot of one of the most recent
    transitions. *)
Lemma slot_has_recent (n i : Z) :
  0 <= n -> 0 <= i < Z.min n C ->
  exists j, n - Z.min n C <= j < n /\ j mod C = i.
Proof.
  intros Hn Hi.
  exists (i + ((n - 1 - i) / C) * C).
  pose proof (Z.div_mod (n - 1 - i) C ltac:(lia)) as Hdm.
  pose proof (Z.mod_pos_bound (n - 1 - i) C C_pos) as Hr.
  split.
  - destruct (Z.le_gt_cases n C) as [Hle | Hgt].
    + rewrite Z.div_small by lia. lia.
    + nia.
  - rewrite Z_mod_plus_full. apply Z.mod_small. lia.
Qed.

End RingInvariant.

Lemma zeros_combined_shape_spec (sz dim : Z) (arr : list Vec) :
  zeros_combined_shape sz dim = Ok arr ->
  0 <= sz /\ 0 <= dim /\
  length arr = Z.to_nat sz /\ Forall (fun row => length row = Z.to_nat dim) arr.
Proof.
  unfold zeros_combined_shape, np_zeros.
  destruct (Z.ltb_spec dim 0) as [? | Hd]; [discriminate |].
  cbn [mbind Result_bind].
  destruct (Z.ltb_spec sz 0) as [? | Hs]; [discriminate |].
  intros [= <-]. rewrite length_replicate.
  repeat split; try assumption.
  apply Forall_replicate. apply length_replicate.
Qed.

Lemma ring_inv_init (obs_dim act_dim C : Z) (b0 : ReplayBuffer) :
  0 < C ->
  ReplayBuffer_init obs_dim act_dim C = Ok b0 ->
  ring_inv (Z.to_nat obs_dim) (Z.to_nat act_dim) C [] b0.
Proof.
  intros HC. unfold ReplayBuffer_init.
  destruct (zeros_combined_shape C obs_dim) as [ob |] eqn:Hob; [| discriminate].
  cbn [mbind Result_bind].
  destruct (zeros_combined_shape C act_dim) as [ab |] eqn:Hab; [| discriminate].
  cbn [mbind Result_bind]. unfold np_zeros.
  destruct (Z.ltb_spec C 0) as [? | _]; [lia |].
  cbn [mbind Result_bind]. intros [= <-].
  apply zeros_combined_shape_spec in Hob as (_ & _ & Lo & Ro).
  apply zeros_combined_shape_spec in Hab as (_ & _ & La & Ra).
  unfold ring_inv, buf_wf;
    cbn [length max_size obs_buf obs2_buf act_buf rew_buf done_buf ptr size].
  rewrite !length_replicate. rewrite Z.mod_0_l by lia.
  repeat split; try assumption; try reflexivity; lia.
Qed.

(** C1. After [n] calls to [store] (of transitions with the buffer's
    dimensions) on a buffer created with capacity [C > 0]:
    the calls all return, [size = min n C], [ptr = n mod C], every one of the
    most recent [min n C] transitions sits (as an aligned row) in slot
    [j mod C], which lies below [size], and every slot below [size] holds one
    of them; so a transition is overwritten exactly by the one stored [C]
    calls later, oldest first. *)
Theorem replay_ring_invariant
    (obs_dim act_dim C : Z) (b0 : ReplayBuffer) (trs : list Transition) :
  0 < C ->
  ReplayBuffer_init obs_dim act_dim C = Ok b0 ->
  Forall (tr_shaped (Z.to_nat obs_dim) (Z.to_nat act_dim)) trs ->
  let n := Z.of_nat (length trs) in
  exists b,
    store_all trs b0 = Ok b /\
    size b = Z.min n C /\
    ptr b = n mod C /\
    (forall j : Z, n - Z.min n C <= j < n ->
       0 <= j mod C < size b /\
       buf_row b (Z.to_nat (j mod C)) = row_of <$> trs !! Z.to_nat j) /\
    (forall i : Z, 0 <= i < size b ->
       exists j, n - Z.min n C <= j < n /\ j mod C = i).
Proof.
  intros HC Hinit Hshapes n.
  pose proof (ring_inv_init obs_dim act_dim C b0 HC Hinit) as Hinv0.
  destruct (ring_inv_store_all _ _ C HC trs [] b0 Hinv0 Hshapes) as (b & Hall & Hinv).
  cbn [app] in Hinv. destruct Hinv as (Hwf & Hptr & Hsize & Hrows).
  fold n in Hptr, Hsize, Hrows.
  exists b. repeat split; try assumption.
  - apply Z.mod_pos_bound; lia.
  - rewrite Hsize.
    destruct (Z.le_gt_cases C n) as [Hge | Hlt].
    + rewrite Z.min_r by lia. apply Z.mod_pos_bound; lia.
    + rewrite Z.min_l in * by lia. rewrite Z.mod_small; lia.
  - now apply Hrows.
  - intros i Hi. rewrite Hsize in Hi. apply slot_has_recent; [assumption | lia | assumption].
Qed.

Lemma replay_ring_invariant_witness :
  0 < 2 /\
  ReplayBuffer_init 1 2 2 = Ok toy_b0 /\
  Forall (tr_shaped 1 2) [toy_tr 0 false; toy_tr 1 false; toy_tr 2 true] /\
  exists b,
    store_all [toy_tr 0 false; toy_tr 1 false; toy_tr 2 true] toy_b0 = Ok b /\
    size b = Z.min 3 2 /\
    ptr b = 3 mod 2 /\
    (forall j : Z, 3 - Z.min 3 2 <= j < 3 ->
       0 <= j mod 2 < size b /\
       buf_row b (Z.to_nat (j mod 2)) =
         row_of <$> [toy_tr 0 false; toy_tr 1 false; toy_tr 2 true] !! Z.to_nat j) /\
    (forall i : Z, 0 <= i < size b -> exists j, 3 - Z.min 3 2 <= j < 3 /\ j mod 2 = i).
Proof.
  assert (Hshapes : Forall (tr_shaped 1 2) [toy_tr 0 false; toy_tr 1 false; toy_tr 2 true])
    by (repeat constructor).
  split; [lia |]. split; [reflexivity |]. split; [exact Hshapes |].
  apply (replay_ring_invariant 1 2 2 toy_b0 [toy_tr 0 false; toy_tr 1 false; toy_tr 2 true]);
    [lia | reflexivity | exact Hshapes].
Defined.

(** ** Replay buffer: sampling *)

Lemma np_getitem_in_range {A} (arr : list A) (i : Z) :
  0 <= i < Z.of_nat (length arr) ->
  exists v, np_getitem arr i = Ok v /\ arr !! Z.to_nat i = Some v.
Proof.
  intros Hi. unfold np_getitem. rewrite np_index_in_range by assumption.
  cbn [mbind Result_bind].
  destruct (arr !! Z.to_nat i) as [v |] eqn:Hv.
  - now exists v.
  - apply lookup_ge_None in Hv. lia.
Qed.

Lemma np_take_in_range {A} (arr : list A) (idxs : list Z) :
  Forall (fun i => 0 <= i < Z.of_nat (length arr)) idxs ->
  exists vs,
    np_take arr idxs = Ok vs /\
    length vs = length idxs /\
    forall (k : nat) (i : Z), idxs !! k = Some i -> vs !! k = arr !! Z.to_nat i.
Proof.
  induction 1 as [| i rest Hi _ IH].
  - exists []. split; [reflexivity |]. split; [reflexivity |].
    intros k i. rewrite lookup_nil. discriminate.
  - destruct IH as (vs & Htake & Hlen & Hrows).
    destruct (np_getitem_in_range arr i Hi) as (v & Hget & Hv).
    exists (v :: vs). cbn [np_take]. rewrite Hget, Htake. cbn [mbind Result_bind].
    split; [reflexivity |]. split; [cbn [length]; lia |].
    intros [| k] j Hj; cbn in Hj |- *.
    + injection Hj as <-. now rewrite Hv.
    + now apply Hrows.
Qed.

Lemma randint_spec (low high n : Z) (rs : RandomState) :
  0 <= n -> low < high ->
  exists idxs,
    randint low high n rs = Ok (idxs, rs_advance (Z.to_nat n) rs) /\
    length idxs = Z.to_nat n /\
    Forall (fun i => low <= i < high) idxs.
Proof.
  intros Hn Hlh. unfold randint.
  destruct (Z.ltb_spec n 0) as [? | _]; [lia |].
  destruct (Z.leb_spec high low) as [? | _]; [lia |]. cbn [andb].
  eexists; split; [reflexivity |]. split.
  - now rewrite length_map, length_seq.
  - apply Forall_forall. intros i Hin. apply list_elem_of_In in Hin.
    apply in_map_iff in Hin as (j & <- & _).
    pose proof (Z.mod_pos_bound (rs_words rs (rs_pos rs + j)%nat) (high - low)).
    lia.
Qed.

Lemma randint_empty_range (low high n : Z) (rs : RandomState) :
  high <= low -> n <> 0 -> randint low high n rs = Raise ValueError.
Proof.
  intros Hle Hn. unfold randint.
  destruct (n <? 0); [reflexivity |].
  destruct (Z.leb_spec high low); [| lia].
  destruct (Z.eqb_spec n 0); [contradiction | reflexivity].
Qed.

(** No sample taken: the empty array, whatever the range. *)
Lemma randint_no_sample (low high : Z) (rs : RandomState) :
  randint low high 0 rs = Ok ([], rs_advance 0 rs).
Proof. unfold randint. cbn. now rewrite andb_false_r. Qed.

Lemma randint_support (high : Z) (idxs : list Z) :
  Forall (fun i => 0 <= i < high) idxs -> 0 < high ->
  randint 0 high (Z.of_nat (length idxs)) (rs_of_words idxs)
  = Ok (idxs, rs_advance (length idxs) (rs_of_words idxs)).
Proof.
  intros Hall Hh. unfold randint.
  destruct (Z.ltb_spec (Z.of_nat (length idxs)) 0) as [? | _]; [lia |].
  destruct (Z.leb_spec high 0) as [? | _]; [lia |]. cbn [andb].
  rewrite Nat2Z.id. do 2 f_equal.
  cbn [rs_of_words rs_words rs_pos]. rewrite Z.sub_0_r.
  apply list_eq. intros k.
  rewrite list_lookup_fmap.
  destruct (idxs !! k) as [i |] eqn:Hk.
  - assert (Hlt : (k < length idxs)%nat) by (apply lookup_lt_is_Some; eauto).
    rewrite lookup_seq_lt by assumption. cbn.
    rewrite (nth_lookup_Some _ _ _ _ Hk).
    rewrite Forall_forall in Hall.
    rewrite Z.mod_small; [reflexivity |].
    apply Hall. eapply list_elem_of_lookup_2; eassumption.
  - apply lookup_ge_None in Hk. rewrite lookup_seq_ge by lia. reflexivity.
Qed.

Lemma gather_spec (od ad : nat) (C : Z) (b : ReplayBuffer) (idxs : list Z) :
  buf_wf od ad C b ->
  Forall (fun i => 0 <= i < C) idxs ->
  exists batch,
    gather b idxs = Ok batch /\
    length (b_obs batch) = length idxs /\
    length (b_obs2 batch) = length idxs /\
    length (b_act batch) = length idxs /\
    length (b_rew batch) = length idxs /\
    length (b_done batch) = length idxs /\
    forall (k : nat) (i : Z), idxs !! k = Some i ->
      batch_row batch k = buf_row b (Z.to_nat i).
Proof.
  intros (_ & [H1 _] & [H2 _] & [H3 _] & H4 & H5) Hall.
  assert (Hr : forall {A} (arr : list A), length arr = Z.to_nat C ->
             Forall (fun i => 0 <= i < Z.of_nat (length arr)) idxs).
  { intros A arr Hl. eapply Forall_impl; [exact Hall |]. cbn. intros i Hi. lia. }
  destruct (np_take_in_range (obs_buf b) idxs (Hr _ _ H1)) as (o & Eo & Lo & Ro).
  destruct (np_take_in_range (obs2_buf b) idxs (Hr _ _ H2)) as (o2 & Eo2 & Lo2 & Ro2).
  destruct (np_take_in_range (act_buf b) idxs (Hr _ _ H3)) as (a & Ea & La & Ra).
  destruct (np_take_in_range (rew_buf b) idxs (Hr _ _ H4)) as (r & Er & Lr & Rr).
  destruct (np_take_in_range (done_buf b) idxs (Hr _ _ H5)) as (d & Ed & Ld & Rd).
  unfold gather. rewrite Eo, Eo2, Ea, Er, Ed. cbn [mbind Result_bind].
  eexists; split; [reflexivity |].
  cbn [b_obs b_obs2 b_act b_rew b_done]. repeat split; try assumption.
  intros k i Hk. unfold batch_row, buf_row. cbn [b_obs b_obs2 b_act b_rew b_done].
  now rewrite (Ro _ _ Hk), (Ro2 _ _ Hk), (Ra _ _ Hk), (Rr _ _ Hk), (Rd _ _ Hk).
Qed.

(** Sampling from a well-shaped buffer with [0 < size <= C]. *)
Lemma sample_batch_idxs_spec (od ad : nat) (C batch_size : Z) (b : ReplayBuffer)
    (rs : RandomState) :
  buf_wf od ad C b -> 0 < size b <= C -> 0 <= batch_size ->
  exists idxs batch,
    sample_batch_idxs batch_size b rs
      = Ok (idxs, batch, rs_advance (Z.to_nat batch_size) rs) /\
    length idxs = Z.to_nat batch_size /\
    Forall (fun i => 0 <= i < size b) idxs /\
    length (b_obs batch) = Z.to_nat batch_size /\
    length (b_obs2 batch) = Z.to_nat batch_size /\
    length (b_act batch) = Z.to_nat batch_size /\
    length (b_rew batch) = Z.to_nat batch_size /\
    length (b_done batch) = Z.to_nat batch_size /\
    forall (k : nat) (i : Z), idxs !! k = Some i ->
      batch_row batch k = buf_row b (Z.to_nat i).
Proof.
  intros Hwf Hsz Hbs.
  destruct (randint_spec 0 (size b) batch_size rs Hbs ltac:(lia)) as (idxs & Hri & Hlen & Hall).
  assert (HallC : Forall (fun i => 0 <= i < C) idxs).
  { eapply Forall_impl; [exact Hall |]. cbn. intros i Hi. lia. }
  destruct (gather_spec od ad C b idxs Hwf HallC)
    as (batch & Hg & L1 & L2 & L3 & L4 & L5 & Hrows).
  exists idxs, batch. unfold sample_batch_idxs. rewrite Hri. cbn [mbind Result_bind].
  rewrite Hg. cbn [mbind Result_bind].
  rewrite <- Hlen. repeat split; try assumption.
Qed.

Lemma reachable_ring_inv (obs_dim act_dim C : Z) (b0 b : ReplayBuffer) (trs : list Transition) :
  0 < C ->
  ReplayBuffer_init obs_dim act_dim C = Ok b0 ->
  Forall (tr_shaped (Z.to_nat obs_dim) (Z.to_nat act_dim)) trs ->
  store_all trs b0 = Ok b ->
  ring_inv (Z.to_nat obs_dim) (Z.to_nat act_dim) C trs b.
Proof.
  intros HC Hinit Hshapes Hall.
  pose proof (ring_inv_init obs_dim act_dim C b0 HC Hinit) as Hinv0.
  destruct (ring_inv_store_all _ _ C HC trs [] b0 Hinv0 Hshapes) as (b' & Hall' & Hinv).
  rewrite Hall in Hall'. injection Hall' as <-. exact Hinv.
Qed.

(** A slot below [size] holds the row of a stored transition. *)
Lemma ring_inv_slot (od ad : nat) (C : Z) (trs : list Transition) (b : ReplayBuffer) (i : Z) :
  0 < C -> ring_inv od ad C trs b -> 0 <= i < size b ->
  exists tr, tr ∈ trs /\ buf_row b (Z.to_nat i) = Some (row_of tr).
Proof.
  intros HC (Hwf & Hptr & Hsize & Hrows) Hi.
  rewrite Hsize in Hi.
  destruct (slot_has_recent C HC (Z.of_nat (length trs)) i ltac:(lia) Hi) as (j & Hj & Hmod).
  specialize (Hrows j Hj). rewrite Hmod in Hrows.
  destruct (trs !! Z.to_nat j) as [tr |] eqn:Htr.
  - exists tr. split; [eapply list_elem_of_lookup_2; eassumption | exact Hrows].
  - apply lookup_ge_None in Htr. lia.
Qed.

(** C4. On a buffer holding [k = size > 0] transitions (stored with the
    buffer's dimensions), [sample_batch] returns
    for every non-negative [batch_size] and every random state: it draws
    [batch_size] indices, all in [[0, k)], and position [p] of each of the five
    returned arrays is the row stored at the [p]-th index, the row of a stored
    transition.  The indices are drawn with replacement: every index vector
    over [[0, k)] (duplicates included) is the draw of some random state.  On
    an empty buffer ([k = 0]) the call raises for every [batch_size] other
    than 0; with [batch_size = 0] no index is drawn, and the call returns an
    empty batch. *)
Theorem sample_batch_domain
    (obs_dim act_dim C batch_size : Z) (b0 b : ReplayBuffer) (trs : list Transition) :
  0 < C ->
  ReplayBuffer_init obs_dim act_dim C = Ok b0 ->
  Forall (tr_shaped (Z.to_nat obs_dim) (Z.to_nat act_dim)) trs ->
  store_all trs b0 = Ok b ->
  (0 < size b -> 0 <= batch_size ->
     (forall rs, exists idxs batch rs',
         sample_batch_idxs batch_size b rs = Ok (idxs, batch, rs') /\
         sample_batch batch_size b rs = Ok (batch, rs') /\
         length idxs = Z.to_nat batch_size /\
         Forall (fun i => 0 <= i < size b) idxs /\
         (length (b_obs batch) = Z.to_nat batch_size /\
          length (b_obs2 batch) = Z.to_nat batch_size /\
          length (b_act batch) = Z.to_nat batch_size /\
          length (b_rew batch) = Z.to_nat batch_size /\
          length (b_done batch) = Z.to_nat batch_size) /\
         forall (p : nat) (i : Z), idxs !! p = Some i ->
           exists tr, tr ∈ trs /\
             batch_row batch p = Some (row_of tr) /\
             buf_row b (Z.to_nat i) = Some (row_of tr)) /\
     (forall idxs, length idxs = Z.to_nat batch_size ->
         Forall (fun i => 0 <= i < size b) idxs ->
         exists rs batch rs',
           sample_batch_idxs batch_size b rs = Ok (idxs, batch, rs'))) /\
  (size b = 0 ->
     (batch_size <> 0 ->
      forall rs, sample_batch batch_size b rs = Raise ValueError) /\
     (batch_size = 0 ->
      forall rs, exists batch rs',
        sample_batch batch_size b rs = Ok (batch, rs') /\
        b_obs batch = [] /\ b_obs2 batch = [] /\ b_act batch = [] /\
        b_rew batch = [] /\ b_done batch = [])).
Proof.
  intros HC Hinit Hshapes Hall.
  pose proof (reachable_ring_inv _ _ _ _ _ _ HC Hinit Hshapes Hall) as Hinv.
  assert (Hwf : buf_wf (Z.to_nat obs_dim) (Z.to_nat act_dim) C b) by apply Hinv.
  assert (Hsz : size b <= C) by (destruct Hinv as (_ & _ & -> & _); lia).
  split.
  - intros Hk Hbs. split.
    + intros rs.
      destruct (sample_batch_idxs_spec _ _ C batch_size b rs Hwf ltac:(lia) Hbs)
        as (idxs & batch & Hs & Hlen & Hrange & L1 & L2 & L3 & L4 & L5 & Hrows).
      exists idxs, batch, (rs_advance (Z.to_nat batch_size) rs).
      split; [exact Hs |]. split.
      { unfold sample_batch. rewrite Hs. reflexivity. }
      split; [exact Hlen |]. split; [exact Hrange |].
      split; [repeat split; assumption |].
      intros p i Hp.
      assert (Hi : 0 <= i < size b).
      { rewrite Forall_forall in Hrange. apply Hrange.
        eapply list_elem_of_lookup_2; eassumption. }
      destruct (ring_inv_slot _ _ C trs b i HC Hinv Hi) as (tr & Hin & Hrow).
      exists tr. split; [exact Hin |]. split; [| exact Hrow].
      rewrite (Hrows p i Hp). exact Hrow.
    + intros idxs Hlen Hrange.
      assert (HallC : Forall (fun i => 0 <= i < C) idxs).
      { eapply Forall_impl; [exact Hrange |]. cbn. intros i Hi. lia. }
      destruct (gather_spec _ _ C b idxs Hwf HallC) as (batch & Hg & _).
      exists (rs_of_words idxs), batch, (rs_advance (length idxs) (rs_of_words idxs)).
      unfold sample_batch_idxs.
      replace batch_size with (Z.of_nat (length idxs)) by lia.
      rewrite (randint_support (size b) idxs Hrange Hk). cbn [mbind Result_bind].
      rewrite Hg. reflexivity.
  - intros Hz. split.
    + intros Hbs rs. unfold sample_batch, sample_batch_idxs.
      rewrite randint_empty_range by lia. reflexivity.
    + intros -> rs. unfold sample_batch, sample_batch_idxs.
      rewrite randint_no_sample. cbn [mbind Result_bind].
      eexists _, _. split; [reflexivity |]. repeat split.
Qed.

Lemma sample_batch_domain_witness :
  0 < 2 /\
  ReplayBuffer_init 1 2 2 = Ok toy_b0 /\
  (exists b1,
     store_all [toy_tr 0 false] toy_b0 = Ok b1 /\
     (exists idxs batch rs',
        sample_batch_idxs 3 b1 (rs_of_words [5; 7; 9]) = Ok (idxs, batch, rs') /\
        sample_batch 3 b1 (rs_of_words [5; 7; 9]) = Ok (batch, rs') /\
        length idxs = 3%nat /\
        Forall (fun i => 0 <= i < size b1) idxs)) /\
  sample_batch 3 toy_b0 (rs_of_words [5; 7; 9]) = Raise ValueError.
Proof.
  split; [lia |]. split; [reflexivity |].
  pose (b1 := match store_all [toy_tr 0 false] toy_b0 with Ok x => x | Raise _ => toy_b0 end).
  assert (Hst : store_all [toy_tr 0 false] toy_b0 = Ok b1) by reflexivity.
  split.
  - exists b1. split; [exact Hst |].
    destruct (sample_batch_domain 1 2 2 3 toy_b0 b1 [toy_tr 0 false]
                ltac:(lia) eq_refl ltac:(repeat constructor) Hst) as [[Hdraw _] _];
      [vm_compute; reflexivity | lia |].
    destruct (Hdraw (rs_of_words [5; 7; 9]))
      as (idxs & batch & rs' & H1 & H2 & H3 & H4 & _).
    exists idxs, batch, rs'. repeat split; assumption.
  - apply (sample_batch_domain 1 2 2 3 toy_b0 toy_b0 [] ltac:(lia) eq_refl
             ltac:(constructor) eq_refl).
    + reflexivity.
    + lia.
Defined.

(** C4 as stated fails at [batch_size = 0]: on the fresh buffer
    ([size = 0]) the call draws no index and returns an empty batch instead
    of failing. *)
Lemma sample_batch_domain_counterexample :
  ReplayBuffer_init 1 2 2 = Ok toy_b0 /\
  size toy_b0 = 0 /\
  exists rs',
    sample_batch 0 toy_b0 (rs_of_words [])
    = Ok ({| b_obs := []; b_obs2 := []; b_act := []; b_rew := []; b_done := [] |}, rs').
Proof.
  split; [reflexivity |]. split; [reflexivity |].
  eexists. vm_compute. reflexivity.
Qed.

(** ** Action selection: clipping *)

Lemma Qcmax_lower (x lo : Qc) : (lo <= Qcmax x lo)%Qc.
Proof.
  unfold Qcmax. destruct (Qclt_le_dec x lo) as [Hlt | Hle].
  - apply Qcle_refl.
  - exact Hle.
Qed.

Lemma Qcmin_upper (x hi : Qc) : (Qcmin x hi <= hi)%Qc.
Proof.
  unfold Qcmin. destruct (Qclt_le_dec hi x) as [Hlt | Hle].
  - apply Qcle_refl.
  - exact Hle.
Qed.

Lemma Qcmin_lower (x hi lo : Qc) : (lo <= x)%Qc -> (lo <= hi)%Qc -> (lo <= Qcmin x hi)%Qc.
Proof.
  intros Hx Hhi. unfold Qcmin. now destruct (Qclt_le_dec hi x).
Qed.

Lemma clip_bounds (lo hi x : Qc) :
  (lo <= hi)%Qc -> (lo <= clip lo hi x)%Qc /\ (clip lo hi x <= hi)%Qc.
Proof.
  intros Hlh. unfold clip. split.
  - apply Qcmin_lower; [apply Qcmax_lower | exact Hlh].
  - apply Qcmin_upper.
Qed.

(** The upper bound holds without any assumption on [hi]. *)
Lemma clip_upper (lo hi x : Qc) : (clip lo hi x <= hi)%Qc.
Proof. apply Qcmin_upper. Qed.

Lemma clip_below (lo hi x : Qc) :
  (lo <= hi)%Qc -> (x <= lo)%Qc -> clip lo hi x = lo.
Proof.
  intros Hlh Hx. unfold clip, Qcmax, Qcmin.
  destruct (Qclt_le_dec x lo) as [Hlt | Hle].
  - destruct (Qclt_le_dec hi lo) as [Hlt' | _]; [| reflexivity].
    exfalso. now apply (Qclt_not_le _ _ Hlt').
  - assert (x = lo) as -> by (apply Qcle_antisym; assumption).
    destruct (Qclt_le_dec hi lo) as [Hlt' | _]; [| reflexivity].
    exfalso. now apply (Qclt_not_le _ _ Hlt').
Qed.

Lemma np_clip_bounds (a : Vec) (lo hi : Qc) :
  (lo <= hi)%Qc -> Forall (fun x => (lo <= x)%Qc /\ (x <= hi)%Qc) (np_clip a lo hi).
Proof.
  intros Hlh. unfold np_clip. apply Forall_forall. intros x Hin.
  apply list_elem_of_In, in_map_iff in Hin as (y & <- & _).
  now apply clip_bounds.
Qed.

Lemma randn_spec (n : Z) (rs : RandomState) :
  0 <= n ->
  exists noise, randn n rs = Ok (noise, rs_advance (Z.to_nat n) rs) /\
                length noise = Z.to_nat n.
Proof.
  intros Hn. unfold randn. destruct (Z.ltb_spec n 0) as [? | _]; [lia |].
  eexists; split; [reflexivity |]. now rewrite length_map, length_seq.
Qed.

Lemma np_iadd_same_shape (a x : Vec) :
  length x = length a ->
  np_iadd a x = Ok (zip_with Qcplus a x) /\ length (zip_with Qcplus a x) = length a.
Proof.
  intros Hl. unfold np_iadd. rewrite Hl, Nat.eqb_refl. split; [reflexivity |].
  rewrite length_zip_with. lia.
Qed.

Section ActionSelection.

Context `{EpochLogger}.

(** What [get_action] returns, spelled out. *)
Lemma get_action_inv (act_dim : Z) (act_limit : Qc) (o : Vec) (noise_scale : Qc)
    (w w' : World) (a : Vec) :
  get_action act_dim act_limit o noise_scale w = Ok (a, w') ->
  exists noise rs pre,
    randn act_dim (rng w) = Ok (noise, rs) /\
    np_iadd (ac_act (ac w) o) (map (Qcmult noise_scale) noise) = Ok pre /\
    a = np_clip pre 0%Qc act_limit /\
    w' = set_rng rs w.
Proof.
  unfold get_action. intros Hg.
  destruct (randn act_dim (rng w)) as [[noise rs] | e] eqn:Hn; [| discriminate].
  cbn [mbind Result_bind] in Hg.
  destruct (np_iadd (ac_act (ac w) o) (map (Qcmult noise_scale) noise))
    as [pre | e] eqn:Hadd; [| discriminate].
  cbn [mbind Result_bind] in Hg. injection Hg as <- <-.
  exists noise, rs, pre. repeat split; [exact Hadd].
Qed.

(** [get_action] returns whenever the actor's output has [act_dim]
    components. *)
Lemma get_action_total (act_dim : Z) (act_limit : Qc) (o : Vec) (noise_scale : Qc)
    (w : World) :
  0 <= act_dim ->
  length (ac_act (ac w) o) = Z.to_nat act_dim ->
  exists a,
    get_action act_dim act_limit o noise_scale w
      = Ok (a, set_rng (rs_advance (Z.to_nat act_dim) (rng w)) w) /\
    length a = Z.to_nat act_dim.
Proof.
  intros Hd Hshape. unfold get_action.
  destruct (randn_spec act_dim (rng w) Hd) as (noise & -> & Hlen).
  cbn [mbind Result_bind].
  destruct (np_iadd_same_shape (ac_act (ac w) o) (map (Qcmult noise_scale) noise))
    as [-> Hl].
  { rewrite length_map. congruence. }
  cbn [mbind Result_bind]. eexists; split; [reflexivity |].
  unfold np_clip. rewrite length_map. congruence.
Qed.

(** C6. Under [0 <= act_limit], every component of an action returned by
    [get_action] lies in the closed interval [[0, act_limit]], whatever the
    observation, the noise scale and the noise drawn; a component whose
    noisy value is not positive is returned as [0] (the clip is to
    [[0, act_limit]], not to [[-act_limit, act_limit]]); and [get_action]
    does return when the actor's output has [act_dim] components. *)
Theorem get_action_clipped (act_dim : Z) (act_limit : Qc) (o : Vec) (noise_scale : Qc)
    (w : World) :
  (0 <= act_limit)%Qc ->
  (forall a w',
      get_action act_dim act_limit o noise_scale w = Ok (a, w') ->
      Forall (fun x => (0 <= x)%Qc /\ (x <= act_limit)%Qc) a) /\
  (forall x : Qc, (x <= 0)%Qc -> clip 0 act_limit x = 0%Qc) /\
  (0 <= act_dim -> length (ac_act (ac w) o) = Z.to_nat act_dim ->
   exists a w', get_action act_dim act_limit o noise_scale w = Ok (a, w')).
Proof.
  intros HL. split; [| split].
  - intros a w' Hg.
    destruct (get_action_inv _ _ _ _ _ _ _ Hg) as (noise & rs & pre & _ & _ & -> & _).
    now apply np_clip_bounds.
  - intros x Hx. now apply clip_below.
  - intros Hd Hshape.
    destruct (get_action_total act_dim act_limit o noise_scale w Hd Hshape) as (a & Hg & _).
    eauto.
Qed.

End ActionSelection.

Lemma get_action_clipped_witness :
  (0 <= Q2Qc 2)%Qc /\
  (forall a w',
      get_action (H1 := toy_logger) 2 (Q2Qc 2) [0%Qc] 1%Qc
        (toy_world toy_b0 (rs_of_words [])) = Ok (a, w') ->
      Forall (fun x => (0 <= x)%Qc /\ (x <= Q2Qc 2)%Qc) a).
Proof.
  assert (HL : (0 <= Q2Qc 2)%Qc) by (vm_compute; discriminate).
  split; [exact HL |].
  exact (proj1 (get_action_clipped (H1 := toy_logger) 2 (Q2Qc 2) [0%Qc] 1%Qc
                  (toy_world toy_b0 (rs_of_words [])) HL)).
Defined.

Example get_action_toy :
  fst <$> (match get_action (H1 := toy_logger) 2 (Q2Qc 2) [0%Qc] 1%Qc
                   (toy_world toy_b0 (rs_of_words [])) with
           | Ok x => Some x | Raise _ => None end)
  = Some [0%Qc; Q2Qc 2].
Proof. vm_compute. reflexivity. Qed.

(** ** The action limit is the first upper bound *)

Section ActionLimit.

Context `{EpochLogger}.

Lemma act_limit_of_cons (e : Env) (h0 : Qc) (rest : list Qc) :
  action_space_high e = h0 :: rest -> act_limit_of e = Ok h0.
Proof. unfold act_limit_of. now intros ->. Qed.

Lemma get_action_upper (act_dim : Z) (act_limit : Qc) (o : Vec) (noise_scale : Qc)
    (w w' : World) (a : Vec) :
  get_action act_dim act_limit o noise_scale w = Ok (a, w') ->
  Forall (fun x => (x <= act_limit)%Qc) a.
Proof.
  intros Hg.
  destruct (get_action_inv _ _ _ _ _ _ _ Hg) as (noise & rs & pre & _ & _ & -> & _).
  unfold np_clip. apply Forall_forall. intros x Hin.
  apply list_elem_of_In, in_map_iff in Hin as (y & <- & _).
  apply clip_upper.
Qed.

End ActionLimit.

(** C10. [act_limit] is the first component of the action space's [high]
    vector, and [get_action] bounds every component of the action by that one
    scalar, whatever the other components of [high] are.  When all
    dimensions share the bound, every component of a returned action is within
    its own dimension's bound; when they do not, it need not be: with
    [high = [2, 1]] the second component of a returned action is [2]. *)
Theorem act_limit_first_component :
  (forall `{EpochLogger} (e : Env) (h0 : Qc) (rest : list Qc),
      action_space_high e = h0 :: rest ->
      act_limit_of e = Ok h0 /\
      forall (act_dim : Z) (o : Vec) (noise_scale : Qc) (w w' : World) (a : Vec),
        get_action act_dim h0 o noise_scale w = Ok (a, w') ->
        Forall (fun x => (x <= h0)%Qc) a /\
        (Forall (fun h => h = h0) rest ->
         forall (k : nat) (x h : Qc),
           a !! k = Some x -> action_space_high e !! k = Some h -> (x <= h)%Qc)) /\
  (exists (a : Vec) (w' : @World toy_env toy_ac toy_logger) (limit x h : Qc),
      act_limit_of (H := toy_env) 0%nat = Ok limit /\
      get_action (H1 := toy_logger) 2 limit [0%Qc] 1%Qc
        (toy_world toy_b0 (rs_of_words [])) = Ok (a, w') /\
      a !! 1%nat = Some x /\
      action_space_high (GymEnv := toy_env) 0%nat !! 1%nat = Some h /\
      (h < x)%Qc).
Proof.
  split.
  - intros G A L e h0 rest Hhigh. split; [now apply (act_limit_of_cons e h0 rest) |].
    intros act_dim o noise_scale w w' a Hg.
    pose proof (get_action_upper _ _ _ _ _ _ _ Hg) as Hup.
    split; [exact Hup |].
    intros Hsame k x h Hx Hh.
    assert (h = h0) as ->.
    { rewrite Hhigh in Hh. destruct k as [| k]; cbn in Hh; [congruence |].
      rewrite Forall_forall in Hsame. apply Hsame.
      eapply list_elem_of_lookup_2; eassumption. }
    rewrite Forall_forall in Hup. apply Hup.
    eapply list_elem_of_lookup_2; eassumption.
  - eexists _, _, (Q2Qc 2), (Q2Qc 2), 1%Qc.
    split; [reflexivity |]. split; [vm_compute; reflexivity |].
    split; [reflexivity |]. split; [reflexivity |]. vm_compute. reflexivity.
Qed.

Lemma act_limit_first_component_witness :
  action_space_high (GymEnv := toy_env) 0%nat = [Q2Qc 2; 1%Qc] /\
  act_limit_of (H := toy_env) 0%nat = Ok (Q2Qc 2).
Proof.
  split; [reflexivity |].
  exact (proj1 (proj1 act_limit_first_component toy_env toy_ac toy_logger 0%nat
                  (Q2Qc 2) [1%Qc] eq_refl)).
Defined.

(** ** Target smoothing *)

Lemma polyak_step_convex (rho p p_targ : Qc) :
  polyak_step rho p p_targ = (rho * p_targ + (1 - rho) * p)%Qc.
Proof. unfold polyak_step. ring. Qed.

Lemma polyak_average_length (rho : Qc) (live targ : list Qc) :
  length (polyak_average rho live targ) = length targ.
Proof.
  revert targ. induction live as [| p live IH]; intros [| t0 targ]; cbn; congruence.
Qed.

Lemma polyak_average_lookup (rho : Qc) (live targ : list Qc) (k : nat) (p t0 : Qc) :
  live !! k = Some p -> targ !! k = Some t0 ->
  polyak_average rho live targ !! k = Some (polyak_step rho p t0).
Proof.
  revert targ k. induction live as [| q live IH]; intros [| t1 targ] [| k]; cbn;
    try discriminate.
  - intros [= ->] [= ->]. reflexivity.
  - apply IH.
Qed.

(** Beyond the live parameters, the target parameters are untouched. *)
Lemma polyak_average_lookup_beyond (rho : Qc) (live targ : list Qc) (k : nat) :
  live !! k = None -> polyak_average rho live targ !! k = targ !! k.
Proof.
  revert targ k. induction live as [| q live IH]; intros [| t1 targ] [| k]; cbn;
    try discriminate; try reflexivity.
  apply IH.
Qed.

Lemma polyak_average_one (live targ : list Qc) :
  polyak_average 1 live targ = targ.
Proof.
  revert targ. induction live as [| p live IH]; intros [| t0 targ]; cbn; try reflexivity.
  rewrite IH. f_equal. unfold polyak_step. ring.
Qed.

Lemma polyak_average_zero (live targ : list Qc) :
  length live = length targ -> polyak_average 0 live targ = live.
Proof.
  revert targ. induction live as [| p live IH]; intros [| t0 targ]; cbn;
    try discriminate; try reflexivity.
  intros [= Hl]. rewrite IH by assumption. f_equal. unfold polyak_step. ring.
Qed.

Section TargetSmoothing.

Context `{EpochLogger}.

(** The state after one [update] call, field by field. *)
Lemma update_fields (cfg : Config) (data : Batch) (w : World) :
  let q := q_optimizer_step data (ac w) (ac_targ w) (q_optimizer w) in
  let pi := pi_optimizer_step data q.1.1 (pi_optimizer w) in
  let w' := update cfg data w in
  ac w' = pi.1.1 /\
  ac_targ w' = polyak_average (polyak cfg) pi.1.1 (ac_targ w) /\
  pi_optimizer w' = pi.1.2 /\
  q_optimizer w' = q.1.2 /\
  trace w' = trace w ++ [EvUpdateBegin; EvQStep; EvPiStep; EvPolyak] /\
  replay_buffer w' = replay_buffer w /\
  rng w' = rng w /\
  env w' = env w /\
  test_env w' = test_env w /\
  files w' = files w.
Proof.
  unfold update. cbv zeta. cbn [emit ac ac_targ q_optimizer pi_optimizer].
  destruct (q_optimizer_step data (ac w) (ac_targ w) (q_optimizer w))
    as [[live1 qo] loss_q].
  cbn [emit set_learner ac ac_targ q_optimizer pi_optimizer fst snd].
  destruct (pi_optimizer_step data live1 (pi_optimizer w)) as [[live2 po] loss_pi].
  cbn. rewrite <- !app_assoc. repeat split; reflexivity.
Qed.

Lemma update_targ_one (cfg : Config) (datas : list Batch) (w : World) :
  polyak cfg = 1%Qc -> ac_targ (updates cfg datas w) = ac_targ w.
Proof.
  intros Hrho. revert w. unfold updates.
  induction datas as [| d datas IH]; intros w; [reflexivity |].
  cbn [fold_left]. rewrite IH.
  destruct (update_fields cfg d w) as (_ & -> & _).
  rewrite Hrho. apply polyak_average_one.
Qed.

(** C3. One [update] call with interpolation factor [rho = polyak] runs the
    critic step, then the actor step, then the Polyak loop, once each and in
    that order; afterwards every target parameter paired with a live
    parameter equals [rho * old + (1 - rho) * live], where [live] is the
    live value after both optimizer steps.  For [rho = 1] the target
    parameters are unchanged after any number of [update] calls; for
    [rho = 0] they equal the live parameters after one call (the two
    parameter sequences having the same length, as [deepcopy] makes them). *)
Theorem polyak_target_update (cfg : Config) (data : Batch) (w : World) :
  let rho := polyak cfg in
  let w' := update cfg data w in
  let live1 := (q_optimizer_step data (ac w) (ac_targ w) (q_optimizer w)).1.1 in
  let live2 := (pi_optimizer_step data live1 (pi_optimizer w)).1.1 in
  ac w' = live2 /\
  trace w' = trace w ++ [EvUpdateBegin; EvQStep; EvPiStep; EvPolyak] /\
  length (ac_targ w') = length (ac_targ w) /\
  (forall (k : nat) (p t0 : Qc),
      ac w' !! k = Some p -> ac_targ w !! k = Some t0 ->
      ac_targ w' !! k = Some (rho * t0 + (1 - rho) * p)%Qc) /\
  (rho = 1%Qc -> forall datas, ac_targ (updates cfg datas w) = ac_targ w) /\
  (rho = 0%Qc -> length (ac w') = length (ac_targ w) -> ac_targ w' = ac w').
Proof.
  intros rho w' live1 live2.
  destruct (update_fields cfg data w) as (Hac & Htarg & _ & _ & Htr & _).
  fold w' live1 live2 in Hac, Htarg, Htr. fold live1 live2 in Htarg.
  split; [exact Hac |]. split; [exact Htr |]. split.
  { rewrite Htarg. apply polyak_average_length. }
  split.
  { intros k p t0 Hp Ht. rewrite Htarg, <- polyak_step_convex.
    apply polyak_average_lookup; [| exact Ht]. now rewrite <- Hac. }
  split.
  { intros Hrho datas. now apply update_targ_one. }
  intros Hrho Hlen. rewrite Htarg, Hac. fold rho. rewrite Hrho.
  apply polyak_average_zero. now rewrite <- Hac.
Qed.

End TargetSmoothing.

Lemma polyak_target_update_witness :
  polyak toy_cfg = 1%Qc /\
  ac_targ (updates toy_cfg [toy_batch; toy_batch] (toy_world toy_b0 (rs_of_words [])))
  = ac_targ (toy_world toy_b0 (rs_of_words [])).
Proof.
  split; [reflexivity |].
  exact (proj1 (proj2 (proj2 (proj2 (proj2
           (polyak_target_update toy_cfg toy_batch (toy_world toy_b0 (rs_of_words [])))))))
         eq_refl [toy_batch; toy_batch]).
Defined.

(** ** Checkpoint loading *)

Section CheckpointLoading.

Context `{EpochLogger}.

Lemma load_checkpoint_found (cfg : Config) (w : World) (c : Checkpoint) :
  files w !! chkpt_file cfg = Some c ->
  load_checkpoint cfg w
  = Ok (set_learner (model_state_dict c) (model_state_dict c)
          (pi_optimizer_state_dict c) (q_optimizer_state_dict c)
          (emit (EvLoadCheckpoint (chkpt_file cfg)) w)).
Proof. intros Hf. unfold load_checkpoint, torch_load. now rewrite Hf. Qed.

Lemma load_checkpoint_missing (cfg : Config) (w : World) :
  files w !! chkpt_file cfg = None ->
  load_checkpoint cfg w = Raise FileNotFoundError.
Proof. intros Hf. unfold load_checkpoint, torch_load. now rewrite Hf. Qed.

(** C9. In eval mode the checkpoint bundle at the declared path is loaded
    into the live parameters, the target parameters and both optimizers;
    the live and target parameters are then equal, both being the bundle's
    [model_state_dict]; this is the state [ddpg] goes on with.  When no file
    is at the path, the load raises and so does [ddpg] (once past the
    experiment name and the action limit): nothing is restored. *)
Theorem checkpoint_restore (cfg : Config) (w : World) :
  (forall c : Checkpoint,
      files w !! chkpt_file cfg = Some c ->
      exists w',
        load_checkpoint cfg w = Ok w' /\
        ac w' = model_state_dict c /\
        ac_targ w' = model_state_dict c /\
        pi_optimizer w' = pi_optimizer_state_dict c /\
        q_optimizer w' = q_optimizer_state_dict c /\
        ac w' = ac_targ w') /\
  (files w !! chkpt_file cfg = None ->
   load_checkpoint cfg w = Raise FileNotFoundError) /\
  (forall (s : Start) (c : Checkpoint) (w' : World),
      mode cfg = Eval ->
      s_files s !! chkpt_file cfg = Some c ->
      ddpg_setup cfg s = Ok w' ->
      ac w' = model_state_dict c /\
      ac_targ w' = model_state_dict c /\
      pi_optimizer w' = pi_optimizer_state_dict c /\
      q_optimizer w' = q_optimizer_state_dict c) /\
  (forall (s : Start) (fuel : nat) (name : string) (limit : Qc),
      mode cfg = Eval ->
      exp_name_of cfg = Ok name ->
      act_limit_of (s_env s) = Ok limit ->
      s_files s !! chkpt_file cfg = None ->
      ddpg_setup cfg s = Raise FileNotFoundError /\
      ddpg cfg fuel s = Raise FileNotFoundError).
Proof.
  split; [| split; [| split]].
  - intros c Hf. eexists. split; [exact (load_checkpoint_found cfg w c Hf) |].
    repeat split; reflexivity.
  - apply load_checkpoint_missing.
  - intros s c w' Hmode Hf. unfold ddpg_setup. rewrite Hmode.
    destruct (exp_name_of cfg) as [name | e]; [| discriminate].
    cbn [mbind Result_bind].
    destruct (act_limit_of (s_env s)) as [limit | e]; [| discriminate].
    cbn [mbind Result_bind].
    rewrite (load_checkpoint_found cfg _ c) by exact Hf.
    cbn [mbind Result_bind].
    destruct (ReplayBuffer_init _ _ _) as [buf | e]; [| discriminate].
    cbn [mbind Result_bind]. intros [= <-]. repeat split; reflexivity.
  - intros s fuel name limit Hmode Hname Hlim Hf.
    assert (Hsetup : ddpg_setup cfg s = Raise FileNotFoundError).
    { unfold ddpg_setup. rewrite Hmode, Hname, Hlim. cbn [mbind Result_bind].
      rewrite load_checkpoint_missing by exact Hf. reflexivity. }
    split; [exact Hsetup |]. unfold ddpg. now rewrite Hsetup.
Qed.

End CheckpointLoading.

(** ** Best checkpoint *)






(** ** The control loop *)

(** *** Iteration *)

Lemma for_each_seqZ_inv {St} (body : Z -> St -> Result St) (P : Z -> St -> Prop)
    (k : nat) (m : Z) (s s' : St) :
  P m s ->
  (forall t s0 s1, m <= t < m + Z.of_nat k -> P t s0 -> body t s0 = Ok s1 -> P (t + 1) s1) ->
  for_each body (seqZ m (Z.of_nat k)) s = Ok s' ->
  P (m + Z.of_nat k) s'.
Proof.
  revert m s. induction k as [| k IH]; intros m s HP Hstep.
  - cbn. intros [= <-]. now rewrite Z.add_0_r.
  - rewrite seqZ_cons by lia. cbn [for_each].
    destruct (body m s) as [s1 | e] eqn:Hb; [| discriminate].
    cbn [mbind Result_bind].
    replace (Z.pred (Z.of_nat (S k))) with (Z.of_nat k) by lia.
    intros Hrest.
    replace (m + Z.of_nat (S k)) with (Z.succ m + Z.of_nat k) by lia.
    apply (IH (Z.succ m) s1).
    + replace (Z.succ m) with (m + 1) by lia. apply (Hstep m s); [lia | assumption ..].
    + intros t s0 s2 Ht. apply Hstep. lia.
    + exact Hrest.
Qed.


(** [for t in range(n)] with a loop invariant indexed by [t]. *)
Lemma for_each_range_inv {St} (body : Z -> St -> Result St) (P : Z -> St -> Prop)
    (n : Z) (s s' : St) :
  P 0 s ->
  (forall t s0 s1, 0 <= t < n -> P t s0 -> body t s0 = Ok s1 -> P (t + 1) s1) ->
  for_each body (py_range n) s = Ok s' ->
  P (Z.max 0 n) s'.
Proof.
  intros HP Hstep. unfold py_range.
  destruct (Z.le_gt_cases n 0) as [Hn | Hn].
  - rewrite seqZ_nil by lia. cbn. intros [= <-]. now rewrite Z.max_l by lia.
  - rewrite Z.max_r by lia. intros Hrun.
    assert (Hk : n = 0 + Z.of_nat (Z.to_nat n)) by lia.
    rewrite Hk.
    apply (for_each_seqZ_inv body P (Z.to_nat n) 0 s s' HP).
    + intros t s0 s1 Ht. apply Hstep. lia.
    + rewrite Z2Nat.id by lia. exact Hrun.
Qed.


(** A loop whose body ignores the index: the state predicate is kept. *)
Lemma for_each_const_inv {St X} (body : St -> Result St) (P : St -> Prop) (xs : list X) (s s' : St) :
  P s ->
  (forall s0 s1, P s0 -> body s0 = Ok s1 -> P s1) ->
  for_each (fun _ => body) xs s = Ok s' -> P s'.
Proof.
  intros HP Hstep. revert s HP. induction xs as [| x xs IH]; intros s HP; cbn [for_each].
  - now intros [= <-].
  - destruct (body s) as [s1 | e] eqn:Hb; [| discriminate]. cbn [mbind Result_bind].
    apply IH. eapply Hstep; eassumption.
Qed.

Lemma for_each_const_total {St X} (body : St -> Result St) (P : St -> Prop) (xs : list X) (s : St) :
  P s ->
  (forall s0, P s0 -> exists s1, body s0 = Ok s1 /\ P s1) ->
  exists s', for_each (fun _ => body) xs s = Ok s' /\ P s'.
Proof.
  intros HP Hstep. revert s HP. induction xs as [| x xs IH]; intros s HP; cbn [for_each].
  - now exists s.
  - destruct (Hstep s HP) as (s1 & -> & HP1). cbn [mbind Result_bind]. now apply IH.
Qed.

(** *** Counting events *)

Lemma count_events_app (p : Event -> bool) (tr1 tr2 : list Event) :
  count_events p (tr1 ++ tr2) = (count_events p tr1 + count_events p tr2)%nat.
Proof. unfold count_events. now rewrite List.filter_app, length_app. Qed.

Lemma count_events_none (p : Event -> bool) (tr : list Event) :
  Forall (fun e => p e = false) tr -> count_events p tr = 0%nat.
Proof.
  unfold count_events. induction 1 as [| e tr He _ IH]; [reflexivity |].
  cbn. now rewrite He.
Qed.

Lemma epoch_avgs_app (tr1 tr2 : list Event) :
  epoch_avgs (tr1 ++ tr2) = epoch_avgs tr1 ++ epoch_avgs tr2.
Proof.
  induction tr1 as [| e tr1 IH]; [reflexivity |].
  destruct e; cbn; rewrite IH; reflexivity.
Qed.

Lemma saved_epochs_app (tr1 tr2 : list Event) :
  saved_epochs (tr1 ++ tr2) = saved_epochs tr1 ++ saved_epochs tr2.
Proof.
  induction tr1 as [| e tr1 IH]; [reflexivity |].
  destruct e; cbn; rewrite IH; reflexivity.
Qed.

Lemma epoch_avgs_none (tr : list Event) :
  Forall (fun e => is_best_event e = false) tr -> epoch_avgs tr = [].
Proof.
  induction 1 as [| e tr He _ IH]; [reflexivity |].
  destruct e; cbn in *; try discriminate; exact IH.
Qed.

Lemma saved_epochs_none (tr : list Event) :
  Forall (fun e => is_best_event e = false) tr -> saved_epochs tr = [].
Proof.
  induction 1 as [| e tr He _ IH]; [reflexivity |].
  destruct e; cbn in *; try discriminate; exact IH.
Qed.

(** *** The phases of one iteration *)

Section LoopPhases.

Context `{EpochLogger}.
Variables (cfg : Config) (act_dim : Z) (act_limit : Qc).

(** [get_action] only advances the random state. *)
Lemma get_action_frame (o : Vec) (noise_scale : Qc) (w w' : World) (a : Vec) :
  get_action act_dim act_limit o noise_scale w = Ok (a, w') ->
  trace w' = trace w /\ replay_buffer w' = replay_buffer w.
Proof.
  intros Hg.
  destruct (get_action_inv _ _ _ _ _ _ _ Hg) as (? & ? & ? & _ & _ & _ & ->).
  split; reflexivity.
Qed.

Lemma select_action_inv (t : Z) (l : Locals) (w w' : World) (a : Vec) :
  select_action cfg act_dim act_limit t l w = Ok (a, w') ->
  trace w' = trace w ++ [action_event cfg t] /\
  replay_buffer w' = replay_buffer w.
Proof.
  unfold select_action, action_event. destruct (start_steps cfg <? t).
  - intros Hg. apply get_action_frame in Hg as [-> ->]. split; reflexivity.
  - destruct (action_space_sample (env w)) as [a0 e]. intros [= <- <-].
    split; reflexivity.
Qed.


(** Stepping the environment and storing: the transition stored carries
    the corrected [done]. *)
Lemma interact_inv (t : Z) (a : Vec) (l l' : Locals) (w w' : World) :
  interact cfg t a l w = Ok (l', w') ->
  exists o2 r d e buf',
    env_step a (env w) = (o2, r, d, e) /\
    let tr := {| t_obs := o l; t_act := a; t_rew := r; t_obs2 := o2;
                 t_done := correct_done cfg (ep_len l + 1) d |} in
    store tr (replay_buffer w) = Ok buf' /\
    replay_buffer w' = buf' /\
    prev_best l' = prev_best l /\
    trace w' =
      trace w ++ [EvEnvStep t; EvStore t tr] ++
      (if correct_done cfg (ep_len l + 1) d || (ep_len l + 1 =? max_ep_len cfg)
       then [EvEpisodeEnd t] else []).
Proof.
  unfold interact.
  destruct (env_step a (env w)) as [[[o2 r] d] e] eqn:Hstep.
  cbn [emit set_env replay_buffer].
  destruct (store _ (replay_buffer w)) as [buf' | ex] eqn:Hst; [| discriminate].
  cbn [mbind Result_bind]. intros Hi.
  exists o2, r, d, e, buf'. split; [reflexivity |]. cbv zeta.
  split; [exact Hst |].
  destruct (correct_done cfg (ep_len l + 1) d || (ep_len l + 1 =? max_ep_len cfg)).
  - cbn [set_logger emit set_replay_buffer set_env env logger] in Hi.
    destruct (env_reset e) as [o0 e0]. injection Hi as <- <-.
    cbn. rewrite <- !app_assoc. repeat split; reflexivity.
  - injection Hi as <- <-. cbn. rewrite <- !app_assoc. repeat split; reflexivity.
Qed.

Lemma interact_total (t : Z) (a : Vec) (l : Locals) (w : World)
    (o2 : Vec) (r : Qc) (d : bool) (e : Env) :
  env_step a (env w) = (o2, r, d, e) ->
  is_Ok (store {| t_obs := o l; t_act := a; t_rew := r; t_obs2 := o2;
                  t_done := correct_done cfg (ep_len l + 1) d |} (replay_buffer w)) ->
  exists l' w', interact cfg t a l w = Ok (l', w').
Proof.
  intros Hstep (buf' & Hstore). unfold interact. rewrite Hstep.
  cbn [emit set_env replay_buffer]. rewrite Hstore.
  cbn [mbind Result_bind].
  destruct (correct_done cfg (ep_len l + 1) d || (ep_len l + 1 =? max_ep_len cfg)).
  - cbn [set_logger emit set_replay_buffer set_env env logger].
    destruct (env_reset e) as [o0 e0]. eauto.
  - eauto.
Qed.

(** One pass of the burst. *)
Lemma sample_and_update_inv (w w' : World) :
  sample_and_update cfg w = Ok w' ->
  exists idxs,
    trace w' = trace w ++ update_block idxs /\
    replay_buffer w' = replay_buffer w.
Proof.
  unfold sample_and_update.
  destruct (sample_batch_idxs _ _ _) as [[[idxs batch] rs] | e]; [| discriminate].
  cbn [mbind Result_bind]. intros [= <-]. exists idxs.
  destruct (update_fields cfg batch (emit (EvSample idxs) (set_rng rs w)))
    as (_ & _ & _ & _ & -> & -> & _).
  cbn. rewrite <- app_assoc. split; reflexivity.
Qed.


Lemma burst_inv {X} (xs : list X) (w w' : World) :
  for_each (fun _ w => sample_and_update cfg w) xs w = Ok w' ->
  exists idxss,
    length idxss = length xs /\
    trace w' = trace w ++ concat (map update_block idxss) /\
    replay_buffer w' = replay_buffer w.
Proof.
  revert w. induction xs as [| x xs IH]; intros w; cbn [for_each].
  - intros [= <-]. exists []. cbn. rewrite app_nil_r. repeat split; reflexivity.
  - destruct (sample_and_update cfg w) as [w1 | e] eqn:Hs; [| discriminate].
    cbn [mbind Result_bind]. intros Hrest.
    destruct (sample_and_update_inv _ _ Hs) as (idxs & Htr1 & Hb1).
    destruct (IH _ Hrest) as (idxss & Hlen & Htr & Hb).
    exists (idxs :: idxss). cbn [length map concat].
    rewrite Htr, Htr1, Hb, Hb1, <- app_assoc. repeat split; congruence.
Qed.


Lemma update_handling_inv (t : Z) (w w' : World) :
  update_handling cfg t w = Ok w' ->
  exists idxss,
    Z.of_nat (length idxss) = (if update_due cfg t then Z.max 0 (update_every cfg) else 0) /\
    trace w' = trace w ++ concat (map update_block idxss) /\
    replay_buffer w' = replay_buffer w.
Proof.
  unfold update_handling, update_due, py_mod.
  destruct (update_after cfg <=? t); cbn [andb].
  - destruct (Z.eqb_spec (update_every cfg) 0) as [? | _]; [discriminate |].
    cbn [mbind Result_bind].
    destruct (t mod update_every cfg =? 0).
    + intros Hrun. destruct (burst_inv _ _ _ Hrun) as (idxss & Hlen & Htr & Hb).
      exists idxss. split; [| now split].
      rewrite Hlen. unfold py_range. rewrite length_seqZ. lia.
    + intros [= <-]. exists []. cbn. rewrite app_nil_r. repeat split; reflexivity.
  - intros [= <-]. exists []. cbn. rewrite app_nil_r. repeat split; reflexivity.
Qed.


(** The evaluator steps the test environment only. *)
Lemma test_episode_inv (fuel : nat) (o : Vec) (d : bool) (ret : Qc) (len : Z)
    (w w' : World) :
  test_episode cfg act_dim act_limit fuel o d ret len w = Ok w' ->
  exists k,
    trace w' = trace w ++ replicate k EvTestStep /\
    replay_buffer w' = replay_buffer w.
Proof.
  revert o d ret len w. induction fuel as [| fuel IH]; intros o d ret len w;
    cbn [test_episode]; destruct (negb (d || (len =? max_ep_len cfg))).
  - discriminate.
  - intros [= <-]. exists 0%nat. cbn. rewrite app_nil_r. split; reflexivity.
  - destruct (get_action act_dim act_limit o 0%Qc w) as [[a w1] | e] eqn:Hg;
      [| discriminate].
    cbn [mbind Result_bind].
    destruct (env_step a (test_env w1)) as [[[o2 r] d2] e].
    intros Hrest. destruct (IH _ _ _ _ _ Hrest) as (k & Htr & Hb).
    apply get_action_frame in Hg as [Htr1 Hb1].
    exists (S k). cbn in Htr, Hb. rewrite Htr, Hb, Htr1, Hb1, <- app_assoc.
    split; reflexivity.
  - intros [= <-]. exists 0%nat. cbn. rewrite app_nil_r. split; reflexivity.
Qed.

Lemma test_episode_total (fuel : nat) (o : Vec) (d : bool) (ret : Qc) (len : Z)
    (w : World) :
  0 <= act_dim ->
  (forall params o, length (ac_act params o) = Z.to_nat act_dim) ->
  0 <= max_ep_len cfg - len <= Z.of_nat fuel ->
  exists w', test_episode cfg act_dim act_limit fuel o d ret len w = Ok w'.
Proof.
  intros Hd Hshape. revert o d ret len w.
  induction fuel as [| fuel IH]; intros o d ret len w Hlen; cbn [test_episode].
  - destruct (Z.eqb_spec len (max_ep_len cfg)) as [_ | Hne]; [| lia].
    rewrite orb_true_r. cbn [negb]. eauto.
  - destruct (negb (d || (len =? max_ep_len cfg))) eqn:Hcont; [| eauto].
    apply negb_true_iff, orb_false_iff in Hcont as [_ Hne].
    apply Z.eqb_neq in Hne.
    destruct (get_action_total act_dim act_limit o 0%Qc w Hd (Hshape _ _)) as (a & -> & _).
    cbn [mbind Result_bind].
    destruct (env_step a _) as [[[o2 r] d2] e].
    apply IH. lia.
Qed.

Lemma test_agent_inv (fuel : nat) (w w' : World) :
  test_agent cfg act_dim act_limit fuel w = Ok w' ->
  exists k,
    trace w' = trace w ++ replicate k EvTestStep /\
    replay_buffer w' = replay_buffer w.
Proof.
  unfold test_agent.
  apply (for_each_const_inv
           (fun w0 => let '(o, e) := env_reset (test_env w0) in
                      test_episode cfg act_dim act_limit fuel o false 0%Qc 0
                        (set_test_env e w0))
           (fun w0 => exists k, trace w0 = trace w ++ replicate k EvTestStep /\
                                replay_buffer w0 = replay_buffer w)).
  - exists 0%nat. cbn. rewrite app_nil_r. split; reflexivity.
  - intros w0 w1 (k & Htr & Hb). destruct (env_reset (test_env w0)) as [o e].
    intros Hep. destruct (test_episode_inv _ _ _ _ _ _ _ Hep) as (k1 & Htr1 & Hb1).
    exists (k + k1)%nat. cbn in Htr1, Hb1.
    rewrite Htr1, Hb1, Htr, Hb, replicate_add, <- app_assoc. split; reflexivity.
Qed.

Lemma test_agent_total (fuel : nat) (w : World) :
  0 <= act_dim ->
  (forall params o, length (ac_act params o) = Z.to_nat act_dim) ->
  0 <= max_ep_len cfg <= Z.of_nat fuel ->
  exists w', test_agent cfg act_dim act_limit fuel w = Ok w'.
Proof.
  intros Hd Hshape Hlen. unfold test_agent.
  destruct (for_each_const_total
              (fun w0 => let '(o, e) := env_reset (test_env w0) in
                         test_episode cfg act_dim act_limit fuel o false 0%Qc 0
                           (set_test_env e w0))
              (fun _ => True) (py_range (num_test_episodes cfg)) w I)
    as (w' & Hrun & _); [| eauto].
  intros w0 _. destruct (env_reset (test_env w0)) as [o e].
  destruct (test_episode_total fuel o false 0%Qc 0 (set_test_env e w0) Hd Hshape)
    as (w1 & Hep); [lia |]. eauto.
Qed.

(** End of epoch handling. *)
Lemma epoch_handling_inv (fuel : nat) (t : Z) (l l' : Locals) (w w' : World) :
  epoch_handling cfg act_dim act_limit fuel t l w = Ok (l', w') ->
  replay_buffer w' = replay_buffer w /\
  if (t + 1) mod steps_per_epoch cfg =? 0 then
    let epoch := (t + 1) / steps_per_epoch cfg in
    exists pre avg,
      trace w' =
        trace w ++ pre ++ [EvEpochStats epoch avg] ++
        (if exceeds_best avg (prev_best l) then [EvSaveModel epoch avg] else []) /\
      Forall (fun e => e = EvSaveState epoch \/ e = EvTestStep) pre /\
      prev_best l' = max_best (prev_best l) avg
  else trace w' = trace w /\ l' = l.
Proof.
  unfold epoch_handling, py_mod, py_floordiv.
  destruct (Z.eqb_spec (steps_per_epoch cfg) 0) as [? | _]; [discriminate |].
  cbn [mbind Result_bind].
  destruct ((t + 1) mod steps_per_epoch cfg =? 0); [| now intros [= <- <-]].
  destruct (Z.eqb_spec (save_freq cfg) 0) as [? | _]; [discriminate |].
  cbn [mbind Result_bind].
  set (epoch := (t + 1) / steps_per_epoch cfg).
  set (w1 := if (epoch mod save_freq cfg =? 0) || (epoch =? epochs cfg)
             then emit (EvSaveState epoch)
                    (set_logger (logger_save_state (env w) (logger w)) w)
             else w).
  assert (Hw1 : exists pre0, trace w1 = trace w ++ pre0 /\
                  Forall (fun e => e = EvSaveState epoch \/ e = EvTestStep) pre0 /\
                  replay_buffer w1 = replay_buffer w).
  { subst w1. destruct ((epoch mod save_freq cfg =? 0) || (epoch =? epochs cfg)).
    - exists [EvSaveState epoch]. repeat split. constructor; [now left | constructor].
    - exists []. rewrite app_nil_r. repeat split. constructor. }
  destruct Hw1 as (pre0 & Htr1 & Hpre0 & Hb1). clearbody w1.
  destruct (test_agent cfg act_dim act_limit fuel w1) as [w2 | e] eqn:Hta; [| discriminate].
  cbn [mbind Result_bind].
  destruct (test_agent_inv _ _ _ Hta) as (k & Htr2 & Hb2).
  set (avg := logger_episode_return_mean (logger w2)).
  intros [= <- <-]. cbn [prev_best].
  split.
  { destruct (exceeds_best avg (prev_best l)); cbn; congruence. }
  exists (pre0 ++ replicate k EvTestStep), avg. split; [| split; [| reflexivity]].
  - destruct (exceeds_best avg (prev_best l)); cbn;
      rewrite Htr2, Htr1, <- !app_assoc; reflexivity.
  - apply Forall_app. split; [exact Hpre0 |].
    apply Forall_forall. intros e He. apply elem_of_replicate in He as [-> _]. now right.
Qed.


(** One iteration of the main loop: what it records, in order. *)
Lemma loop_body_inv (fuel : nat) (t : Z) (l l' : Locals) (w w' : World) :
  loop_body cfg act_dim act_limit fuel t (l, w) = Ok (l', w') ->
  exists tr ended idxss post,
    trace w' =
      trace w ++ ([action_event cfg t; EvEnvStep t; EvStore t tr] ++ ended) ++
      concat (map update_block idxss) ++ post /\
    store tr (replay_buffer w) = Ok (replay_buffer w') /\
    (ended = [] \/ ended = [EvEpisodeEnd t]) /\
    Z.of_nat (length idxss) =
      (if update_due cfg t then Z.max 0 (update_every cfg) else 0) /\
    if (t + 1) mod steps_per_epoch cfg =? 0 then
      let epoch := (t + 1) / steps_per_epoch cfg in
      exists pre avg,
        post = pre ++ [EvEpochStats epoch avg] ++
               (if exceeds_best avg (prev_best l) then [EvSaveModel epoch avg] else []) /\
        Forall (fun e => e = EvSaveState epoch \/ e = EvTestStep) pre /\
        prev_best l' = max_best (prev_best l) avg
    else post = [] /\ prev_best l' = prev_best l.
Proof.
  unfold loop_body.
  destruct (select_action cfg act_dim act_limit t l w) as [[a w1] | e] eqn:Hsel;
    [| discriminate].
  cbn [mbind Result_bind].
  destruct (interact cfg t a l w1) as [[l2 w2] | e] eqn:Hint; [| discriminate].
  cbn [mbind Result_bind].
  destruct (update_handling cfg t w2) as [w3 | e] eqn:Hupd; [| discriminate].
  cbn [mbind Result_bind]. intros Hep.
  destruct (select_action_inv _ _ _ _ _ Hsel) as [Htr1 Hb1].
  destruct (interact_inv _ _ _ _ _ _ Hint)
    as (o2 & r & d & e & buf' & _ & Hst & Hb2 & Hpb2 & Htr2).
  cbv zeta in Hst, Htr2.
  destruct (update_handling_inv _ _ _ Hupd) as (idxss & Hlen & Htr3 & Hb3).
  destruct (epoch_handling_inv _ _ _ _ _ _ Hep) as [Hb4 Hpost].
  set (tr := {| t_obs := o l; t_act := a; t_rew := r; t_obs2 := o2;
                t_done := correct_done cfg (ep_len l + 1) d |}) in *.
  set (ended := if correct_done cfg (ep_len l + 1) d || (ep_len l + 1 =? max_ep_len cfg)
                then [EvEpisodeEnd t] else []) in *.
  assert (Hended : ended = [] \/ ended = [EvEpisodeEnd t]).
  { subst ended.
    destruct (correct_done cfg (ep_len l + 1) d || (ep_len l + 1 =? max_ep_len cfg));
      [right | left]; reflexivity. }
  assert (Hstore : store tr (replay_buffer w) = Ok (replay_buffer w')).
  { rewrite Hb4, Hb3, Hb2, <- Hb1. exact Hst. }
  destruct ((t + 1) mod steps_per_epoch cfg =? 0).
  - destruct Hpost as (pre & avg & Htr4 & Hpre & Hpb). cbv zeta.
    exists tr, ended, idxss,
      (pre ++ [EvEpochStats ((t + 1) / steps_per_epoch cfg) avg] ++
       (if exceeds_best avg (prev_best l)
        then [EvSaveModel ((t + 1) / steps_per_epoch cfg) avg] else [])).
    rewrite Hpb2 in Htr4, Hpb.
    split; [| split; [exact Hstore | split; [exact Hended | split; [exact Hlen |]]]].
    + rewrite Htr4, Htr3, Htr2, Htr1. cbn. rewrite <- !app_assoc. reflexivity.
    + exists pre, avg. repeat split; assumption.
  - destruct Hpost as [Htr4 ->].
    exists tr, ended, idxss, [].
    split; [| split; [exact Hstore | split; [exact Hended | split; [exact Hlen |]]]].
    + rewrite Htr4, Htr3, Htr2, Htr1. cbn. rewrite <- !app_assoc, app_nil_r. reflexivity.
    + split; [reflexivity | exact Hpb2].
Qed.

End LoopPhases.

(** *** What the pieces of an iteration contribute to the trace *)

Lemma burst_events (idxss : list (list Z)) :
  let burst := concat (map update_block idxss) in
  count_events is_env_step burst = 0%nat /\
  count_events is_update_begin burst = length idxss /\
  Forall (fun e => is_update_event e = true) burst /\
  epoch_avgs burst = [] /\
  saved_epochs burst = [].
Proof.
  induction idxss as [| idxs idxss (IH1 & IH2 & IH3 & IH4 & IH5)].
  - cbn. repeat split. constructor.
  - cbn [map concat]. cbv zeta.
    rewrite !count_events_app, epoch_avgs_app, saved_epochs_app.
    rewrite IH1, IH2, IH4, IH5.
    repeat split. apply Forall_app. split; [| exact IH3].
    unfold update_block. repeat constructor.
Qed.

Lemma epoch_post_events (pre : list Event) (epoch : Z) (avg : Qc) (b : bool) :
  Forall (fun e => e = EvSaveState epoch \/ e = EvTestStep) pre ->
  let post := pre ++ [EvEpochStats epoch avg] ++ (if b then [EvSaveModel epoch avg] else []) in
  Forall (fun e => is_update_event e = false) post /\
  Forall (fun e => is_env_step e = false) post /\
  epoch_avgs post = [avg] /\
  saved_epochs post = (if b then [epoch] else []).
Proof.
  intros Hpre. cbv zeta.
  assert (Hu : Forall (fun e => is_update_event e = false) pre).
  { eapply Forall_impl; [exact Hpre |]. cbn. now intros e [-> | ->]. }
  assert (He : Forall (fun e => is_env_step e = false) pre).
  { eapply Forall_impl; [exact Hpre |]. cbn. now intros e [-> | ->]. }
  assert (Hb : Forall (fun e => is_best_event e = false) pre).
  { eapply Forall_impl; [exact Hpre |]. cbn. now intros e [-> | ->]. }
  rewrite epoch_avgs_app, saved_epochs_app.
  rewrite (epoch_avgs_none pre Hb), (saved_epochs_none pre Hb).
  split; [| split; [| split]].
  - apply Forall_app. split; [exact Hu |]. destruct b; repeat constructor.
  - apply Forall_app. split; [exact He |]. destruct b; repeat constructor.
  - destruct b; reflexivity.
  - destruct b; reflexivity.
Qed.

(** Epoch numbering along [t]. *)
Lemma epoch_boundary_div (spe t : Z) :
  0 < spe -> 0 <= t -> (t + 1) mod spe = 0 -> (t + 1) / spe = t / spe + 1.
Proof.
  intros Hs Ht Hm.
  pose proof (Z.div_mod (t + 1) spe ltac:(lia)) as H1.
  pose proof (Z.div_mod t spe ltac:(lia)) as H2.
  pose proof (Z.mod_pos_bound t spe Hs) as H3.
  rewrite Hm in H1. nia.
Qed.

Lemma epoch_interior_div (spe t : Z) :
  0 < spe -> 0 <= t -> (t + 1) mod spe <> 0 -> (t + 1) / spe = t / spe.
Proof.
  intros Hs Ht Hm.
  pose proof (Z.div_mod (t + 1) spe ltac:(lia)) as H1.
  pose proof (Z.div_mod t spe ltac:(lia)) as H2.
  pose proof (Z.mod_pos_bound t spe Hs) as H3.
  pose proof (Z.mod_pos_bound (t + 1) spe Hs) as H4.
  nia.
Qed.

Lemma store_ok (od ad : nat) (C : Z) (tr : Transition) (b : ReplayBuffer) :
  0 < C -> buf_ok od ad C b -> tr_shaped od ad tr ->
  exists b', store tr b = Ok b' /\ buf_ok od ad C b' /\ 0 < size b'.
Proof.
  intros HC (Hwf & Hp & Hs) Hshape.
  destruct (store_spec od ad C HC tr b Hwf Hp Hshape)
    as (b' & Hst & Hwf' & Hptr' & Hsize' & _).
  exists b'. split; [exact Hst |]. unfold buf_ok.
  pose proof (Z.mod_pos_bound (ptr b + 1) C HC).
  rewrite Hptr', Hsize'. split; [split; [exact Hwf' | lia] | lia].
Qed.

Lemma buf_ok_init (obs_dim act_dim C : Z) (b0 : ReplayBuffer) :
  0 < C -> ReplayBuffer_init obs_dim act_dim C = Ok b0 ->
  buf_ok (Z.to_nat obs_dim) (Z.to_nat act_dim) C b0.
Proof.
  intros HC Hinit. destruct (ring_inv_init _ _ _ _ HC Hinit) as (Hwf & Hp & Hs & _).
  cbn in Hp, Hs. rewrite Z.mod_0_l in Hp by lia.
  split; [exact Hwf | lia].
Qed.

(** *** The training run *)

Section TrainingRun.

Context `{EpochLogger}.
Variables (cfg : Config) (act_dim : Z) (act_limit : Qc) (fuel : nat).

Lemma select_action_shape (t : Z) (l : Locals) (w w' : World) (a : Vec) :
  (forall params o, length (ac_act params o) = Z.to_nat act_dim) ->
  (forall e, length (action_space_sample e).1 = Z.to_nat act_dim) ->
  select_action cfg act_dim act_limit t l w = Ok (a, w') ->
  length a = Z.to_nat act_dim.
Proof.
  intros Hshape Hsample. unfold select_action. destruct (start_steps cfg <? t).
  - intros Hg.
    destruct (get_action_inv _ _ _ _ _ _ _ Hg) as (noise & rs & pre & _ & Hadd & -> & _).
    unfold np_clip. rewrite length_map.
    unfold np_iadd in Hadd.
    destruct (length (map (Qcmult (act_noise cfg)) noise) =? length _)%nat eqn:Hl.
    + injection Hadd as <-. apply Nat.eqb_eq in Hl.
      rewrite length_zip_with, Hl, Nat.min_id. apply Hshape.
    + destruct (map (Qcmult (act_noise cfg)) noise) as [| x [| y rest]];
        try discriminate.
      injection Hadd as <-. rewrite length_map. apply Hshape.
  - specialize (Hsample (env w)).
    destruct (action_space_sample (env w)) as [a0 e]. now intros [= <- <-].
Qed.


Lemma loop_body_env_steps (t : Z) (l l' : Locals) (w w' : World) :
  loop_body cfg act_dim act_limit fuel t (l, w) = Ok (l', w') ->
  count_events is_env_step (trace w') = (count_events is_env_step (trace w) + 1)%nat.
Proof.
  intros Hb.
  destruct (loop_body_inv _ _ _ _ _ _ _ _ _ Hb)
    as (tr & ended & idxss & post & -> & _ & Hended & _ & Hpost).
  destruct (burst_events idxss) as (Hburst & _).
  rewrite !count_events_app, Hburst.
  assert (Hp : count_events is_env_step post = 0%nat).
  { destruct ((t + 1) mod steps_per_epoch cfg =? 0).
    - destruct Hpost as (pre & avg & -> & Hpre & _).
      apply count_events_none. now apply epoch_post_events.
    - now destruct Hpost as [-> _]. }
  rewrite Hp. unfold action_event.
  destruct Hended as [-> | ->]; destruct (start_steps cfg <? t); reflexivity.
Qed.


Lemma loop_body_actions (t : Z) (l l' : Locals) (w w' : World) :
  loop_body cfg act_dim act_limit fuel t (l, w) = Ok (l', w') ->
  action_events (trace w') = action_events (trace w) ++ [action_event cfg t].
Proof.
  intros Hb.
  destruct (loop_body_inv _ _ _ _ _ _ _ _ _ Hb)
    as (tr & ended & idxss & post & -> & _ & Hended & _ & Hpost).
  assert (Hnone : forall tr0, Forall (fun e => is_action_event e = false) tr0 ->
                              action_events tr0 = []).
  { intros tr0. unfold action_events. induction 1 as [| e tr0 He _ IH]; [reflexivity |].
    cbn. now rewrite He. }
  assert (Hburst : action_events (concat (map update_block idxss)) = []).
  { apply Hnone. destruct (burst_events idxss) as (_ & _ & Hupd & _).
    eapply Forall_impl; [exact Hupd |]. cbn. intros e. now destruct e. }
  assert (Hp : action_events post = []).
  { apply Hnone. destruct ((t + 1) mod steps_per_epoch cfg =? 0).
    - destruct Hpost as (pre & avg & -> & Hpre & _).
      apply Forall_app. split.
      + eapply Forall_impl; [exact Hpre |]. cbn. now intros e [-> | ->].
      + destruct (exceeds_best avg (prev_best l)); repeat constructor.
    - destruct Hpost as [-> _]. constructor. }
  unfold action_events in *. rewrite !List.filter_app, Hburst, Hp, !app_nil_r.
  f_equal. unfold action_event.
  destruct Hended as [-> | ->]; destruct (start_steps cfg <? t); reflexivity.
Qed.

Lemma train_actions (w w' : World) (l' : Locals) :
  train cfg act_dim act_limit fuel w = Ok (l', w') ->
  action_events (trace w') =
  action_events (trace w) ++
  map (action_event cfg) (py_range (steps_per_epoch cfg * epochs cfg)).
Proof.
  unfold train. destruct (env_reset (env w)) as [o0 e]. intros Hrun.
  apply (for_each_range_inv (loop_body cfg act_dim act_limit fuel)
           (fun t s => 0 <= t /\
                       action_events (trace s.2) =
                       action_events (trace w) ++ map (action_event cfg) (py_range t)))
    in Hrun.
  - destruct Hrun as [_ Hrun]. cbn [snd] in Hrun. rewrite Hrun. f_equal. f_equal.
    unfold py_range.
    destruct (Z.le_gt_cases (steps_per_epoch cfg * epochs cfg) 0).
    + rewrite Z.max_l by lia. now rewrite !seqZ_nil by lia.
    + now rewrite Z.max_r by lia.
  - cbn. rewrite app_nil_r. split; [lia | reflexivity].
  - intros t [l0 w0] [l1 w1] Ht [_ Hacc] Hb. cbn [snd] in *.
    split; [lia |].
    rewrite (loop_body_actions _ _ _ _ _ Hb), Hacc, <- app_assoc. f_equal.
    unfold py_range. rewrite (seqZ_app 0 t 1) by lia. rewrite map_app. reflexivity.
Qed.


Lemma train_env_steps (w w' : World) (l' : Locals) :
  train cfg act_dim act_limit fuel w = Ok (l', w') ->
  count_events is_env_step (trace w') =
  (count_events is_env_step (trace w) + Z.to_nat (steps_per_epoch cfg * epochs cfg))%nat.
Proof.
  unfold train. destruct (env_reset (env w)) as [o0 e]. intros Hrun.
  apply (for_each_range_inv (loop_body cfg act_dim act_limit fuel)
           (fun t s => count_events is_env_step (trace s.2) =
                       (count_events is_env_step (trace w) + Z.to_nat t)%nat)) in Hrun.
  - cbn [snd] in Hrun. rewrite Hrun. lia.
  - cbn [snd set_env trace Z.to_nat]. lia.
  - intros t [l0 w0] [l1 w1] Ht Hc Hb. cbn [snd] in *.
    rewrite (loop_body_env_steps _ _ _ _ _ Hb), Hc. lia.
Qed.


End TrainingRun.

(** ** The statements about the control loop *)

Section ControlLoop.

Context `{EpochLogger}.

(** C2, as the code has it. The [done] flag stored at a step is [False]
    whenever the episode length reaches [max_ep_len] at that step, whether
    or not the environment signalled termination there; at every other step
    it is the environment's signal.  The transition with that flag is what
    [store] receives, and on a buffer in working order (the transition
    having the buffer's dimensions) it is the row written at the write
    cursor. *)
Theorem done_correction (cfg : Config) (t : Z) (a : Vec) (l : Locals) (w : World)
    (o2 : Vec) (r : Qc) (d : bool) (e : Env) :
  env_step a (env w) = (o2, r, d, e) ->
  let stored := if ep_len l + 1 =? max_ep_len cfg then false else d in
  let tr := {| t_obs := o l; t_act := a; t_rew := r; t_obs2 := o2; t_done := stored |} in
  (ep_len l + 1 = max_ep_len cfg -> stored = false) /\
  (ep_len l + 1 <> max_ep_len cfg -> stored = d) /\
  (forall l' w',
      interact cfg t a l w = Ok (l', w') ->
      store tr (replay_buffer w) = Ok (replay_buffer w') /\
      EvStore t tr ∈ trace w') /\
  (forall od ad C,
     0 < C -> buf_ok od ad C (replay_buffer w) -> tr_shaped od ad tr ->
     exists l' w',
       interact cfg t a l w = Ok (l', w') /\
       buf_row (replay_buffer w') (Z.to_nat (ptr (replay_buffer w))) = Some (row_of tr) /\
       r_done (row_of tr) = float_of_bool stored).
Proof.
  intros Hstep stored tr.
  assert (Hinv : forall l' w',
             interact cfg t a l w = Ok (l', w') ->
             store tr (replay_buffer w) = Ok (replay_buffer w') /\
             EvStore t tr ∈ trace w').
  { intros l' w' Hint.
    destruct (interact_inv _ _ _ _ _ _ _ Hint)
      as (o2' & r' & d' & e' & buf' & Hstep' & Hst & Hb & _ & Htr).
    rewrite Hstep in Hstep'. injection Hstep' as <- <- <- <-.
    cbv zeta in Hst, Htr. unfold correct_done in Hst, Htr.
    fold stored in Hst, Htr. fold tr in Hst, Htr.
    split; [now rewrite Hb |].
    rewrite Htr. rewrite !elem_of_app. right. left.
    apply list_elem_of_In. right. now left. }
  split; [| split; [| split; [exact Hinv |]]].
  - intros Heq. subst stored. apply Z.eqb_eq in Heq. now rewrite Heq.
  - intros Hne. subst stored. apply Z.eqb_neq in Hne. now rewrite Hne.
  - intros od ad C HC (Hwf & Hp & _) Hshape.
    destruct (store_spec od ad C HC tr _ Hwf Hp Hshape)
      as (b' & Hst' & _ & _ & _ & Hrow & _).
    destruct (interact_total cfg t a l w o2 r d e Hstep) as (l' & w' & Hint).
    { exists b'. exact Hst'. }
    exists l', w'. split; [exact Hint |]. split; [| reflexivity].
    destruct (Hinv _ _ Hint) as [Hst _].
    rewrite Hst in Hst'. injection Hst' as <-. exact Hrow.
Qed.

(** In train mode, [ddpg] is the setup followed by [train] on a fresh
    buffer and an empty trace. *)
Lemma ddpg_train_inv (cfg : Config) (fuel : nat) (s : Start) (w' : World) :
  mode cfg = Train ->
  ddpg cfg fuel s = Ok w' ->
  exists limit buf l',
    act_limit_of (s_env s) = Ok limit /\
    ReplayBuffer_init (observation_dim (s_env s)) (action_space_shape0 (s_env s))
      (replay_size cfg) = Ok buf /\
    train cfg (action_space_shape0 (s_env s)) limit fuel
      (set_replay_buffer buf (initial_world s)) = Ok (l', w').
Proof.
  intros Hmode. unfold ddpg, ddpg_setup. rewrite Hmode.
  destruct (exp_name_of cfg) as [name | ex]; [| discriminate].
  cbn [mbind Result_bind].
  destruct (act_limit_of (s_env s)) as [limit | ex]; [| discriminate].
  cbn [mbind Result_bind].
  destruct (ReplayBuffer_init _ _ _) as [buf | ex]; [| discriminate].
  cbn [mbind Result_bind].
  destruct (train _ _ _ _ _) as [[l' w1] | ex] eqn:Htrain; [| discriminate].
  cbn [mbind Result_bind]. intros [= <-]. exists limit, buf, l'. repeat split.
  exact Htrain.
Qed.

(** C7, at the input where the code departs from it: step [t = start_steps]
    (the step after the first [start_steps] steps) still takes a uniformly
    random action, and the policy is used from [t = start_steps + 1] on; a
    training run chooses the action of each of its steps [t] at random when
    [t <= start_steps] and by the policy when [t > start_steps]. *)
Theorem random_action_at_start_steps (cfg : Config) (act_dim : Z) (act_limit : Qc)
    (fuel : nat) (l : Locals) (w : World) :
  (exists a e,
      action_space_sample (env w) = (a, e) /\
      select_action cfg act_dim act_limit (start_steps cfg) l w
      = Ok (a, set_env e (emit (EvRandomAction (start_steps cfg)) w)) /\
      select_action cfg act_dim act_limit (start_steps cfg + 1) l w
      = get_action act_dim act_limit (o l) (act_noise cfg)
          (emit (EvPolicyAction (start_steps cfg + 1)) w)) /\
  (forall (s : Start) (w' : World),
      mode cfg = Train ->
      ddpg cfg fuel s = Ok w' ->
      action_events (trace w') =
      map (fun t => if t <=? start_steps cfg then EvRandomAction t else EvPolicyAction t)
        (py_range (steps_per_epoch cfg * epochs cfg))).
Proof.
  split.
  - unfold select_action. rewrite Z.ltb_irrefl.
    destruct (Z.ltb_spec (start_steps cfg) (start_steps cfg + 1)) as [_ | ?]; [| lia].
    destruct (action_space_sample (env w)) as [a e]. exists a, e. repeat split.
  - intros s w' Hmode Hrun.
    destruct (ddpg_train_inv cfg fuel s w' Hmode Hrun) as (limit & buf & l' & _ & _ & Htrain).
    rewrite (train_actions _ _ _ _ _ _ _ Htrain). cbn [app].
    apply map_ext. intros t. unfold action_event.
    destruct (Z.ltb_spec (start_steps cfg) t), (Z.leb_spec t (start_steps cfg));
      try reflexivity; lia.
Qed.



End ControlLoop.

(** ** Instances on the small inputs *)

Lemma done_correction_witness :
  env_step (GymEnv := toy_env) [1%Qc; 1%Qc] 0%nat = ([1%Qc], 1%Qc, true, 1%nat) /\
  (ep_len toy_locals + 1 = max_ep_len toy_cfg ->
   (if ep_len toy_locals + 1 =? max_ep_len toy_cfg then false else true) = false).
Proof.
  split; [reflexivity |].
  exact (proj1 (done_correction (H1 := toy_logger) toy_cfg 0 [1%Qc; 1%Qc] toy_locals
                  (toy_world toy_b0 (rs_of_words [])) [1%Qc] 1%Qc true 1%nat eq_refl)).
Defined.

(** C2 as stated fails: the environment signals termination at the step at
    which the episode length reaches [max_ep_len], and the [done] stored in
    the replay buffer is [0] ([False]), not [True]. *)
Lemma done_correction_counterexample :
  (env_step (GymEnv := toy_env) [1%Qc; 1%Qc] 0%nat).1.2 = true /\
  ep_len toy_locals + 1 = max_ep_len toy_cfg /\
  exists l' w',
    interact (H1 := toy_logger) toy_cfg 0 [1%Qc; 1%Qc] toy_locals
      (toy_world toy_b0 (rs_of_words [])) = Ok (l', w') /\
    r_done <$> buf_row (replay_buffer w') 0 = Some (float_of_bool false) /\
    r_done <$> buf_row (replay_buffer w') 0 <> Some (float_of_bool true).
Proof.
  split; [reflexivity |]. split; [reflexivity |].
  eexists _, _. split; [vm_compute; reflexivity |].
  split; [vm_compute; reflexivity |].
  vm_compute. intros [= Habs].
Qed.

(** The run of [toy_cfg] ([start_steps = 1]) takes random actions at steps 0
    and 1: two random steps. *)
Example random_steps_toy_run :
  exists w',
    ddpg (H1 := toy_logger) toy_cfg 1 toy_start = Ok w' /\
    action_events (trace w')
    = [EvRandomAction 0; EvRandomAction 1; EvPolicyAction 2; EvPolicyAction 3].
Proof. eexists. split; vm_compute; reflexivity. Qed.



Lemma checkpoint_restore_witness :
  files toy_disk_world !! chkpt_file toy_eval_cfg = Some toy_checkpoint /\
  exists w',
    load_checkpoint toy_eval_cfg toy_disk_world = Ok w' /\
    ac w' = [Q2Qc 7] /\ ac_targ w' = [Q2Qc 7] /\ ac w' = ac_targ w'.
Proof.
  assert (Hf : files toy_disk_world !! chkpt_file toy_eval_cfg = Some toy_checkpoint)
    by apply lookup_singleton_eq.
  split; [exact Hf |].
  destruct (proj1 (checkpoint_restore toy_eval_cfg toy_disk_world) toy_checkpoint Hf)
    as (w' & Hload & Hac & Htarg & _ & _ & Heq).
  exists w'. repeat split; assumption.
Defined.

(** * Further properties of the code *)

(** ** Replay buffer: creation, capacity zero, shapes *)

Lemma np_zeros_negative {A} (n : Z) (z : A) :
  n < 0 -> np_zeros n z = Raise ValueError.
Proof. intros Hn. unfold np_zeros. apply Z.ltb_lt in Hn. now rewrite Hn. Qed.

Lemma np_zeros_nonneg {A} (n : Z) (z : A) :
  0 <= n -> np_zeros n z = Ok (replicate (Z.to_nat n) z).
Proof.
  intros Hn. unfold np_zeros.
  destruct (Z.ltb_spec n 0) as [Hlt | _]; [lia | reflexivity].
Qed.

Lemma zeros_combined_shape_nonneg (sz dim : Z) :
  0 <= sz -> 0 <= dim ->
  zeros_combined_shape sz dim
  = Ok (replicate (Z.to_nat sz) (replicate (Z.to_nat dim) 0%Qc)).
Proof.
  intros Hsz Hdim. unfold zeros_combined_shape.
  rewrite (np_zeros_nonneg dim) by assumption. cbn [mbind Result_bind].
  now rewrite np_zeros_nonneg.
Qed.

Lemma zeros_combined_shape_negative (sz dim : Z) :
  sz < 0 \/ dim < 0 -> zeros_combined_shape sz dim = Raise ValueError.
Proof.
  intros Hneg. unfold zeros_combined_shape.
  destruct (Z.lt_ge_cases dim 0) as [Hd | Hd].
  - now rewrite (np_zeros_negative dim).
  - rewrite (np_zeros_nonneg dim) by assumption. cbn [mbind Result_bind].
    apply np_zeros_negative. lia.
Qed.

Lemma ReplayBuffer_init_nonneg (obs_dim act_dim sz : Z) :
  0 <= obs_dim -> 0 <= act_dim -> 0 <= sz ->
  ReplayBuffer_init obs_dim act_dim sz
  = Ok {| obs_buf := replicate (Z.to_nat sz) (replicate (Z.to_nat obs_dim) 0%Qc);
          obs2_buf := replicate (Z.to_nat sz) (replicate (Z.to_nat obs_dim) 0%Qc);
          act_buf := replicate (Z.to_nat sz) (replicate (Z.to_nat act_dim) 0%Qc);
          rew_buf := replicate (Z.to_nat sz) 0%Qc;
          done_buf := replicate (Z.to_nat sz) 0%Qc;
          ptr := 0; size := 0; max_size := sz |}.
Proof.
  intros Ho Ha Hs. unfold ReplayBuffer_init.
  rewrite !zeros_combined_shape_nonneg by assumption.
  rewrite !np_zeros_nonneg by assumption. reflexivity.
Qed.

Lemma np_index_empty (i : Z) : np_index 0 i = Raise IndexError.
Proof.
  unfold np_index. change (Z.of_nat 0) with 0. change (- 0) with 0.
  destruct (Z.leb_spec 0 i), (Z.ltb_spec i 0); cbn [andb]; (reflexivity || lia).
Qed.

(** X1. [ReplayBuffer(obs_dim, act_dim, size)] is created exactly when the
    three numbers are non-negative (numpy refuses a negative dimension with
    a [ValueError]).  A buffer of capacity 0 is created without complaint,
    but it is unusable: every [store] raises [IndexError], and
    [sample_batch] raises [ValueError] for every [batch_size] other than 0
    (with [batch_size = 0] nothing is drawn and the batch is empty). *)
Theorem buffer_creation_and_zero_capacity (obs_dim act_dim sz : Z) :
  (0 <= obs_dim /\ 0 <= act_dim /\ 0 <= sz ->
   exists b0,
     ReplayBuffer_init obs_dim act_dim sz = Ok b0 /\
     ptr b0 = 0 /\ size b0 = 0 /\ max_size b0 = sz /\
     (sz = 0 ->
      (forall tr, store tr b0 = Raise IndexError) /\
      (forall batch_size rs,
          batch_size <> 0 -> sample_batch batch_size b0 rs = Raise ValueError) /\
      (forall rs, exists rs',
          sample_batch 0 b0 rs
          = Ok ({| b_obs := []; b_obs2 := []; b_act := []; b_rew := [];
                   b_done := [] |}, rs')))) /\
  (obs_dim < 0 \/ act_dim < 0 \/ sz < 0 ->
   ReplayBuffer_init obs_dim act_dim sz = Raise ValueError).
Proof.
  split.
  - intros (Ho & Ha & Hs). eexists. split; [apply ReplayBuffer_init_nonneg; assumption |].
    cbn [ptr size max_size]. do 3 (split; [reflexivity |]).
    intros ->. split; [| split].
    + intros tr. unfold store, np_setrow. cbn [obs_buf ptr Z.to_nat replicate length].
      rewrite np_index_empty. reflexivity.
    + intros batch_size rs Hbs. unfold sample_batch, sample_batch_idxs.
      cbn [size]. rewrite randint_empty_range by lia. reflexivity.
    + intros rs. unfold sample_batch, sample_batch_idxs.
      rewrite randint_no_sample. eexists. reflexivity.
  - intros Hneg. unfold ReplayBuffer_init.
    destruct (Z.lt_ge_cases obs_dim 0) as [Ho | Ho].
    { now rewrite (zeros_combined_shape_negative sz obs_dim) by lia. }
    destruct (Z.lt_ge_cases sz 0) as [Hs | Hs].
    { now rewrite (zeros_combined_shape_negative sz obs_dim) by lia. }
    rewrite !(zeros_combined_shape_nonneg sz obs_dim) by assumption.
    cbn [mbind Result_bind].
    now rewrite (zeros_combined_shape_negative sz act_dim) by lia.
Qed.

Lemma buffer_creation_and_zero_capacity_witness :
  (0 <= 1 /\ 0 <= 2 /\ 0 <= 0) /\
  exists b0,
    ReplayBuffer_init 1 2 0 = Ok b0 /\
    store (toy_tr 0 false) b0 = Raise IndexError /\
    sample_batch 1 b0 (rs_of_words [0]) = Raise ValueError.
Proof.
  assert (Hdims : 0 <= 1 /\ 0 <= 2 /\ 0 <= 0) by lia.
  split; [exact Hdims |].
  destruct (proj1 (buffer_creation_and_zero_capacity 1 2 0) Hdims)
    as (b0 & Hinit & _ & _ & _ & Hzero).
  destruct (Hzero eq_refl) as (Hstore & Hsample & _).
  exists b0. split; [exact Hinit |]. split; [apply Hstore | apply Hsample; lia].
Defined.

Lemma np_setrow_shapes (d : nat) (arr : list (list Qc)) (i : Z) (v : list Qc) :
  0 <= i < Z.of_nat (length arr) ->
  Forall (fun row => length row = d) arr ->
  if row_assignable d v
  then np_setrow arr i v = Ok (<[Z.to_nat i := np_broadcast d v]> arr) /\
       Forall (fun row => length row = d) (<[Z.to_nat i := np_broadcast d v]> arr)
  else np_setrow arr i v = Raise ValueError.
Proof.
  intros Hi Hrows. unfold np_setrow, row_assignable, np_broadcast.
  rewrite np_index_in_range by assumption. cbn [mbind Result_bind].
  destruct (arr !! Z.to_nat i) as [row |] eqn:Hrow.
  - assert (Hlen : length row = d).
    { rewrite Forall_forall in Hrows. apply Hrows.
      eapply list_elem_of_lookup_2; eassumption. }
    rewrite Hlen.
    destruct (Nat.eqb_spec (length v) d) as [Hv | Hv]; cbn [orb].
    + split; [reflexivity |]. apply Forall_insert; assumption.
    + destruct v as [| x [| y rest]]; cbn [length Nat.eqb hd]; try reflexivity.
      split; [reflexivity |]. apply Forall_insert; [assumption |].
      apply length_replicate.
  - apply lookup_ge_None in Hrow. lia.
Qed.

(** X2. On a well-formed buffer [store] checks shapes exactly as numpy
    assignment does: it returns when the observation, the next observation
    and the action each have the buffer's row length or one element, and
    raises [ValueError] otherwise.  A one-element vector is not refused: it
    is broadcast, so the row stored is that element repeated. *)
Theorem store_shape_check (od ad : nat) (C : Z) (tr : Transition) (b : ReplayBuffer) :
  buf_wf od ad C b -> 0 <= ptr b < C ->
  if row_assignable od (t_obs tr) && row_assignable od (t_obs2 tr)
     && row_assignable ad (t_act tr)
  then exists b',
         store tr b = Ok b' /\ buf_wf od ad C b' /\
         buf_row b' (Z.to_nat (ptr b))
         = Some {| r_obs := np_broadcast od (t_obs tr);
                   r_obs2 := np_broadcast od (t_obs2 tr);
                   r_act := np_broadcast ad (t_act tr);
                   r_rew := t_rew tr;
                   r_done := float_of_bool (t_done tr) |}
  else store tr b = Raise ValueError.
Proof.
  intros (Hm & [H1 R1] & [H2 R2] & [H3 R3] & H4 & H5) Hp.
  pose proof (np_setrow_shapes od (obs_buf b) (ptr b) (t_obs tr) ltac:(lia) R1) as S1.
  pose proof (np_setrow_shapes od (obs2_buf b) (ptr b) (t_obs2 tr) ltac:(lia) R2) as S2.
  pose proof (np_setrow_shapes ad (act_buf b) (ptr b) (t_act tr) ltac:(lia) R3) as S3.
  unfold store.
  destruct (row_assignable od (t_obs tr)); cbn [andb];
    [destruct S1 as [-> R1'] | now rewrite S1].
  cbn [mbind Result_bind].
  destruct (row_assignable od (t_obs2 tr)); cbn [andb];
    [destruct S2 as [-> R2'] | now rewrite S2].
  cbn [mbind Result_bind].
  destruct (row_assignable ad (t_act tr));
    [destruct S3 as [-> R3'] | now rewrite S3].
  rewrite !np_setitem_in_range by lia.
  cbn [mbind Result_bind].
  unfold py_mod. rewrite Hm.
  destruct (Z.eqb_spec C 0) as [HC0 | _]; [lia |].
  eexists; split; [reflexivity |].
  unfold buf_wf; cbn [max_size obs_buf obs2_buf act_buf rew_buf done_buf ptr size].
  rewrite !length_insert.
  split; [repeat split; assumption |].
  unfold buf_row; cbn [obs_buf obs2_buf act_buf rew_buf done_buf].
  rewrite !list_lookup_insert_eq by lia. reflexivity.
Qed.

Lemma store_shape_check_witness :
  buf_wf 1 2 2 toy_b0 /\ 0 <= ptr toy_b0 < 2 /\
  store wide_tr toy_b0 = Raise ValueError /\
  exists b',
    store (toy_tr 0 false) toy_b0 = Ok b' /\ buf_wf 1 2 2 b'.
Proof.
  assert (Hwf : buf_wf 1 2 2 toy_b0).
  { apply (buf_ok_init 1 2 2 toy_b0); [lia | reflexivity]. }
  assert (Hp : 0 <= ptr toy_b0 < 2) by (cbn; lia).
  split; [exact Hwf |]. split; [exact Hp |]. split.
  - exact (store_shape_check 1 2 2 wide_tr toy_b0 Hwf Hp).
  - destruct (store_shape_check 1 2 2 (toy_tr 0 false) toy_b0 Hwf Hp)
      as (b' & Hst & Hwf' & _).
    exists b'. split; assumption.
Defined.

(** ** Replay buffer: what it forgets *)

Lemma buf_row_Some (b : ReplayBuffer) (i : nat) (r : Row) :
  buf_row b i = Some r ->
  obs_buf b !! i = Some (r_obs r) /\ obs2_buf b !! i = Some (r_obs2 r) /\
  act_buf b !! i = Some (r_act r) /\ rew_buf b !! i = Some (r_rew r) /\
  done_buf b !! i = Some (r_done r).
Proof.
  unfold buf_row. intros Hrow.
  destruct (obs_buf b !! i); [| discriminate].
  destruct (obs2_buf b !! i); [| discriminate].
  destruct (act_buf b !! i); [| discriminate].
  destruct (rew_buf b !! i); [| discriminate].
  destruct (done_buf b !! i); [| discriminate].
  cbn in Hrow. injection Hrow as <-. cbn. repeat split; reflexivity.
Qed.

(** Two buffers of the same shape with the same rows are the same arrays. *)
Lemma buf_rows_ext (od ad : nat) (C : Z) (b1 b2 : ReplayBuffer) :
  buf_wf od ad C b1 -> buf_wf od ad C b2 ->
  (forall i : nat, (i < Z.to_nat C)%nat ->
     exists r, buf_row b1 i = Some r /\ buf_row b2 i = Some r) ->
  obs_buf b1 = obs_buf b2 /\ obs2_buf b1 = obs2_buf b2 /\ act_buf b1 = act_buf b2 /\
  rew_buf b1 = rew_buf b2 /\ done_buf b1 = done_buf b2.
Proof.
  intros (_ & [A1 _] & [A2 _] & [A3 _] & A4 & A5) (_ & [B1 _] & [B2 _] & [B3 _] & B4 & B5)
    Hrows.
  assert (Hext : forall {A} (f : ReplayBuffer -> list A) (g : Row -> A),
             length (f b1) = Z.to_nat C -> length (f b2) = Z.to_nat C ->
             (forall i r, buf_row b1 i = Some r -> f b1 !! i = Some (g r)) ->
             (forall i r, buf_row b2 i = Some r -> f b2 !! i = Some (g r)) ->
             f b1 = f b2).
  { intros A f g L1 L2 F1 F2. apply list_eq. intros i.
    destruct (Nat.lt_ge_cases i (Z.to_nat C)) as [Hi | Hi].
    - destruct (Hrows i Hi) as (r & R1 & R2).
      now rewrite (F1 i r R1), (F2 i r R2).
    - rewrite !lookup_ge_None_2 by lia. reflexivity. }
  split; [apply (Hext _ obs_buf r_obs); try assumption;
          intros i r Hr; apply (buf_row_Some _ _ _ Hr) |].
  split; [apply (Hext _ obs2_buf r_obs2); try assumption;
          intros i r Hr; apply (buf_row_Some _ _ _ Hr) |].
  split; [apply (Hext _ act_buf r_act); try assumption;
          intros i r Hr; apply (buf_row_Some _ _ _ Hr) |].
  split; [apply (Hext _ rew_buf r_rew); try assumption;
          intros i r Hr; apply (buf_row_Some _ _ _ Hr) |].
  apply (Hext _ done_buf r_done); try assumption;
    intros i r Hr; apply (buf_row_Some _ _ _ Hr).
Qed.

Lemma ring_inv_forgets (od ad : nat) (C : Z) (pre1 pre2 recent : list Transition)
    (b1 b2 : ReplayBuffer) :
  0 < C ->
  C <= Z.of_nat (length recent) ->
  Z.of_nat (length pre1) mod C = Z.of_nat (length pre2) mod C ->
  ring_inv od ad C (pre1 ++ recent) b1 ->
  ring_inv od ad C (pre2 ++ recent) b2 ->
  b1 = b2.
Proof.
  intros HC Hlong Hmod (Hwf1 & Hptr1 & Hsize1 & Hrows1) (Hwf2 & Hptr2 & Hsize2 & Hrows2).
  rewrite length_app in *.
  set (p1 := Z.of_nat (length pre1)) in *.
  set (p2 := Z.of_nat (length pre2)) in *.
  set (m := Z.of_nat (length recent)) in *.
  replace (Z.of_nat (length pre1 + length recent)) with (p1 + m) in * by lia.
  replace (Z.of_nat (length pre2 + length recent)) with (p2 + m) in * by lia.
  assert (Hshift : forall x, (p1 + x) mod C = (p2 + x) mod C).
  { intros x. rewrite (Zplus_mod p1), (Zplus_mod p2), Hmod. reflexivity. }
  assert (Hrows : forall i : nat, (i < Z.to_nat C)%nat ->
             exists r, buf_row b1 i = Some r /\ buf_row b2 i = Some r).
  { intros i Hi.
    destruct (slot_has_recent C HC (p1 + m) (Z.of_nat i) ltac:(lia) ltac:(lia))
      as (j & Hj & Hslot).
    set (k := j - p1).
    assert (Hk : 0 <= k < m) by lia.
    destruct (lookup_lt_is_Some_2 recent (Z.to_nat k) ltac:(lia)) as [tr Htr].
    exists (row_of tr). split.
    - specialize (Hrows1 j ltac:(lia)).
      rewrite Hslot, Nat2Z.id in Hrows1. rewrite Hrows1.
      rewrite lookup_app_r by lia.
      replace (Z.to_nat j - length pre1)%nat with (Z.to_nat k) by lia.
      now rewrite Htr.
    - specialize (Hrows2 (p2 + k) ltac:(lia)).
      rewrite <- Hshift in Hrows2.
      replace (p1 + k) with j in Hrows2 by lia.
      rewrite Hslot, Nat2Z.id in Hrows2. rewrite Hrows2.
      rewrite lookup_app_r by lia.
      replace (Z.to_nat (p2 + k) - length pre2)%nat with (Z.to_nat k) by lia.
      now rewrite Htr. }
  destruct (buf_rows_ext od ad C b1 b2 Hwf1 Hwf2 Hrows) as (E1 & E2 & E3 & E4 & E5).
  assert (Hptr : ptr b1 = ptr b2) by (rewrite Hptr1, Hptr2; apply Hshift).
  assert (Hsize : size b1 = size b2) by lia.
  assert (Hmax : max_size b1 = max_size b2).
  { destruct Hwf1 as [-> _], Hwf2 as [-> _]. reflexivity. }
  destruct b1, b2; cbn in *; congruence.
Qed.

(** X3. The buffer keeps nothing of what is older than its capacity: two
    histories of well-shaped transitions that end with the same [C] or more
    transitions, and whose lengths agree modulo [C], leave the buffer in the
    same state (arrays, [ptr] and [size]). *)
Theorem buffer_forgets (obs_dim act_dim C : Z) (b0 b1 b2 : ReplayBuffer)
    (pre1 pre2 recent : list Transition) :
  0 < C ->
  ReplayBuffer_init obs_dim act_dim C = Ok b0 ->
  Forall (tr_shaped (Z.to_nat obs_dim) (Z.to_nat act_dim)) (pre1 ++ recent) ->
  Forall (tr_shaped (Z.to_nat obs_dim) (Z.to_nat act_dim)) pre2 ->
  C <= Z.of_nat (length recent) ->
  Z.of_nat (length pre1) mod C = Z.of_nat (length pre2) mod C ->
  store_all (pre1 ++ recent) b0 = Ok b1 ->
  store_all (pre2 ++ recent) b0 = Ok b2 ->
  b1 = b2.
Proof.
  intros HC Hinit Hs1 Hs2 Hlong Hmod Hst1 Hst2.
  assert (Hs2' : Forall (tr_shaped (Z.to_nat obs_dim) (Z.to_nat act_dim)) (pre2 ++ recent)).
  { apply Forall_app. split; [assumption |]. apply Forall_app in Hs1. apply Hs1. }
  eapply ring_inv_forgets; try eassumption.
  - eapply reachable_ring_inv; eassumption.
  - eapply reachable_ring_inv; eassumption.
Qed.

Lemma buffer_forgets_witness :
  0 < 2 /\
  ReplayBuffer_init 1 2 2 = Ok toy_b0 /\
  exists b,
    store_all ([toy_tr 5 true; toy_tr 6 true] ++ [toy_tr 1 false; toy_tr 2 true]) toy_b0
    = Ok b /\
    store_all ([] ++ [toy_tr 1 false; toy_tr 2 true]) toy_b0 = Ok b.
Proof.
  assert (HC : 0 < 2) by lia.
  split; [exact HC |]. split; [reflexivity |].
  pose (b1 := match store_all ([toy_tr 5 true; toy_tr 6 true]
                                 ++ [toy_tr 1 false; toy_tr 2 true]) toy_b0 with
              | Ok b => b | Raise _ => toy_b0 end).
  pose (b2 := match store_all ([] ++ [toy_tr 1 false; toy_tr 2 true]) toy_b0 with
              | Ok b => b | Raise _ => toy_b0 end).
  assert (H1 : store_all ([toy_tr 5 true; toy_tr 6 true]
                            ++ [toy_tr 1 false; toy_tr 2 true]) toy_b0 = Ok b1)
    by (vm_compute; reflexivity).
  assert (H2 : store_all ([] ++ [toy_tr 1 false; toy_tr 2 true]) toy_b0 = Ok b2)
    by (vm_compute; reflexivity).
  assert (Hsh : forall k d, tr_shaped 1 2 (toy_tr k d)) by (intros k d; repeat split).
  exists b1. split; [exact H1 |].
  rewrite (buffer_forgets 1 2 2 toy_b0 b1 b2 [toy_tr 5 true; toy_tr 6 true] []
             [toy_tr 1 false; toy_tr 2 true] HC eq_refl
             ltac:(repeat constructor; apply Hsh) ltac:(constructor)
             ltac:(cbn; lia) eq_refl H1 H2).
  exact H2.
Defined.

(** ** Evaluation: [get_action] at noise scale 0 and [test_agent] *)

Lemma np_iadd_zero_noise (a noise pre : Vec) :
  np_iadd a (map (Qcmult 0) noise) = Ok pre -> pre = a.
Proof.
  unfold np_iadd. rewrite length_map.
  destruct (length noise =? length a)%nat eqn:Hlen.
  - intros [= <-]. apply Nat.eqb_eq in Hlen. clear - Hlen.
    revert noise Hlen. induction a as [| x a IH]; intros [| n noise] Hlen;
      try discriminate; [reflexivity |].
    cbn. f_equal; [ring | apply IH; now injection Hlen].
  - destruct noise as [| n [| n' noise]]; cbn [map]; try discriminate.
    intros [= <-]. clear. induction a as [| x a IH]; [reflexivity |].
    cbn. f_equal; [ring | exact IH].
Qed.

Section Evaluation.

Context `{EpochLogger}.
Variables (cfg : Config) (act_dim : Z) (act_limit : Qc).

Lemma get_action_training_state (o : Vec) (noise_scale : Qc) (w w' : World) (a : Vec) :
  get_action act_dim act_limit o noise_scale w = Ok (a, w') ->
  training_state w' = training_state w /\ test_env w' = test_env w /\
  logger w' = logger w /\ trace w' = trace w.
Proof.
  intros Hg.
  destruct (get_action_inv _ _ _ _ _ _ _ Hg) as (? & ? & ? & _ & _ & _ & ->).
  repeat split; reflexivity.
Qed.

Lemma get_action_zero_noise (o : Vec) (w w' : World) (a : Vec) :
  get_action act_dim act_limit o 0%Qc w = Ok (a, w') ->
  a = np_clip (ac_act (ac w) o) 0%Qc act_limit.
Proof.
  intros Hg.
  destruct (get_action_inv _ _ _ _ _ _ _ Hg) as (noise & rs & pre & _ & Hadd & -> & _).
  now rewrite (np_iadd_zero_noise _ _ _ Hadd).
Qed.

Lemma clip_inside (lo hi x : Qc) :
  (lo <= x)%Qc -> (x <= hi)%Qc -> clip lo hi x = x.
Proof.
  intros Hlo Hhi. unfold clip, Qcmax, Qcmin.
  destruct (Qclt_le_dec x lo) as [Hlt | _].
  - exfalso. eapply Qclt_not_le; eassumption.
  - destruct (Qclt_le_dec hi x) as [Hlt | _]; [| reflexivity].
    exfalso. eapply Qclt_not_le; eassumption.
Qed.

Lemma np_clip_inside (a : Vec) (lo hi : Qc) :
  Forall (fun x => (lo <= x)%Qc /\ (x <= hi)%Qc) a -> np_clip a lo hi = a.
Proof.
  unfold np_clip. induction 1 as [| x xs [Hlo Hhi] _ IH]; [reflexivity |].
  cbn. rewrite IH. f_equal. now apply clip_inside.
Qed.

(** X4. With [noise_scale = 0] (test time) the action [get_action] returns
    is the actor's output clipped to [0, act_limit], whatever the random
    state holds (the draw is made and multiplied by zero); an actor output
    that is already inside [0, act_limit] is returned unchanged.  The call
    changes nothing of the world but the random state. *)
Theorem get_action_deterministic (o : Vec) (w w' : World) (a : Vec) :
  get_action act_dim act_limit o 0%Qc w = Ok (a, w') ->
  a = np_clip (ac_act (ac w) o) 0%Qc act_limit /\
  (Forall (fun x => (0 <= x)%Qc /\ (x <= act_limit)%Qc) (ac_act (ac w) o) ->
   a = ac_act (ac w) o) /\
  (forall rs a2 w2,
      get_action act_dim act_limit o 0%Qc (set_rng rs w) = Ok (a2, w2) -> a2 = a) /\
  training_state w' = training_state w /\ test_env w' = test_env w /\
  logger w' = logger w /\ trace w' = trace w.
Proof.
  intros Hg. pose proof (get_action_zero_noise _ _ _ _ Hg) as Ha.
  split; [exact Ha |]. split; [| split].
  - intros Hin. rewrite Ha. now apply np_clip_inside.
  - intros rs a2 w2 Hg2. rewrite Ha. exact (get_action_zero_noise _ _ _ _ Hg2).
  - exact (get_action_training_state _ _ _ _ _ Hg).
Qed.

Lemma test_episode_steps (fuel : nat) (o : Vec) (d : bool) (ret : Qc) (len : Z)
    (w w' : World) :
  test_episode cfg act_dim act_limit fuel o d ret len w = Ok w' ->
  exists k,
    trace w' = trace w ++ replicate k EvTestStep /\
    (0 <= len <= max_ep_len cfg -> Z.of_nat k <= max_ep_len cfg - len) /\
    training_state w' = training_state w.
Proof.
  revert o d ret len w. induction fuel as [| fuel IH]; intros o d ret len w;
    cbn [test_episode]; destruct (negb (d || (len =? max_ep_len cfg))) eqn:Hcont.
  - discriminate.
  - intros [= <-]. exists 0%nat. cbn. rewrite app_nil_r.
    split; [reflexivity |]. split; [lia | reflexivity].
  - destruct (get_action act_dim act_limit o 0%Qc w) as [[a w1] | e] eqn:Hg;
      [| discriminate].
    cbn [mbind Result_bind].
    destruct (env_step a (test_env w1)) as [[[o2 r] d2] e].
    intros Hrest. destruct (IH _ _ _ _ _ Hrest) as (k & Htr & Hk & Hfr).
    apply get_action_training_state in Hg as (Hfr1 & _ & _ & Htr1).
    apply negb_true_iff, orb_false_iff in Hcont as [_ Hne].
    apply Z.eqb_neq in Hne.
    exists (S k). cbn in Htr. rewrite Htr, Htr1, <- app_assoc.
    split; [reflexivity |]. split; [lia |].
    rewrite Hfr, <- Hfr1. reflexivity.
  - intros [= <-]. exists 0%nat. cbn. rewrite app_nil_r.
    split; [reflexivity |]. split; [lia | reflexivity].
Qed.

Lemma test_agent_steps (fuel : nat) (w w' : World) :
  test_agent cfg act_dim act_limit fuel w = Ok w' ->
  exists k,
    trace w' = trace w ++ replicate k EvTestStep /\
    (0 <= max_ep_len cfg ->
     Z.of_nat k <= Z.max 0 (num_test_episodes cfg) * max_ep_len cfg) /\
    training_state w' = training_state w.
Proof.
  unfold test_agent. intros Hrun.
  apply (for_each_range_inv _
           (fun j w0 => exists k,
                trace w0 = trace w ++ replicate k EvTestStep /\
                (0 <= max_ep_len cfg -> Z.of_nat k <= j * max_ep_len cfg) /\
                training_state w0 = training_state w)) in Hrun.
  - exact Hrun.
  - exists 0%nat. cbn. rewrite app_nil_r. split; [reflexivity |]. split; [lia | reflexivity].
  - intros j w0 w1 Hj (k & Htr & Hk & Hfr).
    destruct (env_reset (test_env w0)) as [o e].
    intros Hep. destruct (test_episode_steps _ _ _ _ _ _ _ Hep) as (k1 & Htr1 & Hk1 & Hfr1).
    exists (k + k1)%nat. cbn in Htr1.
    rewrite Htr1, Htr, replicate_add, <- app_assoc.
    split; [reflexivity |]. split; [intros Hmax; specialize (Hk Hmax); lia |].
    rewrite Hfr1. exact Hfr.
Qed.

(** X5. [test_agent] steps the test environment only: it leaves the
    training environment, the replay buffer, the live and target parameters,
    the optimizer states and the checkpoint files as they are, and records
    nothing but test steps, at most [num_test_episodes * max_ep_len] of
    them (none at all when [max_ep_len = 0]).  It returns whenever the actor
    hands out actions of [act_dim] components. *)
Theorem test_agent_frame (fuel : nat) (w : World) :
  0 <= max_ep_len cfg ->
  (forall w',
      test_agent cfg act_dim act_limit fuel w = Ok w' ->
      exists k,
        trace w' = trace w ++ replicate k EvTestStep /\
        Z.of_nat k <= Z.max 0 (num_test_episodes cfg) * max_ep_len cfg /\
        (max_ep_len cfg = 0 -> k = 0%nat) /\
        env w' = env w /\ replay_buffer w' = replay_buffer w /\
        ac w' = ac w /\ ac_targ w' = ac_targ w /\
        pi_optimizer w' = pi_optimizer w /\ q_optimizer w' = q_optimizer w /\
        files w' = files w) /\
  (0 <= act_dim ->
   (forall params o, length (ac_act params o) = Z.to_nat act_dim) ->
   max_ep_len cfg <= Z.of_nat fuel ->
   exists w', test_agent cfg act_dim act_limit fuel w = Ok w').
Proof.
  intros Hmax. split.
  - intros w' Hrun. destruct (test_agent_steps _ _ _ Hrun) as (k & Htr & Hk & Hfr).
    specialize (Hk Hmax). exists k.
    split; [exact Htr |]. split; [exact Hk |]. split; [intros Hz; rewrite Hz in Hk; lia |].
    unfold training_state, learner in Hfr. injection Hfr as -> -> -> -> -> -> ->.
    repeat split; reflexivity.
  - intros Hd Hshape Hfuel. apply test_agent_total; [assumption | assumption | lia].
Qed.

End Evaluation.

Lemma get_action_deterministic_witness :
  exists a w',
    get_action (H1 := toy_logger) 2 (Q2Qc 2) [0%Qc] 0%Qc
      (toy_world toy_b0 (rs_of_words [])) = Ok (a, w') /\
    a = np_clip (ac_act (ActorCritic := toy_ac) [1%Qc] [0%Qc]) 0%Qc (Q2Qc 2).
Proof.
  pose (run := get_action (H1 := toy_logger) 2 (Q2Qc 2) [0%Qc] 0%Qc
                 (toy_world toy_b0 (rs_of_words []))).
  pose (r := match run with Ok x => x | Raise _ => ([], toy_world toy_b0 (rs_of_words [])) end).
  assert (Hrun : run = Ok (r.1, r.2)) by (vm_compute; reflexivity).
  exists r.1, r.2. split; [exact Hrun |].
  exact (proj1 (get_action_deterministic (H1 := toy_logger) 2 (Q2Qc 2) [0%Qc]
                  (toy_world toy_b0 (rs_of_words [])) r.2 r.1 Hrun)).
Defined.

Lemma test_agent_frame_witness :
  0 <= max_ep_len toy_cfg /\
  exists w',
    test_agent (H1 := toy_logger) toy_cfg 2 (Q2Qc 2) 1 (toy_world toy_b0 (rs_of_words []))
    = Ok w' /\
    replay_buffer w' = toy_b0 /\ ac w' = [1%Qc] /\ ac_targ w' = [0%Qc].
Proof.
  assert (Hmax : 0 <= max_ep_len toy_cfg) by (cbn; lia).
  split; [exact Hmax |].
  destruct (test_agent_frame (H1 := toy_logger) toy_cfg 2 (Q2Qc 2) 1
              (toy_world toy_b0 (rs_of_words [])) Hmax) as [Hframe Htotal].
  destruct (Htotal ltac:(lia) ltac:(reflexivity) ltac:(cbn; lia)) as (w' & Hrun).
  destruct (Hframe w' Hrun) as (k & _ & _ & _ & _ & Hb & Hac & Htarg & _).
  exists w'. split; [exact Hrun |]. split; [exact Hb |]. split; [exact Hac | exact Htarg].
Defined.

(** ** Checkpoints: writing and reading back *)

Section Checkpoints.

Context `{EpochLogger}.

Lemma save_model_fields (cfg : Config) (epoch : Z) (key : Qc) (w : World) :
  let w' := save_model cfg epoch key w in
  env w' = env w /\ test_env w' = test_env w /\ rng w' = rng w /\
  replay_buffer w' = replay_buffer w /\ learner w' = learner w /\
  logger w' = logger w /\ trace w' = trace w ++ [EvSaveModel epoch key].
Proof. repeat split; reflexivity. Qed.

(** X6. What [save_model] writes can be read back: [torch.load] at the path
    it wrote returns the epoch, the live parameters and the two optimizer
    states of the moment of the call, an older file at that path is
    replaced, and every other file is as before.  The bundle holds no target
    network: when the file is the one eval mode looks for, loading it sets
    both the live and the target parameters to the saved live ones. *)
Theorem save_model_round_trip (cfg : Config) (epoch : Z) (key : Qc) (w : World) :
  let savepath :=
    path_join (path_join (output_dir cfg) "checkpoints") (ckpt_file_name epoch key) in
  let w' := save_model cfg epoch key w in
  (exists c,
      torch_load savepath w' = Ok c /\
      ck_epoch c = epoch /\ model_state_dict c = ac w /\
      pi_optimizer_state_dict c = pi_optimizer w /\
      q_optimizer_state_dict c = q_optimizer w) /\
  (forall p, p <> savepath -> torch_load p w' = torch_load p w) /\
  (ckpt_file_name epoch key = "ckpt_1_-183.19.pth" ->
   exists w2,
     load_checkpoint cfg w' = Ok w2 /\
     ac w2 = ac w /\ ac_targ w2 = ac w /\
     pi_optimizer w2 = pi_optimizer w /\ q_optimizer w2 = q_optimizer w).
Proof.
  cbv zeta. split; [| split].
  - eexists. split.
    + unfold torch_load, save_model. cbn [files emit set_files].
      rewrite lookup_insert_eq. reflexivity.
    + repeat split; reflexivity.
  - intros p Hp. unfold torch_load, save_model. cbn [files emit set_files].
    rewrite lookup_insert_ne by congruence. reflexivity.
  - intros Hname. eexists. split.
    + apply load_checkpoint_found. unfold chkpt_file, save_model.
      cbn [files emit set_files]. rewrite Hname. apply lookup_insert_eq.
    + repeat split; reflexivity.
Qed.

(** In eval mode, [ddpg] is the setup with the checkpoint loaded, followed by
    [test_agent]. *)
Lemma ddpg_eval_inv (cfg : Config) (fuel : nat) (s : Start) (w' : World) :
  mode cfg = Eval ->
  ddpg cfg fuel s = Ok w' ->
  exists limit buf c,
    act_limit_of (s_env s) = Ok limit /\
    ReplayBuffer_init (observation_dim (s_env s)) (action_space_shape0 (s_env s))
      (replay_size cfg) = Ok buf /\
    s_files s !! chkpt_file cfg = Some c /\
    test_agent cfg (action_space_shape0 (s_env s)) limit fuel
      (set_replay_buffer buf
         (set_learner (model_state_dict c) (model_state_dict c)
            (pi_optimizer_state_dict c) (q_optimizer_state_dict c)
            (emit (EvLoadCheckpoint (chkpt_file cfg)) (initial_world s)))) = Ok w'.
Proof.
  intros Hmode. unfold ddpg, ddpg_setup. rewrite Hmode.
  destruct (exp_name_of cfg) as [name | ex]; [| discriminate].
  cbn [mbind Result_bind].
  destruct (act_limit_of (s_env s)) as [limit | ex]; [| discriminate].
  cbn [mbind Result_bind].
  destruct (s_files s !! chkpt_file cfg) as [c |] eqn:Hfile.
  - rewrite (load_checkpoint_found cfg (initial_world s) c Hfile).
    cbn [mbind Result_bind].
    destruct (ReplayBuffer_init _ _ _) as [buf | ex]; [| discriminate].
    cbn [mbind Result_bind]. intros Hrun. exists limit, buf, c. repeat split.
    exact Hrun.
  - rewrite (load_checkpoint_missing cfg (initial_world s) Hfile). discriminate.
Qed.

(** X7. An eval-mode run that returns has loaded the checkpoint and stepped
    the test environment, nothing else: its record is the load followed by
    test steps only (at most [num_test_episodes * max_ep_len]), the live and
    target parameters are the checkpoint's, the replay buffer is the empty
    one it was created as, the training environment was never used and no
    file was written. *)
Theorem eval_mode_only_evaluates (cfg : Config) (fuel : nat) (s : Start) (w' : World) :
  mode cfg = Eval ->
  0 <= max_ep_len cfg ->
  ddpg cfg fuel s = Ok w' ->
  exists c k,
    s_files s !! chkpt_file cfg = Some c /\
    trace w' = EvLoadCheckpoint (chkpt_file cfg) :: replicate k EvTestStep /\
    Z.of_nat k <= Z.max 0 (num_test_episodes cfg) * max_ep_len cfg /\
    ac w' = model_state_dict c /\ ac_targ w' = model_state_dict c /\
    pi_optimizer w' = pi_optimizer_state_dict c /\
    q_optimizer w' = q_optimizer_state_dict c /\
    ReplayBuffer_init (observation_dim (s_env s)) (action_space_shape0 (s_env s))
      (replay_size cfg) = Ok (replay_buffer w') /\
    size (replay_buffer w') = 0 /\
    env w' = s_env s /\ files w' = s_files s.
Proof.
  intros Hmode Hmax Hrun.
  destruct (ddpg_eval_inv cfg fuel s w' Hmode Hrun) as (limit & buf & c & _ & Hinit & Hfile & Hta).
  destruct (test_agent_steps _ _ _ _ _ _ Hta) as (k & Htr & Hk & Hfr).
  exists c, k. split; [exact Hfile |].
  unfold training_state, learner in Hfr. injection Hfr as -> -> -> -> -> -> ->.
  cbn in Htr |- *. rewrite Htr.
  split; [reflexivity |]. split; [exact (Hk Hmax) |].
  do 4 (split; [reflexivity |]). split; [exact Hinit |]. split; [| split; reflexivity].
  revert Hinit. unfold ReplayBuffer_init.
  repeat (match goal with |- context [mbind _ ?m] => destruct m; [| discriminate] end;
          cbn [mbind Result_bind]).
  intros [= <-]. reflexivity.
Qed.

End Checkpoints.

Lemma eval_mode_only_evaluates_witness :
  mode toy_eval_cfg = Eval /\ 0 <= max_ep_len toy_eval_cfg /\
  exists w',
    ddpg (H1 := toy_logger) toy_eval_cfg 1 toy_eval_start = Ok w' /\
    ac w' = [Q2Qc 7] /\ ac_targ w' = [Q2Qc 7] /\ size (replay_buffer w') = 0.
Proof.
  assert (Hmax : 0 <= max_ep_len toy_eval_cfg) by (cbn; lia).
  split; [reflexivity |]. split; [exact Hmax |].
  pose (run := ddpg (H1 := toy_logger) toy_eval_cfg 1 toy_eval_start).
  pose (w' := match run with Ok x => x | Raise _ => initial_world toy_eval_start end).
  assert (Hrun : run = Ok w') by (vm_compute; reflexivity).
  assert (Hfile : s_files toy_eval_start !! chkpt_file toy_eval_cfg = Some toy_checkpoint)
    by apply lookup_singleton_eq.
  destruct (eval_mode_only_evaluates (H1 := toy_logger) toy_eval_cfg 1 toy_eval_start w'
              eq_refl Hmax Hrun)
    as (c & k & Hc & _ & _ & Hac & Htarg & _ & _ & _ & Hsize & _).
  rewrite Hfile in Hc. injection Hc as <-.
  exists w'. split; [exact Hrun |]. split; [exact Hac |]. split; [exact Htarg | exact Hsize].
Defined.

(** ** The experiment name *)

Lemma split_slash_length (s : string) :
  length (split_slash s) = S (count_slashes s).
Proof.
  induction s as [| c rest IH]; [reflexivity |].
  cbn [split_slash count_slashes]. destruct (is_slash c).
  - cbn [length]. now rewrite IH.
  - destruct (split_slash rest) as [| piece pieces]; [discriminate |].
    cbn [length] in *. lia.
Qed.

Lemma split_slash_component (a rest : string) :
  count_slashes a = 0%nat ->
  split_slash (a +:+ "/" +:+ rest) = a :: split_slash rest.
Proof.
  induction a as [| c a IH]; intros Hnone.
  - reflexivity.
  - cbn [count_slashes] in Hnone.
    change (String c a +:+ "/" +:+ rest) with (String c (a +:+ "/" +:+ rest)).
    cbn [split_slash].
    destruct (is_slash c); [discriminate |].
    rewrite IH by exact Hnone. reflexivity.
Qed.

Lemma split_slash_last (a : string) :
  count_slashes a = 0%nat -> split_slash a = [a].
Proof.
  induction a as [| c a IH]; intros Hnone; [reflexivity |].
  cbn [count_slashes] in Hnone. cbn [split_slash].
  destruct (is_slash c); [discriminate |].
  rewrite IH by exact Hnone. reflexivity.
Qed.

(** X8. [ddpg] takes the experiment name to be the second ['/']-separated
    piece of [output_dir]: for [a/b] and for [a/b/...] (no ['/'] in [a] and
    [b]) it is [b], not the last piece.  An [output_dir] without any ['/']
    has no second piece, and [ddpg] then raises [IndexError] in every mode,
    before anything else is done. *)
Theorem exp_name_second_component :
  (forall (cfg : Config) (a b : string),
      count_slashes a = 0%nat -> count_slashes b = 0%nat ->
      (output_dir cfg = a +:+ "/" +:+ b -> exp_name_of cfg = Ok b) /\
      (forall rest, output_dir cfg = a +:+ "/" +:+ b +:+ "/" +:+ rest ->
                    exp_name_of cfg = Ok b)) /\
  (forall (cfg : Config),
      (0 < count_slashes (output_dir cfg))%nat <-> is_Ok (exp_name_of cfg)) /\
  (forall `{EpochLogger} (cfg : Config) (fuel : nat) (s : Start),
      count_slashes (output_dir cfg) = 0%nat ->
      ddpg_setup cfg s = Raise IndexError /\ ddpg cfg fuel s = Raise IndexError).
Proof.
  assert (Hnone : forall cfg, count_slashes (output_dir cfg) = 0%nat ->
                              exp_name_of cfg = Raise IndexError).
  { intros cfg Hz. unfold exp_name_of. now rewrite split_slash_last. }
  split; [| split].
  - intros cfg a b Ha Hb. split.
    + intros Hdir. unfold exp_name_of. rewrite Hdir.
      rewrite split_slash_component, split_slash_last by assumption. reflexivity.
    + intros rest Hdir. unfold exp_name_of. rewrite Hdir.
      rewrite split_slash_component by assumption.
      rewrite split_slash_component by assumption.
      unfold np_getitem. rewrite np_index_in_range by (cbn [length]; lia).
      reflexivity.
  - intros cfg. split.
    + intros Hpos. unfold exp_name_of, np_getitem.
      pose proof (split_slash_length (output_dir cfg)) as Hlen.
      rewrite np_index_in_range by lia. cbn [mbind Result_bind].
      destruct (split_slash (output_dir cfg) !! Z.to_nat 1) as [name |] eqn:Hname;
        [now exists name |].
      apply lookup_ge_None in Hname. lia.
    + intros [name Hname].
      destruct (count_slashes (output_dir cfg)) eqn:Hz; [| lia].
      rewrite (Hnone cfg Hz) in Hname. discriminate.
  - intros G A L cfg fuel s Hz. unfold ddpg, ddpg_setup.
    rewrite (Hnone cfg Hz). split; reflexivity.
Qed.

Lemma exp_name_second_component_witness :
  exp_name_of toy_cfg = Ok "out" /\
  count_slashes (output_dir flat_dir_cfg) = 0%nat /\
  ddpg (H1 := toy_logger) flat_dir_cfg 1 toy_start = Raise IndexError.
Proof.
  destruct exp_name_second_component as (Hname & _ & Hflat).
  split; [| split].
  - exact (proj1 (Hname toy_cfg "data" "out" eq_refl eq_refl) eq_refl).
  - reflexivity.
  - exact (proj2 (Hflat toy_env toy_ac toy_logger flat_dir_cfg 1%nat toy_start eq_refl)).
Defined.

(** ** The phases of an iteration, in full *)

Lemma for_each_app {St X} (body : X -> St -> Result St) (xs ys : list X) (s : St) :
  for_each body (xs ++ ys) s = (s' ← for_each body xs s; for_each body ys s').
Proof.
  revert s. induction xs as [| x xs IH]; intros s; [reflexivity |].
  cbn [for_each app]. destruct (body x s) as [s1 | e]; [| reflexivity].
  cbn [mbind Result_bind]. apply IH.
Qed.

(** A loop that returns has run its body, with a normal return, on every
    element. *)
Lemma for_each_Ok_elem {St X} (body : X -> St -> Result St) (xs : list X) (s s' : St)
    (x : X) :
  for_each body xs s = Ok s' -> x ∈ xs -> exists s0 s1, body x s0 = Ok s1.
Proof.
  revert s. induction xs as [| y xs IH]; intros s Hrun Hin.
  - apply elem_of_nil in Hin. contradiction.
  - cbn [for_each] in Hrun. destruct (body y s) as [s1 | e] eqn:Hb; [| discriminate].
    cbn [mbind Result_bind] in Hrun.
    apply elem_of_cons in Hin as [-> | Hin]; [eauto | eapply IH; eassumption].
Qed.

Lemma store_log_app (tr1 tr2 : list Event) :
  store_log (tr1 ++ tr2) = store_log tr1 ++ store_log tr2.
Proof.
  induction tr1 as [| e tr1 IH]; [reflexivity |].
  destruct e; cbn; rewrite ?IH; reflexivity.
Qed.

Lemma state_saves_app (tr1 tr2 : list Event) :
  state_saves (tr1 ++ tr2) = state_saves tr1 ++ state_saves tr2.
Proof.
  induction tr1 as [| e tr1 IH]; [reflexivity |].
  destruct e; cbn; rewrite ?IH; reflexivity.
Qed.

Lemma store_log_burst (idxss : list (list Z)) :
  store_log (concat (map update_block idxss)) = [].
Proof. induction idxss as [| idxs rest IH]; [reflexivity | exact IH]. Qed.

Lemma state_saves_burst (idxss : list (list Z)) :
  state_saves (concat (map update_block idxss)) = [].
Proof. induction idxss as [| idxs rest IH]; [reflexivity | exact IH]. Qed.

Lemma count_burst (p : Event -> bool) (idxss : list (list Z)) :
  (forall idxs, count_events p (update_block idxs) = 0%nat) ->
  count_events p (concat (map update_block idxss)) = 0%nat.
Proof.
  intros Hp. induction idxss as [| idxs rest IH]; [reflexivity |].
  cbn [map concat]. rewrite count_events_app, Hp, IH. reflexivity.
Qed.

Lemma store_log_test_steps (k : nat) : store_log (replicate k EvTestStep) = [].
Proof. induction k as [| k IH]; [reflexivity | exact IH]. Qed.

Lemma state_saves_test_steps (k : nat) : state_saves (replicate k EvTestStep) = [].
Proof. induction k as [| k IH]; [reflexivity | exact IH]. Qed.

Lemma count_test_steps (p : Event -> bool) (k : nat) :
  p EvTestStep = false -> count_events p (replicate k EvTestStep) = 0%nat.
Proof.
  intros Hp. induction k as [| k IH]; [reflexivity |].
  unfold count_events in *. cbn [replicate List.filter]. now rewrite Hp.
Qed.

Section Phases.

Context `{EpochLogger}.
Variables (cfg : Config) (act_dim : Z) (act_limit : Qc).

(** The episode ends at the same steps with the corrected [done] as with
    the environment's. *)
Lemma correct_done_episode_end (n : Z) (d : bool) :
  correct_done cfg n d || (n =? max_ep_len cfg) = d || (n =? max_ep_len cfg).
Proof.
  unfold correct_done. destruct (n =? max_ep_len cfg); [| reflexivity].
  now rewrite !orb_true_r.
Qed.

Lemma loop_body_phases (fuel : nat) (t : Z) (l l' : Locals) (w w' : World) :
  loop_body cfg act_dim act_limit fuel t (l, w) = Ok (l', w') ->
  exists a w1 l2 w2 w3,
    select_action cfg act_dim act_limit t l w = Ok (a, w1) /\
    interact cfg t a l w1 = Ok (l2, w2) /\
    update_handling cfg t w2 = Ok w3 /\
    epoch_handling cfg act_dim act_limit fuel t l2 w3 = Ok (l', w').
Proof.
  unfold loop_body.
  destruct (select_action cfg act_dim act_limit t l w) as [[a w1] | e] eqn:Hsel;
    [| discriminate].
  cbn [mbind Result_bind].
  destruct (interact cfg t a l w1) as [[l2 w2] | e] eqn:Hint; [| discriminate].
  cbn [mbind Result_bind].
  destruct (update_handling cfg t w2) as [w3 | e] eqn:Hupd; [| discriminate].
  cbn [mbind Result_bind]. intros Hep.
  exists a, w1, l2, w2, w3. repeat split; assumption.
Qed.

Lemma select_action_spec (t : Z) (l : Locals) (w w' : World) (a : Vec) :
  select_action cfg act_dim act_limit t l w = Ok (a, w') ->
  trace w' = trace w ++ [action_event cfg t] /\
  replay_buffer w' = replay_buffer w /\ learner w' = learner w /\
  files w' = files w /\ test_env w' = test_env w /\ logger w' = logger w.
Proof.
  unfold select_action, action_event. destruct (start_steps cfg <? t).
  - intros Hg.
    destruct (get_action_inv _ _ _ _ _ _ _ Hg) as (? & ? & ? & _ & _ & _ & ->).
    repeat split; reflexivity.
  - destruct (action_space_sample (env w)) as [a0 e]. intros [= <- <-].
    repeat split; reflexivity.
Qed.

Lemma interact_spec (t : Z) (a : Vec) (l l' : Locals) (w w' : World) :
  interact cfg t a l w = Ok (l', w') ->
  exists o2 r d e,
    env_step a (env w) = (o2, r, d, e) /\
    let tr := {| t_obs := o l; t_act := a; t_rew := r; t_obs2 := o2;
                 t_done := correct_done cfg (ep_len l + 1) d |} in
    let ended := d || (ep_len l + 1 =? max_ep_len cfg) in
    store tr (replay_buffer w) = Ok (replay_buffer w') /\
    trace w' = trace w ++ [EvEnvStep t; EvStore t tr] ++
               (if ended then [EvEpisodeEnd t] else []) /\
    ep_len l' = (if ended then 0 else ep_len l + 1) /\
    o l' = (if ended then (env_reset e).1 else o2) /\
    prev_best l' = prev_best l /\
    learner w' = learner w /\ files w' = files w /\ test_env w' = test_env w /\
    rng w' = rng w.
Proof.
  unfold interact.
  destruct (env_step a (env w)) as [[[o2 r] d] e] eqn:Hstep.
  cbn [emit set_env replay_buffer].
  destruct (store _ (replay_buffer w)) as [buf' | ex] eqn:Hst; [| discriminate].
  cbn [mbind Result_bind]. intros Hi.
  exists o2, r, d, e. split; [reflexivity |]. cbv zeta.
  rewrite correct_done_episode_end in Hi.
  destruct (d || (ep_len l + 1 =? max_ep_len cfg)).
  - cbn [set_logger emit set_replay_buffer set_env env logger] in Hi.
    destruct (env_reset e) as [o0 e0]. injection Hi as <- <-.
    cbn. rewrite <- !app_assoc. repeat split; try reflexivity. exact Hst.
  - injection Hi as <- <-. cbn. rewrite <- !app_assoc.
    repeat split; try reflexivity. exact Hst.
Qed.

Lemma update_handling_idle (t : Z) (w w' : World) :
  update_due cfg t = false -> update_handling cfg t w = Ok w' -> w' = w.
Proof.
  unfold update_handling, update_due, py_mod.
  destruct (update_after cfg <=? t); cbn [andb]; [| now intros _ [= <-]].
  destruct (update_every cfg =? 0); [discriminate |].
  cbn [mbind Result_bind]. intros ->. now intros [= <-].
Qed.

Lemma epoch_handling_spec (fuel : nat) (t : Z) (l l' : Locals) (w w' : World) :
  epoch_handling cfg act_dim act_limit fuel t l w = Ok (l', w') ->
  steps_per_epoch cfg <> 0 /\
  o l' = o l /\ ep_ret l' = ep_ret l /\ ep_len l' = ep_len l /\
  replay_buffer w' = replay_buffer w /\ learner w' = learner w /\ env w' = env w /\
  if (t + 1) mod steps_per_epoch cfg =? 0 then
    let epoch := (t + 1) / steps_per_epoch cfg in
    save_freq cfg <> 0 /\
    exists k avg,
      trace w' =
        trace w ++ (if state_save_due cfg epoch then [EvSaveState epoch] else []) ++
        replicate k EvTestStep ++ [EvEpochStats epoch avg] ++
        (if exceeds_best avg (prev_best l) then [EvSaveModel epoch avg] else []) /\
      (0 <= max_ep_len cfg ->
       Z.of_nat k <= Z.max 0 (num_test_episodes cfg) * max_ep_len cfg) /\
      prev_best l' = max_best (prev_best l) avg
  else w' = w /\ l' = l.
Proof.
  unfold epoch_handling, py_mod, py_floordiv.
  destruct (Z.eqb_spec (steps_per_epoch cfg) 0) as [? | Hspe]; [discriminate |].
  cbn [mbind Result_bind].
  destruct ((t + 1) mod steps_per_epoch cfg =? 0);
    [| intros [= <- <-]; repeat split; try reflexivity; assumption].
  destruct (Z.eqb_spec (save_freq cfg) 0) as [? | Hsf]; [discriminate |].
  cbn [mbind Result_bind].
  set (epoch := (t + 1) / steps_per_epoch cfg).
  fold (state_save_due cfg epoch).
  set (w1 := if state_save_due cfg epoch
             then emit (EvSaveState epoch)
                    (set_logger (logger_save_state (env w) (logger w)) w)
             else w).
  assert (Hw1 : trace w1 = trace w ++ (if state_save_due cfg epoch
                                       then [EvSaveState epoch] else []) /\
                training_state w1 = training_state w).
  { subst w1. destruct (state_save_due cfg epoch).
    - split; reflexivity.
    - rewrite app_nil_r. split; reflexivity. }
  destruct Hw1 as (Htr1 & Hfr1). clearbody w1.
  destruct (test_agent cfg act_dim act_limit fuel w1) as [w2 | e] eqn:Hta; [| discriminate].
  cbn [mbind Result_bind].
  destruct (test_agent_steps _ _ _ _ _ _ Hta) as (k & Htr2 & Hk & Hfr2).
  rewrite Hfr1 in Hfr2.
  unfold training_state, learner in Hfr2. injection Hfr2 as He Hb Hac Htarg Hpi Hq Hfiles.
  set (avg := logger_episode_return_mean (logger w2)).
  intros [= <- <-]. cbn [prev_best o ep_ret ep_len].
  split; [assumption |]. do 3 (split; [reflexivity |]).
  split; [| split; [| split]].
  - destruct (exceeds_best avg (prev_best l)); cbn; congruence.
  - unfold learner. destruct (exceeds_best avg (prev_best l)); cbn; congruence.
  - destruct (exceeds_best avg (prev_best l)); cbn; congruence.
  - split; [assumption |]. exists k, avg. split; [| split; [exact Hk | reflexivity]].
    destruct (exceeds_best avg (prev_best l)); cbn;
      rewrite Htr2, Htr1, <- !app_assoc; reflexivity.
Qed.

End Phases.

Section Iteration.

Context `{EpochLogger}.
Variables (cfg : Config) (act_dim : Z) (act_limit : Qc) (fuel : nat).

(** One iteration of the main loop, in full: what it records, what it
    stores, how the episode length and the learner move. *)
Lemma loop_body_spec (t : Z) (l l' : Locals) (w w' : World) :
  loop_body cfg act_dim act_limit fuel t (l, w) = Ok (l', w') ->
  exists tr ended idxss post,
    trace w' =
      trace w ++ step_events cfg t tr ended ++ concat (map update_block idxss) ++ post /\
    store tr (replay_buffer w) = Ok (replay_buffer w') /\
    (ended = false -> ep_len l + 1 <> max_ep_len cfg) /\
    ep_len l' = (if ended then 0 else ep_len l + 1) /\
    Z.of_nat (length idxss) =
      (if update_due cfg t then Z.max 0 (update_every cfg) else 0) /\
    (update_due cfg t = false -> learner w' = learner w) /\
    steps_per_epoch cfg <> 0 /\
    (if (t + 1) mod steps_per_epoch cfg =? 0 then
       let epoch := (t + 1) / steps_per_epoch cfg in
       save_freq cfg <> 0 /\
       exists k avg,
         post = epoch_events cfg epoch k avg (exceeds_best avg (prev_best l)) /\
         (0 <= max_ep_len cfg ->
          Z.of_nat k <= Z.max 0 (num_test_episodes cfg) * max_ep_len cfg) /\
         prev_best l' = max_best (prev_best l) avg
     else post = [] /\ prev_best l' = prev_best l) /\
    (forall od ad : nat,
        env_shaped od ad -> ad = Z.to_nat act_dim ->
        (forall params o, length (ac_act params o) = Z.to_nat act_dim) ->
        length (o l) = od ->
        tr_shaped od ad tr /\ length (o l') = od).
Proof.
  intros Hbody.
  destruct (loop_body_phases _ _ _ _ _ _ _ _ _ Hbody)
    as (a & w1 & l2 & w2 & w3 & Hsel & Hint & Hupd & Hep).
  destruct (select_action_spec _ _ _ _ _ _ _ _ Hsel)
    as (Htr1 & Hb1 & Hl1 & _).
  destruct (interact_spec _ _ _ _ _ _ _ Hint)
    as (o2 & r & d & e & Hstep & Hst & Htr2 & Hlen2 & Ho2 & Hpb2 & Hl2 & _).
  cbv zeta in Hst, Htr2, Hlen2, Ho2.
  destruct (update_handling_inv _ _ _ _ Hupd) as (idxss & Hlen & Htr3 & Hb3).
  destruct (epoch_handling_spec _ _ _ _ _ _ _ _ _ Hep)
    as (Hspe & Ho4 & _ & Hlen4 & Hb4 & Hl4 & _ & Hpost).
  set (tr := {| t_obs := o l; t_act := a; t_rew := r; t_obs2 := o2;
                t_done := correct_done cfg (ep_len l + 1) d |}) in *.
  set (ended := d || (ep_len l + 1 =? max_ep_len cfg)) in *.
  assert (Htrace3 : trace w3 = trace w ++ step_events cfg t tr ended
                               ++ concat (map update_block idxss)).
  { rewrite Htr3, Htr2, Htr1. unfold step_events. cbn. rewrite <- !app_assoc. reflexivity. }
  assert (Hstore : store tr (replay_buffer w) = Ok (replay_buffer w')).
  { rewrite Hb4, Hb3, <- Hb1. exact Hst. }
  assert (Hended : ended = false -> ep_len l + 1 <> max_ep_len cfg).
  { subst ended. intros Hn. apply orb_false_iff in Hn as [_ Hn].
    now apply Z.eqb_neq in Hn. }
  assert (Heplen : ep_len l' = (if ended then 0 else ep_len l + 1)).
  { rewrite Hlen4. exact Hlen2. }
  assert (Hidle : update_due cfg t = false -> learner w' = learner w).
  { intros Hidle. rewrite Hl4, (update_handling_idle _ _ _ _ Hidle Hupd), Hl2. exact Hl1. }
  assert (Hshapes : forall od ad : nat,
             env_shaped od ad -> ad = Z.to_nat act_dim ->
             (forall params o, length (ac_act params o) = Z.to_nat act_dim) ->
             length (o l) = od ->
             tr_shaped od ad tr /\ length (o l') = od).
  { intros od ad (Hreset & Hstepsh & Hsample) Had Hshape Hol.
    assert (Ha : length a = ad).
    { rewrite Had. eapply select_action_shape; [exact Hshape | | exact Hsel].
      intros e0. rewrite <- Had. apply Hsample. }
    pose proof (Hstepsh a (env w1)) as Hlo2. rewrite Hstep in Hlo2. cbn [fst] in Hlo2.
    split; [repeat split; assumption |].
    rewrite Ho4, Ho2. destruct ended; [apply Hreset | exact Hlo2]. }
  destruct ((t + 1) mod steps_per_epoch cfg =? 0).
  - destruct Hpost as (Hsf & k & avg & Htr4 & Hk & Hpb).
    rewrite Hpb2 in Htr4, Hpb.
    exists tr, ended, idxss,
      (epoch_events cfg ((t + 1) / steps_per_epoch cfg) k avg
         (exceeds_best avg (prev_best l))).
    split; [rewrite Htr4, Htrace3, <- !app_assoc; reflexivity |].
    do 5 (split; [assumption |]). split; [exact Hspe |].
    split; [| exact Hshapes].
    split; [exact Hsf |]. exists k, avg. split; [reflexivity | split; assumption].
  - destruct Hpost as [-> ->].
    exists tr, ended, idxss, [].
    split; [rewrite Htrace3, app_nil_r; reflexivity |].
    do 5 (split; [assumption |]). split; [exact Hspe |].
    split; [| exact Hshapes].
    split; [reflexivity | exact Hpb2].
Qed.

End Iteration.

(** ** Whole runs *)

Section Runs.

Context `{EpochLogger}.
Variables (cfg : Config) (act_dim : Z) (act_limit : Qc) (fuel : nat).

(** Invariants of the main loop. *)
Lemma train_invariant (P : Z -> Locals -> World -> Prop) (w w' : World) (l' : Locals) :
  train cfg act_dim act_limit fuel w = Ok (l', w') ->
  (forall o0 e, env_reset (env w) = (o0, e) ->
     P 0 {| o := o0; ep_ret := 0%Qc; ep_len := 0; prev_best := None |} (set_env e w)) ->
  (forall t l0 w0 l1 w1,
     0 <= t < steps_per_epoch cfg * epochs cfg -> P t l0 w0 ->
     loop_body cfg act_dim act_limit fuel t (l0, w0) = Ok (l1, w1) ->
     P (t + 1) l1 w1) ->
  P (Z.max 0 (steps_per_epoch cfg * epochs cfg)) l' w'.
Proof.
  unfold train. destruct (env_reset (env w)) as [o0 e] eqn:Hreset.
  intros Hrun Hinit Hstep.
  apply (for_each_range_inv (loop_body cfg act_dim act_limit fuel)
           (fun t s => P t s.1 s.2)) in Hrun.
  - exact Hrun.
  - cbn [fst snd]. now apply Hinit.
  - intros t [l0 w0] [l1 w1] Ht HP Hb. cbn [fst snd] in *. eapply Hstep; eassumption.
Qed.

End Runs.

(** Counting in the pieces of an iteration. *)
Lemma count_step_events (p : Event -> bool) (cfg : Config) (t : Z) (tr : Transition)
    (ended : bool) :
  count_events p (step_events cfg t tr ended) =
  ((if p (action_event cfg t) then 1 else 0) + (if p (EvEnvStep t) then 1 else 0) +
   (if p (EvStore t tr) then 1 else 0) +
   (if ended && p (EvEpisodeEnd t) then 1 else 0))%nat.
Proof.
  unfold step_events, count_events. cbn [app List.filter].
  destruct (p (action_event cfg t)), (p (EvEnvStep t)), (p (EvStore t tr)), ended;
    cbn [List.filter andb length app]; try destruct (p (EvEpisodeEnd t)); reflexivity.
Qed.

Lemma count_epoch_events (p : Event -> bool) (cfg : Config) (epoch : Z) (k : nat)
    (avg : Qc) (best : bool) :
  count_events p (epoch_events cfg epoch k avg best) =
  ((if state_save_due cfg epoch && p (EvSaveState epoch) then 1 else 0) +
   (if p EvTestStep then k else 0) +
   (if p (EvEpochStats epoch avg) then 1 else 0) +
   (if best && p (EvSaveModel epoch avg) then 1 else 0))%nat.
Proof.
  unfold epoch_events. rewrite !count_events_app.
  assert (Hk : count_events p (replicate k EvTestStep) = if p EvTestStep then k else 0%nat).
  { unfold count_events. induction k as [| k IH]; [now destruct (p EvTestStep) |].
    cbn [replicate List.filter]. destruct (p EvTestStep); cbn [length]; now rewrite ?IH. }
  rewrite Hk. unfold count_events.
  destruct (state_save_due cfg epoch), best; cbn [andb List.filter length];
    try destruct (p (EvSaveState epoch)); try destruct (p (EvSaveModel epoch avg));
    destruct (p (EvEpochStats epoch avg)); cbn [length]; lia.
Qed.

(** ** The learner moves at update steps only *)

Section Warmup.

Context `{EpochLogger}.

Lemma update_due_before (cfg : Config) (t : Z) :
  t < update_after cfg -> update_due cfg t = false.
Proof.
  intros Ht. unfold update_due.
  destruct (Z.leb_spec (update_after cfg) t); [lia | reflexivity].
Qed.

Lemma action_event_cases (cfg : Config) (t : Z) :
  action_event cfg t = EvPolicyAction t \/ action_event cfg t = EvRandomAction t.
Proof. unfold action_event. destruct (start_steps cfg <? t); [left | right]; reflexivity. Qed.

(** An iteration that is not an update step records no update event. *)
Lemma loop_body_idle (cfg : Config) (act_dim : Z) (act_limit : Qc) (fuel : nat) (t : Z)
    (l l' : Locals) (w w' : World) :
  update_due cfg t = false ->
  loop_body cfg act_dim act_limit fuel t (l, w) = Ok (l', w') ->
  learner w' = learner w /\
  count_events is_update_event (trace w') = count_events is_update_event (trace w).
Proof.
  intros Hidle Hbody.
  destruct (loop_body_spec _ _ _ _ _ _ _ _ _ Hbody)
    as (tr & ended & idxss & post & Htr & _ & _ & _ & Hlen & Hl & _ & Hpost & _).
  split; [exact (Hl Hidle) |].
  rewrite Hidle in Hlen. destruct idxss; [| discriminate]. cbn [map concat app] in Htr.
  rewrite Htr, !count_events_app, count_step_events.
  assert (Hact : is_update_event (action_event cfg t) = false)
    by (destruct (action_event_cases cfg t) as [-> | ->]; reflexivity).
  rewrite Hact. cbn [is_update_event andb]. rewrite andb_false_r.
  assert (Hp : count_events is_update_event post = 0%nat).
  { destruct ((t + 1) mod steps_per_epoch cfg =? 0).
    - destruct Hpost as (_ & k & avg & -> & _). rewrite count_epoch_events.
      cbn [is_update_event]. now rewrite !andb_false_r.
    - destruct Hpost as [-> _]. reflexivity. }
  rewrite Hp. lia.
Qed.

(** X9. The networks and the optimizers change at update steps only: an
    iteration [t] with [t < update_after] or [t % update_every != 0] leaves
    the live and target parameters and both optimizer states as they were.
    A training run that never reaches [update_after] therefore ends with the
    parameters and optimizer states it started with, the target still equal
    to the live network, and not one sampling or update recorded. *)
Theorem learner_moves_at_update_steps_only (cfg : Config) (fuel : nat) :
  (forall (act_dim : Z) (act_limit : Qc) (t : Z) (l l' : Locals) (w w' : World),
      update_due cfg t = false ->
      loop_body cfg act_dim act_limit fuel t (l, w) = Ok (l', w') ->
      ac w' = ac w /\ ac_targ w' = ac_targ w /\
      pi_optimizer w' = pi_optimizer w /\ q_optimizer w' = q_optimizer w) /\
  (forall (s : Start) (w' : World),
      mode cfg = Train ->
      steps_per_epoch cfg * epochs cfg <= update_after cfg ->
      ddpg cfg fuel s = Ok w' ->
      ac w' = s_params s /\ ac_targ w' = s_params s /\
      pi_optimizer w' = s_pi_opt s /\ q_optimizer w' = s_q_opt s /\
      count_events is_update_event (trace w') = 0%nat).
Proof.
  split.
  - intros act_dim act_limit t l l' w w' Hidle Hbody.
    destruct (loop_body_idle _ _ _ _ _ _ _ _ _ Hidle Hbody) as [Hl _].
    unfold learner in Hl. injection Hl as -> -> -> ->. repeat split; reflexivity.
  - intros s w' Hmode Hwarm Hrun.
    destruct (ddpg_train_inv cfg fuel s w' Hmode Hrun) as (limit & buf & l' & _ & _ & Htrain).
    set (w0 := set_replay_buffer buf (initial_world s)) in *.
    apply (train_invariant cfg _ _ fuel
             (fun _ _ w1 => learner w1 = learner w0 /\
                            count_events is_update_event (trace w1) = 0%nat)) in Htrain.
    + destruct Htrain as [Hl Hc]. unfold learner in Hl. cbn in Hl.
      injection Hl as -> -> -> ->. repeat split. exact Hc.
    + intros o0 e _. split; reflexivity.
    + intros t l0 w1 l1 w2 Ht [Hl Hc] Hbody.
      destruct (loop_body_idle _ _ _ _ _ _ _ _ _ (update_due_before cfg t ltac:(lia)) Hbody)
        as [Hl' Hc'].
      split; congruence.
Qed.

End Warmup.

Lemma learner_moves_at_update_steps_only_witness :
  mode warmup_cfg = Train /\
  steps_per_epoch warmup_cfg * epochs warmup_cfg <= update_after warmup_cfg /\
  exists w',
    ddpg (H1 := toy_logger) warmup_cfg 1 toy_start = Ok w' /\
    ac w' = [1%Qc] /\ ac_targ w' = [1%Qc] /\
    count_events is_update_event (trace w') = 0%nat.
Proof.
  assert (Hwarm : steps_per_epoch warmup_cfg * epochs warmup_cfg <= update_after warmup_cfg)
    by (cbn; lia).
  split; [reflexivity |]. split; [exact Hwarm |].
  pose (run := ddpg (H1 := toy_logger) warmup_cfg 1 toy_start).
  pose (w' := match run with Ok x => x | Raise _ => initial_world toy_start end).
  assert (Hrun : run = Ok w') by (vm_compute; reflexivity).
  destruct (proj2 (learner_moves_at_update_steps_only (H1 := toy_logger) warmup_cfg 1)
              toy_start w' eq_refl Hwarm Hrun) as (Hac & Htarg & _ & _ & Hc).
  exists w'. split; [exact Hrun |]. split; [exact Hac |]. split; [exact Htarg | exact Hc].
Defined.

(** ** How many gradient steps a run takes *)

Lemma ceil_div_step (ue n : Z) :
  0 < ue -> 0 <= n ->
  (n + 1 + ue - 1) / ue = (n + ue - 1) / ue + (if n mod ue =? 0 then 1 else 0).
Proof.
  intros Hue Hn.
  pose proof (Z.div_mod n ue ltac:(lia)) as Hdm.
  pose proof (Z.mod_pos_bound n ue Hue) as Hr.
  destruct (Z.eqb_spec (n mod ue) 0) as [Hz | Hnz].
  - rewrite Hz, Z.add_0_r in Hdm.
    rewrite <- (Z.div_unique (n + 1 + ue - 1) ue (n / ue + 1) 0) by lia.
    rewrite <- (Z.div_unique (n + ue - 1) ue (n / ue) (ue - 1)) by lia.
    reflexivity.
  - rewrite <- (Z.div_unique (n + 1 + ue - 1) ue (n / ue + 1) (n mod ue)) by lia.
    rewrite <- (Z.div_unique (n + ue - 1) ue (n / ue + 1) (n mod ue - 1)) by lia.
    lia.
Qed.

Lemma ceil_div_multiple (ue n : Z) :
  0 < ue -> n mod ue = 0 -> (n + ue - 1) / ue = n / ue.
Proof.
  intros Hue Hz.
  pose proof (Z.div_mod n ue ltac:(lia)) as Hdm. rewrite Hz, Z.add_0_r in Hdm.
  symmetry. apply (Z.div_unique _ _ _ (ue - 1)); lia.
Qed.

Lemma due_steps_count (cfg : Config) (k : nat) :
  0 < update_every cfg -> 0 <= update_after cfg ->
  Z.of_nat (length (List.filter (update_due cfg) (seqZ 0 (Z.of_nat k)))) =
  (Z.max (Z.of_nat k) (update_after cfg) + update_every cfg - 1) / update_every cfg
  - (update_after cfg + update_every cfg - 1) / update_every cfg.
Proof.
  intros Hue Hua. induction k as [| k IH].
  - change (seqZ 0 (Z.of_nat 0)) with (@nil Z). cbn [List.filter length].
    change (Z.of_nat 0) with 0. rewrite Z.max_r by lia. lia.
  - rewrite Nat2Z.inj_succ, <- Z.add_1_r.
    rewrite (seqZ_app 0 (Z.of_nat k) 1) by lia.
    rewrite List.filter_app, length_app, Nat2Z.inj_add, IH.
    change (seqZ (0 + Z.of_nat k) 1) with [0 + Z.of_nat k]. rewrite Z.add_0_l.
    cbn [List.filter]. unfold update_due.
    destruct (Z.leb_spec (update_after cfg) (Z.of_nat k)) as [Hge | Hlt]; cbn [andb].
    + rewrite (Z.max_l (Z.of_nat k + 1)), (Z.max_l (Z.of_nat k)) by lia.
      rewrite ceil_div_step by lia.
      destruct (Z.of_nat k mod update_every cfg =? 0); cbn [length]; lia.
    + rewrite (Z.max_r (Z.of_nat k + 1)), (Z.max_r (Z.of_nat k)) by lia.
      cbn [length]. lia.
Qed.

Section GradientSteps.

Context `{EpochLogger}.

Lemma loop_body_update_count (cfg : Config) (act_dim : Z) (act_limit : Qc) (fuel : nat)
    (t : Z) (l l' : Locals) (w w' : World) :
  0 < update_every cfg ->
  loop_body cfg act_dim act_limit fuel t (l, w) = Ok (l', w') ->
  count_events is_update_begin (trace w') =
  (count_events is_update_begin (trace w) +
   (if update_due cfg t then Z.to_nat (update_every cfg) else 0))%nat.
Proof.
  intros Hue Hbody.
  destruct (loop_body_spec _ _ _ _ _ _ _ _ _ Hbody)
    as (tr & ended & idxss & post & Htr & _ & _ & _ & Hlen & _ & _ & Hpost & _).
  rewrite Htr, !count_events_app, count_step_events.
  assert (Hact : is_update_begin (action_event cfg t) = false)
    by (destruct (action_event_cases cfg t) as [-> | ->]; reflexivity).
  rewrite Hact. cbn [is_update_begin andb]. rewrite andb_false_r.
  destruct (burst_events idxss) as (_ & -> & _).
  assert (Hp : count_events is_update_begin post = 0%nat).
  { destruct ((t + 1) mod steps_per_epoch cfg =? 0).
    - destruct Hpost as (_ & k & avg & -> & _). rewrite count_epoch_events.
      cbn [is_update_begin]. now rewrite !andb_false_r.
    - destruct Hpost as [-> _]. reflexivity. }
  rewrite Hp. destruct (update_due cfg t); lia.
Qed.

(** X10. With [update_every > 0], a training run takes [update_every]
    gradient steps at each step [t] of [range(total_steps)] with
    [t >= update_after] and [t % update_every == 0], and none elsewhere.  When
    [update_every] divides both [update_after] and the total number of steps,
    that is one gradient step for each environment step from [update_after]
    on: [total_steps - update_after] in all. *)
Theorem gradient_steps_count (cfg : Config) (fuel : nat) (s : Start) (w' : World) :
  mode cfg = Train ->
  0 < update_every cfg ->
  ddpg cfg fuel s = Ok w' ->
  let n := steps_per_epoch cfg * epochs cfg in
  count_events is_update_begin (trace w') =
    (Z.to_nat (update_every cfg) * length (List.filter (update_due cfg) (py_range n)))%nat /\
  (0 <= update_after cfg <= n ->
   update_after cfg mod update_every cfg = 0 ->
   n mod update_every cfg = 0 ->
   Z.of_nat (count_events is_update_begin (trace w')) = n - update_after cfg /\
   count_events is_env_step (trace w') = Z.to_nat n).
Proof.
  intros Hmode Hue Hrun. cbv zeta.
  destruct (ddpg_train_inv cfg fuel s w' Hmode Hrun) as (limit & buf & l' & _ & _ & Htrain).
  pose proof (train_env_steps _ _ _ _ _ _ _ Htrain) as Henv. cbn in Henv.
  apply (train_invariant cfg _ _ fuel
           (fun t _ w1 =>
              0 <= t /\
              count_events is_update_begin (trace w1) =
              (Z.to_nat (update_every cfg)
               * length (List.filter (update_due cfg) (py_range t)))%nat)) in Htrain.
  - destruct Htrain as [_ Hcount].
    assert (Hrange : py_range (Z.max 0 (steps_per_epoch cfg * epochs cfg))
                     = py_range (steps_per_epoch cfg * epochs cfg)).
    { unfold py_range. destruct (Z.le_gt_cases (steps_per_epoch cfg * epochs cfg) 0).
      - rewrite Z.max_l by lia. now rewrite !seqZ_nil by lia.
      - now rewrite Z.max_r by lia. }
    rewrite Hrange in Hcount. split; [exact Hcount |].
    intros Hua Hdiv1 Hdiv2. split; [| exact Henv].
    rewrite Hcount, Nat2Z.inj_mul, Z2Nat.id by lia.
    set (n := steps_per_epoch cfg * epochs cfg) in *.
    unfold py_range. rewrite <- (Z2Nat.id n) at 1 by lia.
    rewrite due_steps_count by lia. rewrite Z2Nat.id by lia.
    rewrite Z.max_l by lia. rewrite !ceil_div_multiple by assumption.
    pose proof (Z.div_mod n (update_every cfg) ltac:(lia)) as Hdn.
    pose proof (Z.div_mod (update_after cfg) (update_every cfg) ltac:(lia)) as Hda.
    lia.
  - intros o0 e _. split; [lia |].
    change (py_range 0) with (@nil Z). cbn. lia.
  - intros t l0 w1 l1 w2 Ht [_ Hc] Hbody. split; [lia |].
    rewrite (loop_body_update_count _ _ _ _ _ _ _ _ _ Hue Hbody), Hc.
    unfold py_range. rewrite (seqZ_app 0 t 1) by lia.
    rewrite List.filter_app, length_app.
    change (seqZ (0 + t) 1) with [0 + t]. rewrite Z.add_0_l. cbn [List.filter].
    destruct (update_due cfg t); cbn [length]; lia.
Qed.

End GradientSteps.

Lemma gradient_steps_count_witness :
  mode toy_cfg = Train /\ 0 < update_every toy_cfg /\
  exists w',
    ddpg (H1 := toy_logger) toy_cfg 1 toy_start = Ok w' /\
    count_events is_update_begin (trace w') = 2%nat.
Proof.
  assert (Hue : 0 < update_every toy_cfg) by (cbn; lia).
  split; [reflexivity |]. split; [exact Hue |].
  pose (run := ddpg (H1 := toy_logger) toy_cfg 1 toy_start).
  pose (w' := match run with Ok x => x | Raise _ => initial_world toy_start end).
  assert (Hrun : run = Ok w') by (vm_compute; reflexivity).
  exists w'. split; [exact Hrun |].
  exact (proj1 (gradient_steps_count (H1 := toy_logger) toy_cfg 1 toy_start w'
                  eq_refl Hue Hrun)).
Defined.

(** ** The replay buffer at the end of a run *)

Lemma store_all_app (trs1 trs2 : list Transition) (b : ReplayBuffer) :
  store_all (trs1 ++ trs2) b = (b' ← store_all trs1 b; store_all trs2 b').
Proof.
  revert b. induction trs1 as [| tr trs1 IH]; intros b; [reflexivity |].
  cbn [store_all app]. destruct (store tr b) as [b1 | e]; [| reflexivity].
  cbn [mbind Result_bind]. apply IH.
Qed.

Lemma store_fields (tr : Transition) (b b' : ReplayBuffer) :
  store tr b = Ok b' ->
  max_size b <> 0 /\ max_size b' = max_size b /\
  size b' = Z.min (size b + 1) (max_size b) /\
  ptr b' = (ptr b + 1) mod max_size b.
Proof.
  unfold store, py_mod.
  repeat (match goal with |- context [mbind _ ?m] =>
            match m with
            | (if _ then _ else _) => fail 1
            | _ => destruct m; [| discriminate]
            end end; cbn [mbind Result_bind]).
  destruct (Z.eqb_spec (max_size b) 0) as [? | Hne]; [discriminate |].
  cbn [mbind Result_bind]. intros [= <-]. cbn. repeat split; assumption.
Qed.

Lemma ReplayBuffer_init_fields (obs_dim act_dim sz : Z) (b0 : ReplayBuffer) :
  ReplayBuffer_init obs_dim act_dim sz = Ok b0 ->
  0 <= sz /\ max_size b0 = sz /\ size b0 = 0 /\ ptr b0 = 0.
Proof.
  intros Hinit.
  destruct (Z.lt_ge_cases sz 0) as [Hneg | Hpos].
  - exfalso. revert Hinit. unfold ReplayBuffer_init.
    destruct (Z.lt_ge_cases obs_dim 0).
    + now rewrite (zeros_combined_shape_negative sz obs_dim) by lia.
    + now rewrite (zeros_combined_shape_negative sz obs_dim) by lia.
  - split; [exact Hpos |]. revert Hinit. unfold ReplayBuffer_init.
    repeat (match goal with |- context [mbind _ ?m] => destruct m; [| discriminate] end;
            cbn [mbind Result_bind]).
    intros [= <-]. repeat split.
Qed.

Lemma store_log_step_events (cfg : Config) (t : Z) (tr : Transition) (ended : bool) :
  store_log (step_events cfg t tr ended) = [(t, tr)].
Proof.
  unfold step_events.
  destruct (action_event_cases cfg t) as [-> | ->], ended; reflexivity.
Qed.

Lemma store_log_epoch_events (cfg : Config) (epoch : Z) (k : nat) (avg : Qc) (best : bool) :
  store_log (epoch_events cfg epoch k avg best) = [].
Proof.
  unfold epoch_events. rewrite !store_log_app, store_log_test_steps.
  destruct (state_save_due cfg epoch), best; reflexivity.
Qed.

Section FinalBuffer.

Context `{EpochLogger}.

Lemma loop_body_store_log (cfg : Config) (act_dim : Z) (act_limit : Qc) (fuel : nat)
    (t : Z) (l l' : Locals) (w w' : World) :
  loop_body cfg act_dim act_limit fuel t (l, w) = Ok (l', w') ->
  exists tr,
    store_log (trace w') = store_log (trace w) ++ [(t, tr)] /\
    store tr (replay_buffer w) = Ok (replay_buffer w') /\
    (forall od ad : nat,
        env_shaped od ad -> ad = Z.to_nat act_dim ->
        (forall params o, length (ac_act params o) = Z.to_nat act_dim) ->
        length (o l) = od ->
        tr_shaped od ad tr /\ length (o l') = od).
Proof.
  intros Hbody.
  destruct (loop_body_spec _ _ _ _ _ _ _ _ _ Hbody)
    as (tr & ended & idxss & post & Htr & Hst & _ & _ & _ & _ & _ & Hpost & Hshape).
  exists tr. split; [| split; assumption].
  rewrite Htr, !store_log_app, store_log_step_events, store_log_burst.
  assert (Hp : store_log post = []).
  { destruct ((t + 1) mod steps_per_epoch cfg =? 0).
    - destruct Hpost as (_ & k & avg & -> & _). apply store_log_epoch_events.
    - destruct Hpost as [-> _]. reflexivity. }
  rewrite Hp, app_nil_r. reflexivity.
Qed.

(** X11. At the end of a training run the replay buffer is what the
    [store] calls of the run made of the fresh buffer, one call per step
    [0 .. total_steps - 1] in order, and nothing else: neither the update
    bursts nor the evaluations write to it.  It holds
    [min(total_steps, replay_size)] transitions, [ptr] is
    [total_steps mod replay_size], and (for an environment and an actor that
    respect the dimensions of the spaces) the transition of step [j], for
    each of the last [min(total_steps, replay_size)] steps, is the row at
    slot [j mod replay_size]. *)
Theorem final_replay_buffer (cfg : Config) (fuel : nat) (s : Start) (w' : World) :
  mode cfg = Train ->
  ddpg cfg fuel s = Ok w' ->
  let n := Z.max 0 (steps_per_epoch cfg * epochs cfg) in
  let C := replay_size cfg in
  let log := store_log (trace w') in
  exists buf0,
    ReplayBuffer_init (observation_dim (s_env s)) (action_space_shape0 (s_env s)) C
    = Ok buf0 /\
    log.*1 = py_range n /\
    store_all log.*2 buf0 = Ok (replay_buffer w') /\
    size (replay_buffer w') = Z.min n C /\
    ptr (replay_buffer w') = n mod C /\
    (env_shaped (Z.to_nat (observation_dim (s_env s)))
       (Z.to_nat (action_space_shape0 (s_env s))) ->
     (forall params o,
         length (ac_act params o) = Z.to_nat (action_space_shape0 (s_env s))) ->
     forall j : Z, n - Z.min n C <= j < n ->
       buf_row (replay_buffer w') (Z.to_nat (j mod C)) = row_of <$> log.*2 !! Z.to_nat j).
Proof.
  intros Hmode Hrun. cbv zeta.
  destruct (ddpg_train_inv cfg fuel s w' Hmode Hrun)
    as (limit & buf0 & l' & _ & Hinit & Htrain).
  destruct (ReplayBuffer_init_fields _ _ _ _ Hinit) as (HC & Hmax0 & Hsize0 & Hptr0).
  set (C := replay_size cfg) in *.
  set (n := Z.max 0 (steps_per_epoch cfg * epochs cfg)).
  exists buf0. split; [exact Hinit |].
  pose proof Htrain as Htrain2.
  apply (train_invariant cfg _ _ fuel
           (fun t _ w1 =>
              0 <= t /\
              (store_log (trace w1)).*1 = py_range t /\
              store_all (store_log (trace w1)).*2 buf0 = Ok (replay_buffer w1) /\
              max_size (replay_buffer w1) = C /\
              size (replay_buffer w1) = Z.min t C /\
              ptr (replay_buffer w1) = t mod C)) in Htrain.
  - destruct Htrain as (_ & Hsteps & Hall & _ & Hsize & Hptr).
    do 4 (split; [assumption |]).
    intros Henv Hshape j Hj.
    assert (HCpos : 0 < C).
    { destruct (store_log (trace w')).*2 as [| tr trs] eqn:Hlog.
      - apply (f_equal length) in Hsteps. rewrite length_fmap in Hsteps.
        apply (f_equal length) in Hlog. rewrite length_fmap in Hlog.
        unfold py_range in Hsteps. rewrite length_seqZ in Hsteps. cbn in Hlog. lia.
      - cbn [store_all] in Hall.
        destruct (store tr buf0) as [b1 | e] eqn:Hst; [| discriminate].
        destruct (store_fields _ _ _ Hst) as (Hne & _). lia. }
    apply (train_invariant cfg _ _ fuel
             (fun _ l1 w1 =>
                length (o l1) = Z.to_nat (observation_dim (s_env s)) /\
                Forall (tr_shaped (Z.to_nat (observation_dim (s_env s)))
                          (Z.to_nat (action_space_shape0 (s_env s))))
                  (store_log (trace w1)).*2)) in Htrain2.
    + destruct Htrain2 as [_ Hshapes].
      pose proof (reachable_ring_inv _ _ C buf0 _ _ HCpos Hinit Hshapes Hall)
        as (_ & _ & _ & Hrows).
      assert (Hlen : Z.of_nat (length (store_log (trace w')).*2) = n).
      { apply (f_equal length) in Hsteps. rewrite length_fmap in Hsteps.
        rewrite length_fmap. rewrite Hsteps. unfold py_range.
        rewrite length_seqZ. lia. }
      rewrite Hlen in Hrows. apply Hrows. exact Hj.
    + intros o0 e Hreset. cbn. split; [| constructor].
      pose proof (proj1 Henv (env (set_replay_buffer buf0 (initial_world s)))) as Ho.
      rewrite Hreset in Ho. exact Ho.
    + intros t l0 w1 l1 w2 Ht [Hol Hshapes] Hbody.
      destruct (loop_body_store_log _ _ _ _ _ _ _ _ _ Hbody) as (tr & Hlog & _ & Hsh).
      destruct (Hsh _ _ Henv eq_refl Hshape Hol) as [Htrsh Hol'].
      split; [exact Hol' |].
      rewrite Hlog, fmap_app. apply Forall_app. split; [exact Hshapes |].
      constructor; [exact Htrsh | constructor].
  - intros o0 e _. cbn.
    split; [lia |]. split; [reflexivity |]. split; [reflexivity |].
    split; [exact Hmax0 |]. split; [lia |]. rewrite Hptr0. symmetry. apply Zmod_0_l.
  - intros t l0 w1 l1 w2 Ht (_ & Hsteps & Hall & Hmax & Hsize & Hptr) Hbody.
    destruct (loop_body_store_log _ _ _ _ _ _ _ _ _ Hbody) as (tr & Hlog & Hst & _).
    destruct (store_fields _ _ _ Hst) as (Hne & Hmax' & Hsize' & Hptr').
    split; [lia |]. rewrite Hlog, !fmap_app. cbn [fmap list_fmap fst snd].
    split; [| split; [| split; [| split]]].
    + rewrite Hsteps. unfold py_range. rewrite (seqZ_app 0 t 1) by lia. reflexivity.
    + rewrite store_all_app, Hall. cbn [mbind Result_bind store_all]. rewrite Hst.
      reflexivity.
    + congruence.
    + rewrite Hsize', Hmax, Hsize. lia.
    + rewrite Hptr', Hmax, Hptr. apply Zplus_mod_idemp_l.
Qed.

End FinalBuffer.

Lemma final_replay_buffer_witness :
  mode toy_cfg = Train /\
  exists w',
    ddpg (H1 := toy_logger) toy_cfg 1 toy_start = Ok w' /\
    (store_log (trace w')).*1 = [0; 1; 2; 3] /\
    size (replay_buffer w') = 2 /\ ptr (replay_buffer w') = 0.
Proof.
  split; [reflexivity |].
  pose (run := ddpg (H1 := toy_logger) toy_cfg 1 toy_start).
  pose (w' := match run with Ok x => x | Raise _ => initial_world toy_start end).
  assert (Hrun : run = Ok w') by (vm_compute; reflexivity).
  destruct (final_replay_buffer (H1 := toy_logger) toy_cfg 1 toy_start w' eq_refl Hrun)
    as (buf0 & _ & Hsteps & _ & Hsize & Hptr & _).
  exists w'. split; [exact Hrun |]. split; [exact Hsteps |]. split; [exact Hsize | exact Hptr].
Defined.

(** ** Episodes of the training loop *)

Section Episodes.

Context `{EpochLogger}.

Lemma loop_body_episode (cfg : Config) (act_dim : Z) (act_limit : Qc) (fuel : nat)
    (t : Z) (l l' : Locals) (w w' : World) :
  loop_body cfg act_dim act_limit fuel t (l, w) = Ok (l', w') ->
  exists ended : bool,
    count_events is_episode_end (trace w') =
      (count_events is_episode_end (trace w) + (if ended then 1 else 0))%nat /\
    (ended = false -> ep_len l + 1 <> max_ep_len cfg) /\
    ep_len l' = (if ended then 0 else ep_len l + 1).
Proof.
  intros Hbody.
  destruct (loop_body_spec _ _ _ _ _ _ _ _ _ Hbody)
    as (tr & ended & idxss & post & Htr & _ & Hended & Hlen & _ & _ & _ & Hpost & _).
  exists ended. split; [| split; assumption].
  rewrite Htr, !count_events_app, count_step_events.
  assert (Hact : is_episode_end (action_event cfg t) = false)
    by (destruct (action_event_cases cfg t) as [-> | ->]; reflexivity).
  rewrite Hact. cbn [is_episode_end]. rewrite andb_true_r.
  rewrite count_burst by reflexivity.
  assert (Hp : count_events is_episode_end post = 0%nat).
  { destruct ((t + 1) mod steps_per_epoch cfg =? 0).
    - destruct Hpost as (_ & k & avg & -> & _). rewrite count_epoch_events.
      cbn [is_episode_end]. now rewrite !andb_false_r.
    - destruct Hpost as [-> _]. reflexivity. }
  rewrite Hp. lia.
Qed.

(** X12. With [max_ep_len >= 1] no training episode runs past the horizon:
    the episode length the loop carries stays in [[0, max_ep_len)] after each
    step, so every stretch of [max_ep_len] steps contains an episode end.  A
    run of [n] steps therefore ends at least [n // max_ep_len] episodes (and
    at most [n]); with [max_ep_len = 1] every step ends one. *)
Theorem episodes_cut_at_horizon (cfg : Config) (act_dim : Z) (act_limit : Qc) (fuel : nat)
    (w w' : World) (l' : Locals) :
  1 <= max_ep_len cfg ->
  trace w = [] ->
  train cfg act_dim act_limit fuel w = Ok (l', w') ->
  let n := Z.max 0 (steps_per_epoch cfg * epochs cfg) in
  let ends := Z.of_nat (count_events is_episode_end (trace w')) in
  0 <= ep_len l' < max_ep_len cfg /\
  n <= max_ep_len cfg * ends + ep_len l' /\
  n / max_ep_len cfg <= ends <= n /\
  (max_ep_len cfg = 1 -> ends = n).
Proof.
  intros Hmax Htr0 Htrain. cbv zeta.
  apply (train_invariant cfg _ _ fuel
           (fun t l1 w1 =>
              let ends := Z.of_nat (count_events is_episode_end (trace w1)) in
              0 <= t /\ 0 <= ep_len l1 < max_ep_len cfg /\
              t <= max_ep_len cfg * ends + ep_len l1 /\ ends <= t)) in Htrain.
  - cbv zeta in Htrain. destruct Htrain as (Hn & Hlen & Hlow & Hup).
    set (n := Z.max 0 (steps_per_epoch cfg * epochs cfg)) in *.
    set (ends := Z.of_nat (count_events is_episode_end (trace w'))) in *.
    assert (Hdiv : n / max_ep_len cfg <= ends).
    { assert (n / max_ep_len cfg < ends + 1); [| lia].
      apply Z.div_lt_upper_bound; nia. }
    split; [exact Hlen |]. split; [exact Hlow |]. split; [lia |].
    intros Hone. rewrite Hone, Z.div_1_r in Hdiv. lia.
  - intros o0 e _. cbn [trace set_env ep_len]. rewrite Htr0. cbn. lia.
  - intros t l0 w1 l1 w2 Ht (_ & Hlen & Hlow & Hup) Hbody. cbv zeta in *.
    destruct (loop_body_episode _ _ _ _ _ _ _ _ _ Hbody) as (ended & Hc & Hne & Hlen').
    rewrite Hc, Hlen'. destruct ended.
    + nia.
    + specialize (Hne eq_refl). nia.
Qed.

End Episodes.

Lemma episodes_cut_at_horizon_witness :
  1 <= max_ep_len toy_cfg /\
  exists l' w',
    train (H1 := toy_logger) toy_cfg 2 (Q2Qc 2) 1 (toy_world toy_b0 (rs_of_words []))
    = Ok (l', w') /\
    ep_len l' = 0 /\ count_events is_episode_end (trace w') = 4%nat.
Proof.
  assert (Hmax : 1 <= max_ep_len toy_cfg) by (cbn; lia).
  split; [exact Hmax |].
  pose (run := train (H1 := toy_logger) toy_cfg 2 (Q2Qc 2) 1
                 (toy_world toy_b0 (rs_of_words []))).
  pose (r := match run with
             | Ok x => x
             | Raise _ => (toy_locals, toy_world toy_b0 (rs_of_words []))
             end).
  assert (Hrun : run = Ok (r.1, r.2)) by (vm_compute; reflexivity).
  destruct (episodes_cut_at_horizon (H1 := toy_logger) toy_cfg 2 (Q2Qc 2) 1
              (toy_world toy_b0 (rs_of_words [])) r.2 r.1 Hmax eq_refl Hrun)
    as (Hlen & _ & _ & Hone).
  specialize (Hone eq_refl). cbn in Hlen.
  exists r.1, r.2. split; [exact Hrun |]. split; [lia |].
  change (Z.max 0 (steps_per_epoch toy_cfg * epochs toy_cfg)) with 4 in Hone. lia.
Defined.

(** ** When the environment state is saved *)

Lemma state_saves_step_events (cfg : Config) (t : Z) (tr : Transition) (ended : bool) :
  state_saves (step_events cfg t tr ended) = [].
Proof.
  unfold step_events.
  destruct (action_event_cases cfg t) as [-> | ->], ended; reflexivity.
Qed.

Lemma state_saves_epoch_events (cfg : Config) (epoch : Z) (k : nat) (avg : Qc)
    (best : bool) :
  state_saves (epoch_events cfg epoch k avg best) =
  if state_save_due cfg epoch then [epoch] else [].
Proof.
  unfold epoch_events. rewrite !state_saves_app, state_saves_test_steps.
  destruct (state_save_due cfg epoch), best; reflexivity.
Qed.

Section StateSaves.

Context `{EpochLogger}.

Lemma loop_body_state_saves (cfg : Config) (act_dim : Z) (act_limit : Qc) (fuel : nat)
    (t : Z) (l l' : Locals) (w w' : World) :
  loop_body cfg act_dim act_limit fuel t (l, w) = Ok (l', w') ->
  state_saves (trace w') =
  state_saves (trace w) ++
  (if (t + 1) mod steps_per_epoch cfg =? 0
   then List.filter (state_save_due cfg) [(t + 1) / steps_per_epoch cfg]
   else []).
Proof.
  intros Hbody.
  destruct (loop_body_spec _ _ _ _ _ _ _ _ _ Hbody)
    as (tr & ended & idxss & post & Htr & _ & _ & _ & _ & _ & _ & Hpost & _).
  rewrite Htr, !state_saves_app, state_saves_step_events, state_saves_burst.
  cbn [app]. f_equal.
  destruct ((t + 1) mod steps_per_epoch cfg =? 0).
  - destruct Hpost as (_ & k & avg & -> & _). rewrite state_saves_epoch_events.
    cbn [List.filter]. now destruct (state_save_due cfg _).
  - destruct Hpost as [-> _]. reflexivity.
Qed.

(** X13. In a training run [logger.save_state] runs at the end of exactly
    those epochs [e] of [1 .. epochs] with [e % save_freq == 0] or
    [e == epochs], in increasing order; the last epoch is always among
    them. *)
Theorem state_saved_every_save_freq (cfg : Config) (fuel : nat) (s : Start) (w' : World) :
  mode cfg = Train ->
  0 < steps_per_epoch cfg ->
  ddpg cfg fuel s = Ok w' ->
  state_saves (trace w') = List.filter (state_save_due cfg) (seqZ 1 (epochs cfg)) /\
  (forall e : Z,
      e ∈ state_saves (trace w') <->
      1 <= e <= epochs cfg /\ (e mod save_freq cfg = 0 \/ e = epochs cfg)) /\
  (0 < epochs cfg -> last (state_saves (trace w')) = Some (epochs cfg)).
Proof.
  intros Hmode Hspe Hrun.
  destruct (ddpg_train_inv cfg fuel s w' Hmode Hrun) as (limit & buf & l' & _ & _ & Htrain).
  apply (train_invariant cfg _ _ fuel
           (fun t _ w1 =>
              0 <= t /\
              state_saves (trace w1) =
              List.filter (state_save_due cfg) (seqZ 1 (t / steps_per_epoch cfg)))) in Htrain.
  - destruct Htrain as [_ Hsaves].
    assert (Hepochs : seqZ 1 (Z.max 0 (steps_per_epoch cfg * epochs cfg) / steps_per_epoch cfg)
                      = seqZ 1 (epochs cfg)).
    { destruct (Z.le_gt_cases (epochs cfg) 0) as [Hle | Hgt].
      - rewrite Z.max_l by nia. rewrite Z.div_0_l by lia. now rewrite !seqZ_nil by lia.
      - rewrite Z.max_r by nia. now rewrite Z.mul_comm, Z.div_mul by lia. }
    rewrite Hepochs in Hsaves. split; [exact Hsaves |]. split.
    + intros e. rewrite Hsaves, list_elem_of_In, List.filter_In, <- list_elem_of_In.
      rewrite elem_of_seqZ. unfold state_save_due.
      rewrite orb_true_iff, !Z.eqb_eq. intuition lia.
    + intros Hpos. rewrite Hsaves.
      replace (epochs cfg) with ((epochs cfg - 1) + 1) at 1 by lia.
      rewrite seqZ_app by lia. rewrite List.filter_app.
      change (seqZ (1 + (epochs cfg - 1)) 1) with [1 + (epochs cfg - 1)].
      replace (1 + (epochs cfg - 1)) with (epochs cfg) by lia.
      cbn [List.filter]. unfold state_save_due at 2. rewrite Z.eqb_refl, orb_true_r.
      apply last_snoc.
  - intros o0 e _. cbn [trace set_env]. split; [lia |].
    rewrite Z.div_0_l by lia. reflexivity.
  - intros t l0 w1 l1 w2 Ht [_ Hsaves] Hbody. split; [lia |].
    rewrite (loop_body_state_saves _ _ _ _ _ _ _ _ _ Hbody), Hsaves.
    destruct (Z.eqb_spec ((t + 1) mod steps_per_epoch cfg) 0) as [Hz | Hnz].
    + rewrite (epoch_boundary_div (steps_per_epoch cfg) t Hspe ltac:(lia) Hz).
      rewrite (seqZ_app 1 (t / steps_per_epoch cfg) 1);
        [| apply Z.div_pos; lia | lia].
      rewrite List.filter_app.
      change (seqZ (1 + t / steps_per_epoch cfg) 1) with [1 + t / steps_per_epoch cfg].
      now rewrite (Z.add_comm 1).
    + rewrite (epoch_interior_div (steps_per_epoch cfg) t Hspe ltac:(lia) Hnz). now rewrite app_nil_r.
Qed.

End StateSaves.

Lemma state_saved_every_save_freq_witness :
  mode toy_cfg = Train /\ 0 < steps_per_epoch toy_cfg /\
  exists w',
    ddpg (H1 := toy_logger) toy_cfg 1 toy_start = Ok w' /\
    state_saves (trace w') = [1; 2].
Proof.
  assert (Hspe : 0 < steps_per_epoch toy_cfg) by (cbn; lia).
  split; [reflexivity |]. split; [exact Hspe |].
  pose (run := ddpg (H1 := toy_logger) toy_cfg 1 toy_start).
  pose (w' := match run with Ok x => x | Raise _ => initial_world toy_start end).
  assert (Hrun : run = Ok w') by (vm_compute; reflexivity).
  exists w'. split; [exact Hrun |].
  exact (proj1 (state_saved_every_save_freq (H1 := toy_logger) toy_cfg 1 toy_start w'
                  eq_refl Hspe Hrun)).
Defined.

(** ** Zeros the code divides by *)

Section FatalZeros.

Context `{EpochLogger}.

Lemma train_step_returns (cfg : Config) (act_dim : Z) (act_limit : Qc) (fuel : nat)
    (w w' : World) (l' : Locals) (t : Z) :
  train cfg act_dim act_limit fuel w = Ok (l', w') ->
  0 <= t < steps_per_epoch cfg * epochs cfg ->
  exists l0 w0 l1 w1, loop_body cfg act_dim act_limit fuel t (l0, w0) = Ok (l1, w1).
Proof.
  unfold train. destruct (env_reset (env w)) as [o0 e]. intros Hrun Ht.
  destruct (for_each_Ok_elem _ _ _ _ t Hrun) as ([l0 w0] & [l1 w1] & Hbody).
  - unfold py_range. apply elem_of_seqZ. lia.
  - eauto.
Qed.

(** X14. Two of the periods are divisors, and the capacity is an array
    length: a training run with at least one step cannot return when
    [update_every = 0] (and [update_after] is below the number of steps),
    when [save_freq = 0], or when [replay_size = 0].  [steps_per_epoch = 0]
    is harmless in the opposite way: the run has no step, and returns having
    recorded nothing. *)
Theorem zero_periods (cfg : Config) (fuel : nat) (s : Start) :
  mode cfg = Train ->
  let n := steps_per_epoch cfg * epochs cfg in
  (0 < n ->
   (update_every cfg = 0 /\ update_after cfg < n) \/
   (save_freq cfg = 0 /\ 0 < steps_per_epoch cfg) \/
   replay_size cfg = 0 ->
   forall w', ddpg cfg fuel s <> Ok w') /\
  (n <= 0 -> forall w', ddpg cfg fuel s = Ok w' -> trace w' = [] /\ size (replay_buffer w') = 0).
Proof.
  intros Hmode. cbv zeta. split.
  - intros Hn Hzero w' Hrun.
    destruct (ddpg_train_inv cfg fuel s w' Hmode Hrun)
      as (limit & buf & l' & _ & Hinit & Htrain).
    destruct Hzero as [[Hue Hua] | [[Hsf Hspe] | Hrs]].
    + destruct (train_step_returns _ _ _ _ _ _ _ (Z.max 0 (update_after cfg)) Htrain
                  ltac:(lia)) as (l0 & w0 & l1 & w1 & Hbody).
      destruct (loop_body_phases _ _ _ _ _ _ _ _ _ Hbody)
        as (a & w2 & l2 & w3 & w4 & _ & _ & Hupd & _).
      unfold update_handling, py_mod in Hupd.
      destruct (Z.leb_spec (update_after cfg) (Z.max 0 (update_after cfg))); [| lia].
      rewrite Hue in Hupd. discriminate.
    + assert (Hlast : 0 <= steps_per_epoch cfg - 1 < steps_per_epoch cfg * epochs cfg).
      { assert (0 < epochs cfg) by nia. nia. }
      destruct (train_step_returns _ _ _ _ _ _ _ (steps_per_epoch cfg - 1) Htrain Hlast)
        as (l0 & w0 & l1 & w1 & Hbody).
      destruct (loop_body_phases _ _ _ _ _ _ _ _ _ Hbody)
        as (a & w2 & l2 & w3 & w4 & _ & _ & _ & Hep).
      destruct (epoch_handling_spec _ _ _ _ _ _ _ _ _ Hep) as (_ & _ & _ & _ & _ & _ & _ & Hpost).
      replace (steps_per_epoch cfg - 1 + 1) with (steps_per_epoch cfg) in Hpost by lia.
      rewrite Z_mod_same_full in Hpost. cbn in Hpost. destruct Hpost as [Hne _].
      contradiction.
    + unfold train in Htrain.
      destruct (env_reset _) as [o0 e].
      unfold py_range in Htrain. rewrite seqZ_cons in Htrain by lia.
      cbn [for_each] in Htrain.
      destruct (loop_body _ _ _ _ _ _) as [[l1 w1] | ex] eqn:Hbody; [| discriminate].
      destruct (loop_body_spec _ _ _ _ _ _ _ _ _ Hbody)
        as (tr & ended & idxss & post & _ & Hst & _).
      destruct (store_fields _ _ _ Hst) as [Hne _].
      destruct (ReplayBuffer_init_fields _ _ _ _ Hinit) as (_ & Hmax & _).
      cbn in Hne. rewrite Hmax in Hne. contradiction.
  - intros Hn w' Hrun.
    destruct (ddpg_train_inv cfg fuel s w' Hmode Hrun)
      as (limit & buf & l' & _ & Hinit & Htrain).
    unfold train in Htrain. destruct (env_reset _) as [o0 e].
    unfold py_range in Htrain. rewrite seqZ_nil in Htrain by lia.
    injection Htrain as _ <-. cbn.
    destruct (ReplayBuffer_init_fields _ _ _ _ Hinit) as (_ & _ & Hsize & _).
    split; [reflexivity | exact Hsize].
Qed.

End FatalZeros.

Lemma zero_periods_witness :
  mode zero_update_every_cfg = Train /\
  0 < steps_per_epoch zero_update_every_cfg * epochs zero_update_every_cfg /\
  update_every zero_update_every_cfg = 0 /\
  ddpg (H1 := toy_logger) zero_update_every_cfg 1 toy_start = Raise ZeroDivisionError.
Proof.
  assert (Hn : 0 < steps_per_epoch zero_update_every_cfg * epochs zero_update_every_cfg)
    by (cbn; lia).
  split; [reflexivity |]. split; [exact Hn |]. split; [reflexivity |].
  assert (Hzero : update_every zero_update_every_cfg = 0 /\
                  update_after zero_update_every_cfg
                  < steps_per_epoch zero_update_every_cfg * epochs zero_update_every_cfg)
    by (cbn; lia).
  pose proof (proj1 (zero_periods (H1 := toy_logger) zero_update_every_cfg 1 toy_start
                       eq_refl) Hn (or_introl Hzero)) as Hnever.
  destruct (ddpg (H1 := toy_logger) zero_update_every_cfg 1 toy_start) as [w' | ex] eqn:Hrun.
  - exfalso. exact (Hnever w' eq_refl).
  - revert Hrun. vm_compute. intros [= <-]. reflexivity.
Defined.

(** ** Polyak averaging never overshoots *)

Lemma polyak_step_gap (rho p t0 : Qc) :
  (polyak_step rho p t0 - p = rho * (t0 - p))%Qc.
Proof. unfold polyak_step. ring. Qed.

Lemma polyak_step_between (rho p t0 : Qc) :
  (0 <= rho)%Qc -> (rho <= 1)%Qc -> (p <= t0)%Qc ->
  (p <= polyak_step rho p t0)%Qc /\ (polyak_step rho p t0 <= t0)%Qc.
Proof.
  intros H0 H1 Hle.
  assert (Hd : (0 <= t0 + - p)%Qc) by (apply (proj1 (Qcle_minus_iff p t0)); exact Hle).
  assert (Hr : (0 <= 1 + - rho)%Qc) by (apply (proj1 (Qcle_minus_iff rho 1)); exact H1).
  split; [apply (proj2 (Qcle_minus_iff p (polyak_step rho p t0)))
         | apply (proj2 (Qcle_minus_iff (polyak_step rho p t0) t0))].
  - replace (polyak_step rho p t0 + - p)%Qc with (rho * (t0 + - p))%Qc
      by (unfold polyak_step; ring).
    now apply Qcmult_nonneg_nonneg.
  - replace (t0 + - polyak_step rho p t0)%Qc with ((1 + - rho) * (t0 + - p))%Qc
      by (unfold polyak_step; ring).
    now apply Qcmult_nonneg_nonneg.
Qed.

Lemma polyak_step_between_rev (rho p t0 : Qc) :
  (0 <= rho)%Qc -> (rho <= 1)%Qc -> (t0 <= p)%Qc ->
  (t0 <= polyak_step rho p t0)%Qc /\ (polyak_step rho p t0 <= p)%Qc.
Proof.
  intros H0 H1 Hle.
  assert (Hd : (0 <= p + - t0)%Qc) by (apply (proj1 (Qcle_minus_iff t0 p)); exact Hle).
  assert (Hr : (0 <= 1 + - rho)%Qc) by (apply (proj1 (Qcle_minus_iff rho 1)); exact H1).
  split; [apply (proj2 (Qcle_minus_iff t0 (polyak_step rho p t0)))
         | apply (proj2 (Qcle_minus_iff (polyak_step rho p t0) p))].
  - replace (polyak_step rho p t0 + - t0)%Qc with ((1 + - rho) * (p + - t0))%Qc
      by (unfold polyak_step; ring).
    now apply Qcmult_nonneg_nonneg.
  - replace (p + - polyak_step rho p t0)%Qc with (rho * (p + - t0))%Qc
      by (unfold polyak_step; ring).
    now apply Qcmult_nonneg_nonneg.
Qed.

(** X15. For [0 <= polyak <= 1] the target update of [update] moves each
    target parameter towards the live one and never past it: the new target
    value lies between the old target value and the live value (after both
    optimizer steps), and its distance to the live value is the old distance
    times [polyak]. *)
Theorem target_moves_towards_live `{EpochLogger} (cfg : Config) (data : Batch) (w : World) :
  (0 <= polyak cfg)%Qc -> (polyak cfg <= 1)%Qc ->
  let w' := update cfg data w in
  forall (k : nat) (p t0 : Qc),
    ac w' !! k = Some p -> ac_targ w !! k = Some t0 ->
    exists t1,
      ac_targ w' !! k = Some t1 /\
      (t1 - p = polyak cfg * (t0 - p))%Qc /\
      ((p <= t0)%Qc -> (p <= t1)%Qc /\ (t1 <= t0)%Qc) /\
      ((t0 <= p)%Qc -> (t0 <= t1)%Qc /\ (t1 <= p)%Qc).
Proof.
  intros Hlo Hhi w' k p t0 Hp Ht0. subst w'.
  destruct (update_fields cfg data w) as (Hac & Htarg & _).
  cbv zeta in Hac, Htarg. rewrite Hac in Hp.
  exists (polyak_step (polyak cfg) p t0). split; [| split; [| split]].
  - rewrite Htarg. now apply polyak_average_lookup.
  - apply polyak_step_gap.
  - now apply polyak_step_between.
  - now apply polyak_step_between_rev.
Qed.

Lemma target_moves_towards_live_witness :
  (0 <= polyak toy_cfg)%Qc /\ (polyak toy_cfg <= 1)%Qc /\
  exists t1,
    ac_targ (update (H1 := toy_logger) toy_cfg toy_batch (toy_world toy_b0 (rs_of_words [])))
      !! 0%nat = Some t1 /\
    (0 <= t1)%Qc /\ (t1 <= Q2Qc 3)%Qc.
Proof.
  assert (Hlo : (0 <= polyak toy_cfg)%Qc) by (vm_compute; discriminate).
  assert (Hhi : (polyak toy_cfg <= 1)%Qc) by (vm_compute; discriminate).
  split; [exact Hlo |]. split; [exact Hhi |].
  destruct (target_moves_towards_live (H1 := toy_logger) toy_cfg toy_batch
              (toy_world toy_b0 (rs_of_words [])) Hlo Hhi 0%nat (Q2Qc 3) 0%Qc)
    as (t1 & Ht1 & _ & _ & Hbetween).
  - vm_compute. reflexivity.
  - reflexivity.
  - exists t1. split; [exact Ht1 |]. apply Hbetween. vm_compute. discriminate.
Defined.

(** ** The loss functions *)

Lemma torch_binop_same_shape (f : Qc -> Qc -> Qc) (x y : list Qc) :
  length x = length y -> torch_binop f x y = Tensor (zip_with f x y).
Proof. intros Hlen. unfold torch_binop. now rewrite Hlen, Nat.eqb_refl. Qed.

Lemma Qc_square_nonneg (x : Qc) : (0 <= x ^ 2)%Qc.
Proof.
  change (x ^ 2)%Qc with (x * (x * 1))%Qc. rewrite Qcmult_1_r.
  destruct (Qclt_le_dec x 0) as [Hneg | Hpos].
  - replace (x * x)%Qc with ((- x) * (- x))%Qc by ring.
    assert (H0 : (0 <= - x)%Qc).
    { apply Qclt_le_weak in Hneg. apply (proj1 (Qcle_minus_iff x 0)) in Hneg.
      now rewrite Qcplus_0_l in Hneg. }
    now apply Qcmult_nonneg_nonneg.
  - now apply Qcmult_nonneg_nonneg.
Qed.

Lemma Qc_square_zero (x : Qc) : (x ^ 2 = 0)%Qc -> x = 0%Qc.
Proof.
  change (x ^ 2)%Qc with (x * (x * 1))%Qc. rewrite Qcmult_1_r.
  intros Hz. destruct (Qcmult_integral _ _ Hz); assumption.
Qed.

Lemma Qc_sum_nonneg_zero (x y : Qc) :
  (0 <= x)%Qc -> (0 <= y)%Qc -> (x + y = 0)%Qc -> x = 0%Qc /\ y = 0%Qc.
Proof.
  intros Hx Hy Hsum.
  assert (Hxy : x = (- y)%Qc).
  { replace x with (x + y + - y)%Qc by ring. rewrite Hsum. ring. }
  assert (Hle : (x <= 0)%Qc).
  { rewrite Hxy. replace 0%Qc with (- 0)%Qc by ring. now apply Qcopp_le_compat. }
  assert (Hx0 : x = 0%Qc) by (apply Qcle_antisym; assumption).
  split; [exact Hx0 |]. rewrite Hx0, Qcplus_0_l in Hsum. exact Hsum.
Qed.

Lemma torch_sum_squares (xs : list Qc) :
  (0 <= torch_sum (map (fun x => x ^ 2) xs))%Qc /\
  (torch_sum (map (fun x => x ^ 2)%Qc xs) = 0%Qc <-> Forall (fun x => x = 0%Qc) xs).
Proof.
  induction xs as [| x xs [IHpos IHzero]].
  - split; [discriminate |]. split; [constructor | reflexivity].
  - cbn [map torch_sum foldr]. fold (torch_sum (map (fun x => x ^ 2)%Qc xs)).
    pose proof (Qc_square_nonneg x) as Hsq.
    split.
    + replace 0%Qc with (0 + 0)%Qc by ring. now apply Qcplus_le_compat.
    + split.
      * intros Hz. destruct (Qc_sum_nonneg_zero _ _ Hsq IHpos Hz) as [Hx Hrest].
        constructor; [now apply Qc_square_zero | now apply IHzero].
      * intros Hall. apply Forall_cons in Hall as [-> Hall].
        rewrite (proj2 IHzero Hall). cbn. ring.
Qed.

Lemma Qc_of_nat_pos (n : nat) :
  (0 < n)%nat -> (0 < Q2Qc (inject_Z (Z.of_nat n)))%Qc.
Proof.
  intros Hn. change (Qlt 0%Q (Qred (inject_Z (Z.of_nat n)))).
  rewrite Qred_correct. unfold Qlt. cbn. lia.
Qed.

Lemma torch_mean_nonneg_zero (xs : list Qc) :
  xs <> [] -> (0 <= torch_sum xs)%Qc ->
  exists m, torch_mean xs = Finite m /\ (0 <= m)%Qc /\ (m = 0%Qc <-> torch_sum xs = 0%Qc).
Proof.
  intros Hne Hsum.
  assert (Hn : (0 < length xs)%nat) by (destruct xs; [contradiction | cbn; lia]).
  pose proof (Qc_of_nat_pos _ Hn) as HN.
  set (N := Q2Qc (inject_Z (Z.of_nat (length xs)))) in *.
  assert (HN0 : N <> 0%Qc).
  { intros Hz. apply Qclt_not_eq in HN. apply HN. now symmetry. }
  exists (torch_sum xs / N)%Qc. split; [| split].
  - destruct xs; [contradiction | reflexivity].
  - unfold Qcdiv. apply Qcmult_nonneg_nonneg; [exact Hsum |].
    apply Qclt_le_weak, Qcinv_pos, HN.
  - split.
    + intros Hz. rewrite <- (Qcmult_div_r (torch_sum xs) N HN0), Hz. ring.
    + intros ->. unfold Qcdiv. ring.
Qed.

Lemma zip_minus_zero (x y : list Qc) :
  length x = length y ->
  Forall (fun d => d = 0%Qc) (zip_with Qcminus x y) <-> x = y.
Proof.
  revert y. induction x as [| a x IH]; intros [| b y] Hlen; try discriminate.
  - split; [reflexivity | constructor].
  - cbn [zip_with]. rewrite Forall_cons, IH by (now injection Hlen). split.
    + intros [Hab ->]. f_equal.
      replace a with (a - b + b)%Qc by ring. rewrite Hab. ring.
    + intros [= -> ->]. split; [ring | reflexivity].
Qed.

Section Losses.

Context `{Networks}.

(** X16. The critic loss on a batch of [B > 0] rows, for networks that
    return one value per row: the Bellman backup of row [i] is
    [r + gamma * (1 - d) * q_targ(o2, pi_targ(o2))], that is [r] alone for a
    row stored with [done = 1] and [r + gamma * q_targ] for a row stored with
    [done = 0]; the loss is finite and non-negative, and it is zero exactly
    when the live critic agrees with the backup on every row. *)
Theorem critic_loss_bellman (gamma : Qc) (live targ : list Qc) (data : Batch) :
  let q := net_q live (b_obs data) (b_act data) in
  let q_pi_targ := net_q targ (b_obs2 data) (net_pi targ (b_obs2 data)) in
  let B := length (b_rew data) in
  (0 < B)%nat -> length (b_done data) = B -> length q = B -> length q_pi_targ = B ->
  exists backup loss,
    bellman_backup gamma data q_pi_targ = Tensor backup /\
    compute_loss_q gamma live targ data = Tensor (Finite loss, q) /\
    length backup = B /\
    (forall (i : nat) (r d y : Qc),
        b_rew data !! i = Some r -> b_done data !! i = Some d ->
        q_pi_targ !! i = Some y ->
        backup !! i = Some (r + gamma * (1 - d) * y)%Qc /\
        (d = 1%Qc -> backup !! i = Some r) /\
        (d = 0%Qc -> backup !! i = Some (r + gamma * y)%Qc)) /\
    (0 <= loss)%Qc /\
    (loss = 0%Qc <-> q = backup).
Proof.
  intros q q_pi_targ B HB Hd Hq Hqt.
  set (discount := map (Qcmult gamma) (map (fun di => 1 - di)%Qc (b_done data))).
  set (bootstrap := zip_with Qcmult discount q_pi_targ).
  set (backup := zip_with Qcplus (b_rew data) bootstrap).
  assert (Hldisc : length discount = B) by (subst discount; now rewrite !length_map).
  assert (Hlboot : length bootstrap = B)
    by (subst bootstrap; rewrite length_zip_with; lia).
  assert (Hlback : length backup = B)
    by (subst backup; rewrite length_zip_with; subst B; lia).
  assert (Hbackup : bellman_backup gamma data q_pi_targ = Tensor backup).
  { unfold bellman_backup. cbv zeta. fold discount.
    rewrite (torch_binop_same_shape Qcmult discount q_pi_targ) by lia.
    cbn [mbind Torch_bind]. fold bootstrap.
    apply torch_binop_same_shape. subst B. lia. }
  set (diff := zip_with Qcminus q backup).
  assert (Hldiff : length diff = B) by (subst diff; rewrite length_zip_with; lia).
  destruct (torch_sum_squares diff) as [Hpos Hzero].
  destruct (torch_mean_nonneg_zero (map (fun x => x ^ 2)%Qc diff)) as (loss & Hmean & Hl0 & Hlz).
  { intros Hnil. apply (f_equal length) in Hnil. rewrite length_map in Hnil.
    cbn in Hnil. lia. }
  { exact Hpos. }
  exists backup, loss. split; [exact Hbackup |]. split; [| split; [exact Hlback | split; [| split]]].
  - unfold compute_loss_q. cbv zeta. fold q q_pi_targ. rewrite Hbackup.
    cbn [mbind Torch_bind].
    rewrite (torch_binop_same_shape Qcminus q backup) by lia.
    cbn [mbind Torch_bind]. fold diff. now rewrite Hmean.
  - intros i r d y Hr Hdone Hy.
    assert (Hi : backup !! i = Some (r + gamma * (1 - d) * y)%Qc).
    { subst backup bootstrap discount.
      rewrite lookup_zip_with, Hr. cbn [mbind option_bind].
      rewrite lookup_zip_with, !list_lookup_fmap, Hdone. cbn [fmap option_fmap option_map mbind option_bind].
      rewrite Hy. reflexivity. }
    split; [exact Hi |]. split; intros ->; rewrite Hi; f_equal; ring.
  - exact Hl0.
  - rewrite Hlz, Hzero. apply zip_minus_zero. lia.
Qed.

End Losses.

Lemma critic_loss_bellman_witness :
  (0 < length (b_rew toy_batch))%nat /\
  exists backup loss,
    bellman_backup 1 toy_batch
      (net_q (Networks := toy_networks) [0%Qc] (b_obs2 toy_batch)
         (net_pi (Networks := toy_networks) [0%Qc] (b_obs2 toy_batch))) = Tensor backup /\
    compute_loss_q (H := toy_networks) 1 [1%Qc] [0%Qc] toy_batch
    = Tensor (Finite loss, net_q (Networks := toy_networks) [1%Qc] (b_obs toy_batch)
                             (b_act toy_batch)) /\
    (0 <= loss)%Qc.
Proof.
  assert (HB : (0 < length (b_rew toy_batch))%nat) by (cbn; lia).
  split; [exact HB |].
  destruct (critic_loss_bellman (H := toy_networks) 1 [1%Qc] [0%Qc] toy_batch
              HB eq_refl eq_refl eq_refl)
    as (backup & loss & Hbackup & Hloss & _ & _ & Hpos & _).
  exists backup, loss. split; [exact Hbackup |]. split; [exact Hloss | exact Hpos].
Defined.

Lemma torch_binop_minus_shapes (q backup : list Qc) :
  (2 <= length backup)%nat ->
  (torch_binop Qcminus q backup = RuntimeError <->
   length q <> length backup /\ length q <> 1%nat) /\
  (forall q0, q = [q0] ->
     torch_binop Qcminus q backup = Tensor (map (fun y => q0 - y)%Qc backup)).
Proof.
  intros HB. unfold torch_binop. split.
  - destruct (Nat.eqb_spec (length q) (length backup)) as [Heq | Hne].
    + split; [discriminate | intros [Hc _]; contradiction].
    + destruct q as [| q0 [| q1 qs]].
      * destruct backup as [| y0 [| y1 ys]]; cbn in HB; try lia.
        split; [intros _; split; [exact Hne | discriminate] | reflexivity].
      * split; [discriminate | intros [_ Hc]; now cbn in Hc].
      * destruct backup as [| y0 [| y1 ys]]; cbn in HB; try lia.
        split; [intros _; split; [exact Hne | discriminate] | reflexivity].
  - intros q0 ->. cbn [length].
    destruct (Nat.eqb_spec 1 (length backup)) as [Heq | _]; [lia | reflexivity].
Qed.

Section LossEdges.

Context `{Networks}.

(** X17. A batch of size zero is not refused anywhere: on a non-empty
    buffer [sample_batch(0)] returns an empty batch, and with networks that
    return one value per row both losses computed from it are [nan] (the
    mean of an empty tensor), not an error. *)
Theorem empty_batch_gives_nan (od ad : nat) (C : Z) (b : ReplayBuffer) (rs : RandomState)
    (gamma : Qc) (live targ : list Qc) :
  buf_wf od ad C b -> 0 < size b <= C ->
  (forall params, net_q params [] [] = []) ->
  (forall params, net_pi params [] = []) ->
  exists batch rs',
    sample_batch 0 b rs = Ok (batch, rs') /\
    b_rew batch = [] /\
    compute_loss_q gamma live targ batch = Tensor (NaN, []) /\
    compute_loss_pi live batch = NaN.
Proof.
  intros Hwf Hsize Hq Hpi.
  destruct (sample_batch_idxs_spec od ad C 0 b rs Hwf Hsize ltac:(lia))
    as (idxs & batch & Hsample & _ & _ & Ho & Ho2 & Ha & Hr & Hd & _).
  exists batch, (rs_advance (Z.to_nat 0) rs).
  split; [unfold sample_batch; now rewrite Hsample |].
  destruct batch as [bo bo2 ba br bd]. cbn in *.
  apply nil_length_inv in Ho, Ho2, Ha, Hr, Hd. subst.
  split; [reflexivity |]. split.
  - unfold compute_loss_q, bellman_backup. cbn. rewrite Hpi, !Hq. reflexivity.
  - unfold compute_loss_pi. cbn. rewrite Hpi, Hq. reflexivity.
Qed.

(** X18. For a batch of [B >= 2] rows and a target critic that returns [B]
    values, [compute_loss_q] raises (torch's [RuntimeError]) exactly when
    the live critic returns neither [B] values nor a single one.  A single
    value is not an error: it is broadcast, and the loss compares that one
    value with the backup of every row. *)
Theorem critic_loss_shapes (gamma : Qc) (live targ : list Qc) (data : Batch) :
  let q := net_q live (b_obs data) (b_act data) in
  let q_pi_targ := net_q targ (b_obs2 data) (net_pi targ (b_obs2 data)) in
  let B := length (b_rew data) in
  (2 <= B)%nat -> length (b_done data) = B -> length q_pi_targ = B ->
  exists backup,
    bellman_backup gamma data q_pi_targ = Tensor backup /\ length backup = B /\
    (compute_loss_q gamma live targ data = RuntimeError <->
     length q <> B /\ length q <> 1%nat) /\
    (forall q0, q = [q0] ->
       compute_loss_q gamma live targ data
       = Tensor (torch_mean (map (fun y => (q0 - y) ^ 2)%Qc backup), [q0])).
Proof.
  intros q q_pi_targ B HB Hd Hqt.
  set (discount := map (Qcmult gamma) (map (fun di => 1 - di)%Qc (b_done data))).
  set (bootstrap := zip_with Qcmult discount q_pi_targ).
  set (backup := zip_with Qcplus (b_rew data) bootstrap).
  assert (Hldisc : length discount = B) by (subst discount; now rewrite !length_map).
  assert (Hlboot : length bootstrap = B)
    by (subst bootstrap; rewrite length_zip_with; lia).
  assert (Hlback : length backup = B)
    by (subst backup; rewrite length_zip_with; subst B; lia).
  assert (Hbackup : bellman_backup gamma data q_pi_targ = Tensor backup).
  { unfold bellman_backup. cbv zeta. fold discount.
    rewrite (torch_binop_same_shape Qcmult discount q_pi_targ) by lia.
    cbn [mbind Torch_bind]. fold bootstrap.
    apply torch_binop_same_shape. subst B. lia. }
  exists backup. split; [exact Hbackup |]. split; [exact Hlback |].
  destruct (torch_binop_minus_shapes q backup ltac:(lia)) as [Herr Hone].
  rewrite Hlback in Herr.
  unfold compute_loss_q. cbv zeta. fold q q_pi_targ. rewrite Hbackup.
  cbn [mbind Torch_bind]. split.
  - rewrite <- Herr. destruct (torch_binop Qcminus q backup); cbn [mbind Torch_bind].
    + split; discriminate.
    + split; reflexivity.
  - intros q0 Hq0. rewrite (Hone q0 Hq0). cbn [mbind Torch_bind].
    now rewrite map_map, Hq0.
Qed.

End LossEdges.

Lemma empty_batch_gives_nan_witness :
  buf_wf 1 2 2 toy_b0 /\
  exists b1 batch rs',
    store (toy_tr 0 false) toy_b0 = Ok b1 /\
    sample_batch 0 b1 (rs_of_words []) = Ok (batch, rs') /\
    compute_loss_q (H := toy_networks) 1 [1%Qc] [0%Qc] batch = Tensor (NaN, []) /\
    compute_loss_pi (H := toy_networks) [1%Qc] batch = NaN.
Proof.
  assert (Hok : buf_ok 1 2 2 toy_b0).
  { apply (buf_ok_init 1 2 2 toy_b0); [lia | reflexivity]. }
  split; [exact (proj1 Hok) |].
  destruct (store_ok 1 2 2 (toy_tr 0 false) toy_b0 ltac:(lia) Hok ltac:(repeat split))
    as (b1 & Hst & (Hwf1 & _ & Hsz1) & Hpos1).
  destruct (empty_batch_gives_nan (H := toy_networks) 1 2 2 b1 (rs_of_words []) 1
              [1%Qc] [0%Qc] Hwf1 ltac:(lia) ltac:(reflexivity) ltac:(reflexivity))
    as (batch & rs' & Hs & _ & Hq & Hpi).
  exists b1, batch, rs'. repeat split; assumption.
Defined.

Lemma critic_loss_shapes_witness :
  (2 <= length (b_rew
                  {| b_obs := [[0%Qc]; [1%Qc]]; b_obs2 := [[1%Qc]; [0%Qc]];
                     b_act := [[0%Qc; 0%Qc]]; b_rew := [1%Qc; 1%Qc];
                     b_done := [0%Qc; 1%Qc] |}))%nat /\
  exists loss,
    compute_loss_q (H := toy_networks) 1 [1%Qc] [0%Qc]
      {| b_obs := [[0%Qc]; [1%Qc]]; b_obs2 := [[1%Qc]; [0%Qc]];
         b_act := [[0%Qc; 0%Qc]]; b_rew := [1%Qc; 1%Qc]; b_done := [0%Qc; 1%Qc] |}
    = Tensor (loss, [0%Qc]).
Proof.
  split; [cbn; lia |].
  destruct (critic_loss_shapes (H := toy_networks) 1 [1%Qc] [0%Qc]
              {| b_obs := [[0%Qc]; [1%Qc]]; b_obs2 := [[1%Qc]; [0%Qc]];
                 b_act := [[0%Qc; 0%Qc]]; b_rew := [1%Qc; 1%Qc]; b_done := [0%Qc; 1%Qc] |}
              ltac:(cbn; lia) eq_refl eq_refl)
    as (backup & _ & _ & _ & Hone).
  eexists. exact (Hone 0%Qc ltac:(vm_compute; reflexivity)).
Defined.

(** ** Terminal transitions and the time limit *)

Lemma batch_row_Some (bt : Batch) (i : nat) (r : Row) :
  batch_row bt i = Some r ->
  b_rew bt !! i = Some (r_rew r) /\ b_done bt !! i = Some (r_done r).
Proof.
  unfold batch_row. intros Hrow.
  destruct (b_obs bt !! i); [| discriminate].
  destruct (b_obs2 bt !! i); [| discriminate].
  destruct (b_act bt !! i); [| discriminate].
  destruct (b_rew bt !! i); [| discriminate].
  destruct (b_done bt !! i); [| discriminate].
  cbn in Hrow. injection Hrow as <-. cbn. split; reflexivity.
Qed.

Lemma bellman_backup_row (gamma : Qc) (data : Batch) (q_pi_targ backup : list Qc)
    (i : nat) (r d y : Qc) :
  length (b_done data) = length (b_rew data) ->
  length q_pi_targ = length (b_rew data) ->
  bellman_backup gamma data q_pi_targ = Tensor backup ->
  b_rew data !! i = Some r -> b_done data !! i = Some d -> q_pi_targ !! i = Some y ->
  backup !! i = Some (r + gamma * (1 - d) * y)%Qc.
Proof.
  intros Hd Hqt. unfold bellman_backup. cbv zeta.
  rewrite torch_binop_same_shape by (rewrite !length_map; lia).
  cbn [mbind Torch_bind].
  rewrite torch_binop_same_shape by (rewrite length_zip_with, !length_map; lia).
  intros [= <-] Hr Hdone Hy.
  rewrite lookup_zip_with, Hr. cbn [mbind option_bind].
  rewrite lookup_zip_with, !list_lookup_fmap, Hdone.
  cbn [fmap option_fmap option_map mbind option_bind].
  rewrite Hy. reflexivity.
Qed.

(** X19. What the correction of [done] is for: a transition is stored with
    [done = correct_done(ep_len, d)], and in the Bellman backup of a batch
    row holding it the target value is dropped only when the environment
    itself ended the episode before the time limit ([d] and
    [ep_len != max_ep_len]); a transition whose episode was cut at the time
    limit is backed up with [r + gamma * q_targ], like a transition in the
    middle of an episode. *)
Theorem time_limit_is_bootstrapped (cfg : Config) (gamma : Qc) (data : Batch)
    (q_pi_targ backup : list Qc) (i : nat) (tr : Transition) (n : Z) (d : bool) (y : Qc) :
  length (b_done data) = length (b_rew data) ->
  length q_pi_targ = length (b_rew data) ->
  bellman_backup gamma data q_pi_targ = Tensor backup ->
  batch_row data i = Some (row_of tr) ->
  t_done tr = correct_done cfg n d ->
  q_pi_targ !! i = Some y ->
  backup !! i =
  Some (if d && negb (n =? max_ep_len cfg) then t_rew tr else (t_rew tr + gamma * y)%Qc).
Proof.
  intros Hd Hqt Hbackup Hrow Hdone Hy.
  destruct (batch_row_Some _ _ _ Hrow) as [Hr Hdr]. cbn [row_of r_rew r_done] in Hr, Hdr.
  rewrite (bellman_backup_row gamma data q_pi_targ backup i _ _ y Hd Hqt Hbackup Hr Hdr Hy).
  rewrite Hdone. unfold correct_done.
  destruct (n =? max_ep_len cfg), d; cbn [andb negb float_of_bool]; f_equal; ring.
Qed.

Lemma time_limit_is_bootstrapped_witness :
  exists backup,
    bellman_backup 1 toy_batch [Q2Qc 3] = Tensor backup /\
    backup !! 0%nat = Some (1 + 1 * Q2Qc 3)%Qc.
Proof.
  pose (backup := match bellman_backup 1 toy_batch [Q2Qc 3] with
                  | Tensor x => x | RuntimeError => [] end).
  assert (Hb : bellman_backup 1 toy_batch [Q2Qc 3] = Tensor backup)
    by (vm_compute; reflexivity).
  exists backup. split; [exact Hb |].
  exact (time_limit_is_bootstrapped toy_cfg 1 toy_batch [Q2Qc 3] backup 0
           {| t_obs := [0%Qc]; t_act := [0%Qc; 0%Qc]; t_rew := 1%Qc; t_obs2 := [1%Qc];
              t_done := false |}
           1 true (Q2Qc 3) eq_refl eq_refl Hb eq_refl eq_refl eq_refl).
Defined.

(** ** The observation is carried from one step to the next *)

Lemma episode_ends_app (tr1 tr2 : list Event) :
  episode_ends (tr1 ++ tr2) = episode_ends tr1 ++ episode_ends tr2.
Proof.
  induction tr1 as [| e tr1 IH]; [reflexivity |].
  destruct e; cbn; rewrite ?IH; reflexivity.
Qed.

Lemma episode_ends_burst (idxss : list (list Z)) :
  episode_ends (concat (map update_block idxss)) = [].
Proof. induction idxss as [| idxs rest IH]; [reflexivity | exact IH]. Qed.

Lemma episode_ends_test_steps (k : nat) : episode_ends (replicate k EvTestStep) = [].
Proof. induction k as [| k IH]; [reflexivity | exact IH]. Qed.

Lemma episode_ends_step_events (cfg : Config) (t : Z) (tr : Transition) (ended : bool) :
  episode_ends (step_events cfg t tr ended) = if ended then [t] else [].
Proof.
  unfold step_events.
  destruct (action_event_cases cfg t) as [-> | ->], ended; reflexivity.
Qed.

Lemma episode_ends_epoch_events (cfg : Config) (epoch : Z) (k : nat) (avg : Qc)
    (best : bool) :
  episode_ends (epoch_events cfg epoch k avg best) = [].
Proof.
  unfold epoch_events. rewrite !episode_ends_app, episode_ends_test_steps.
  destruct (state_save_due cfg epoch), best; reflexivity.
Qed.

Section ObservationChain.

Context `{EpochLogger}.

Lemma loop_body_obs (cfg : Config) (act_dim : Z) (act_limit : Qc) (fuel : nat)
    (t : Z) (l l' : Locals) (w w' : World) :
  loop_body cfg act_dim act_limit fuel t (l, w) = Ok (l', w') ->
  exists (tr : Transition) (ended : bool),
    store_log (trace w') = store_log (trace w) ++ [(t, tr)] /\
    episode_ends (trace w') = episode_ends (trace w) ++ (if ended then [t] else []) /\
    t_obs tr = o l /\
    (ended = false -> o l' = t_obs2 tr).
Proof.
  intros Hbody.
  destruct (loop_body_phases _ _ _ _ _ _ _ _ _ Hbody)
    as (a & w1 & l2 & w2 & w3 & Hsel & Hint & Hupd & Hep).
  destruct (select_action_spec _ _ _ _ _ _ _ _ Hsel) as (Htr1 & _).
  destruct (interact_spec _ _ _ _ _ _ _ Hint)
    as (o2 & r & d & e & _ & _ & Htr2 & _ & Ho2 & _).
  cbv zeta in Htr2, Ho2.
  destruct (update_handling_inv _ _ _ _ Hupd) as (idxss & _ & Htr3 & _).
  destruct (epoch_handling_spec _ _ _ _ _ _ _ _ _ Hep)
    as (_ & Ho4 & _ & _ & _ & _ & _ & Hpost).
  set (tr := {| t_obs := o l; t_act := a; t_rew := r; t_obs2 := o2;
                t_done := correct_done cfg (ep_len l + 1) d |}) in *.
  set (ended := d || (ep_len l + 1 =? max_ep_len cfg)) in *.
  exists tr, ended.
  assert (Htrace3 : trace w3 = trace w ++ step_events cfg t tr ended
                               ++ concat (map update_block idxss)).
  { rewrite Htr3, Htr2, Htr1. unfold step_events. cbn. rewrite <- !app_assoc. reflexivity. }
  assert (Hlog : store_log (trace w') = store_log (trace w3) /\
                 episode_ends (trace w') = episode_ends (trace w3)).
  { destruct ((t + 1) mod steps_per_epoch cfg =? 0).
    - destruct Hpost as (_ & k & avg & -> & _).
      fold (epoch_events cfg ((t + 1) / steps_per_epoch cfg) k avg
              (exceeds_best avg (prev_best l2))).
      rewrite store_log_app, episode_ends_app, store_log_epoch_events,
        episode_ends_epoch_events, !app_nil_r. split; reflexivity.
    - destruct Hpost as [-> _]. split; reflexivity. }
  destruct Hlog as [-> ->]. rewrite Htrace3.
  rewrite !store_log_app, !episode_ends_app, store_log_step_events, store_log_burst,
    episode_ends_step_events, episode_ends_burst, !app_nil_r.
  split; [reflexivity |]. split; [reflexivity |]. split; [reflexivity |].
  intros Hended. rewrite Ho4, Ho2, Hended. reflexivity.
Qed.

(** X20. The observation is carried from step to step: in a training run
    the transition stored at step [t + 1] starts from the observation the
    transition of step [t] ended in, unless an episode ended at step [t]
    (then it starts from a fresh [env.reset()]); the first transition starts
    from the initial [env.reset()]. *)
Theorem observations_chain (cfg : Config) (fuel : nat) (s : Start) (w' : World) :
  mode cfg = Train ->
  ddpg cfg fuel s = Ok w' ->
  let log := store_log (trace w') in
  (forall tr, log !! 0%nat = Some (0, tr) -> t_obs tr = (env_reset (s_env s)).1) /\
  (forall (i : nat) (t t' : Z) (tr tr' : Transition),
      log !! i = Some (t, tr) -> log !! S i = Some (t', tr') ->
      t ∉ episode_ends (trace w') ->
      t_obs tr' = t_obs2 tr).
Proof.
  intros Hmode Hrun. cbv zeta.
  destruct (ddpg_train_inv cfg fuel s w' Hmode Hrun) as (limit & buf & l' & _ & _ & Htrain).
  apply (train_invariant cfg _ _ fuel
           (fun t l1 w1 =>
              let log := store_log (trace w1) in
              let ends := episode_ends (trace w1) in
              (forall tr, log !! 0%nat = Some (0, tr) -> t_obs tr = (env_reset (s_env s)).1) /\
              (forall (i : nat) (t0 t1 : Z) (tr0 tr1 : Transition),
                  log !! i = Some (t0, tr0) -> log !! S i = Some (t1, tr1) ->
                  t0 ∉ ends -> t_obs tr1 = t_obs2 tr0) /\
              match last log with
              | Some (t0, tr0) => t0 ∉ ends -> o l1 = t_obs2 tr0
              | None => o l1 = (env_reset (s_env s)).1
              end)) in Htrain.
  - cbv zeta in Htrain. destruct Htrain as (Hfirst & Hchain & _). split; assumption.
  - intros o0 e Hreset. cbn. cbn in Hreset. rewrite Hreset.
    split; [discriminate |]. split; [discriminate | reflexivity].
  - intros t l0 w1 l1 w2 Ht (Hfirst & Hchain & Hlast) Hbody. cbv zeta in *.
    destruct (loop_body_obs _ _ _ _ _ _ _ _ _ Hbody) as (tr & ended & Hlog & Hends & Hobs & Hnext).
    rewrite Hlog, Hends.
    assert (Hmono : forall t0, t0 ∉ episode_ends (trace w1) ++ (if ended then [t] else []) ->
                               t0 ∉ episode_ends (trace w1)).
    { intros t0 Hn Hin. apply Hn. apply elem_of_app. now left. }
    split; [| split].
    + intros tr0 Hz.
      destruct (store_log (trace w1)) as [| p log] eqn:Hl.
      * cbn in Hz. injection Hz as _ <-. rewrite Hobs. exact Hlast.
      * apply Hfirst. exact Hz.
    + intros i t0 t1 tr0 tr1 Hi0 Hi1 Hn.
      destruct (Nat.lt_ge_cases (S i) (length (store_log (trace w1)))) as [Hlt | Hge].
      * rewrite lookup_app_l in Hi0, Hi1 by lia. eapply Hchain; eauto.
      * assert (Hi : S i = length (store_log (trace w1))).
        { apply lookup_lt_Some in Hi1. rewrite length_app in Hi1. cbn in Hi1. lia. }
        rewrite lookup_app_l in Hi0 by lia.
        rewrite lookup_app_r in Hi1 by lia.
        rewrite Hi, Nat.sub_diag in Hi1. injection Hi1 as _ <-.
        rewrite last_lookup, <- Hi in Hlast. cbn [pred] in Hlast.
        rewrite Hi0 in Hlast. rewrite Hobs. apply Hlast. now apply Hmono.
    + rewrite last_snoc. intros Hn. apply Hnext.
      destruct ended; [| reflexivity].
      exfalso. apply Hn. apply elem_of_app. right. apply list_elem_of_singleton. reflexivity.
Qed.

End ObservationChain.

Lemma observations_chain_witness :
  mode warmup_cfg = Train /\
  exists w',
    ddpg (H1 := toy_logger) warmup_cfg 1 toy_start = Ok w' /\
    forall tr, store_log (trace w') !! 0%nat = Some (0, tr) -> t_obs tr = [0%Qc].
Proof.
  split; [reflexivity |].
  pose (run := ddpg (H1 := toy_logger) warmup_cfg 1 toy_start).
  pose (w' := match run with Ok x => x | Raise _ => initial_world toy_start end).
  assert (Hrun : run = Ok w') by (vm_compute; reflexivity).
  exists w'. split; [exact Hrun |].
  exact (proj1 (observations_chain (H1 := toy_logger) warmup_cfg 1 toy_start w'
                  eq_refl Hrun)).
Defined.
